(** * knowledgeGPT: the document registry, the vector index manager and the
      conversation memory pipeline, embedded from the Python sources

    Definitions, one module per source file:
    - [Loader]  src/loaders/document_loader.py
    - [Store]   src/vectorstores/faiss_store.py, over [Faiss], the part of
                the vector store library it calls
    - [Memory]  src/memory/long_term_memory.py
    - [Chain]   src/chains/faiss_conversational_chain.py, with [Tool] for its
                retrieval tool and [clear_session]
    - [Web]     app/web_chatbot.py, the reference files of an answer
    with [Py] for the Python built-ins they use, [Names] for what counts as
    a file name and [Sample] for concrete stand-ins of the outside world.  The properties follow, in the modules
    whose names end in [Facts].

    Conventions of the embedding.
    - A Python [str] is the Rocq [string] of its UTF-8 bytes.  Concatenation,
      equality, [startswith] and slicing at an ASCII character commute with
      the encoding, so they are the byte-level operations.
    - A function that mutates an object takes the state and returns the new
      one; a function that can raise returns a [Result], next to the state it
      leaves behind.
    - [logger.info/warning/error] calls append to a log kept in the state.
    - What the code gets from outside (embedding model, UUIDs, MD5, document
      parsers, the similarity ranking, the clock, the language model) is a
      parameter: a section variable for a pure function, a field of an
      environment record for what can differ from call to call. *)

From Stdlib Require Import Ascii String.
From stdpp Require Import gmap strings list fin_maps pretty.

Local Open Scope stdpp_scope.

(** ** Python built-ins used by the sources *)
Module Py.

(** Exceptions, by class, with their message. *)
Inductive Exn :=
  | ValueError (msg : string)
  | KeyError (msg : string)
  | AttributeError (msg : string)
  | RuntimeError (msg : string).

Definition exn_str (e : Exn) : string :=
  match e with
  | ValueError m | KeyError m | AttributeError m | RuntimeError m => m
  end.

Inductive Result (A : Type) :=
  | Ok (a : A)
  | Raise (e : Exn).
Arguments Ok {A} a.
Arguments Raise {A} e.

(** Logging: [logger.<level>(message)]. *)
Inductive Level := DEBUG | INFO | WARNING | ERROR.
Definition Log := list (Level * string).

Definition LF : ascii := "010"%char.
Definition CR : ascii := "013"%char.

(** [len(s)] of a byte string. *)
Definition len (s : string) : nat := String.length s.

(** [s.startswith(p)]. *)
Definition startswith (s p : string) : bool := String.prefix p s.

(** [x in l] for a list of strings. *)
Definition str_in (x : string) (l : list string) : bool :=
  bool_decide (x ∈ l).

(** Length in bytes of the line boundary [str.splitlines] recognises at the
    head of [s], 0 when there is none.  The boundaries are
    \n \r \r\n \v \f \x1c \x1d \x1e, \x85 (UTF-8 C2 85) and
    U+2028, U+2029 (UTF-8 E2 80 A8, E2 80 A9). *)
Definition boundary_len (s : string) : nat :=
  match s with
  | String c1 rest =>
      let n1 := nat_of_ascii c1 in
      if n1 =? 13 then
        match rest with
        | String c2 _ => if nat_of_ascii c2 =? 10 then 2 else 1
        | EmptyString => 1
        end
      else if ((10 <=? n1) && (n1 <=? 12)) || ((28 <=? n1) && (n1 <=? 30)) then 1
      else if n1 =? 194 then
        match rest with
        | String c2 _ => if nat_of_ascii c2 =? 133 then 2 else 0
        | EmptyString => 0
        end
      else if n1 =? 226 then
        match rest with
        | String c2 (String c3 _) =>
            if (nat_of_ascii c2 =? 128) &&
               ((nat_of_ascii c3 =? 168) || (nat_of_ascii c3 =? 169)) then 3 else 0
        | _ => 0
        end
      else 0
  | EmptyString => 0
  end.

(** [str.splitlines()]: the scan keeps the line being read in [cur] and, in
    [skip], how many bytes of an already recognised boundary remain. *)
Fixpoint splitlines_go (skip : nat) (cur : string) (s : string) : list string :=
  match s with
  | EmptyString => if decide (cur = "") then [] else [cur]
  | String c s' =>
      match skip with
      | S k => splitlines_go k cur s'
      | O =>
          match boundary_len s with
          | O => splitlines_go 0 (cur +:+ String c "") s'
          | S k => cur :: splitlines_go k "" s'
          end
      end
  end.

Definition splitlines (s : string) : list string := splitlines_go 0 "" s.

(** No line boundary starts anywhere in [s]. *)
Fixpoint single_line (s : string) : bool :=
  match s with
  | EmptyString => true
  | String _ s' => (boundary_len s =? 0) && single_line s'
  end.

(** The text made of the given lines, each ended by \n. *)
Fixpoint complete_lines (lines : list string) : string :=
  match lines with
  | [] => ""
  | l :: rest => l +:+ String LF (complete_lines rest)
  end.

(** Reading a file opened in text mode with the default [newline=None]:
    \r\n and \r arrive as \n. *)
Fixpoint universal_newlines_go (after_cr : bool) (s : string) : string :=
  match s with
  | EmptyString => EmptyString
  | String c s' =>
      if after_cr && bool_decide (c = LF) then universal_newlines_go false s'
      else if bool_decide (c = CR) then String LF (universal_newlines_go true s')
      else String c (universal_newlines_go false s')
  end.

Definition universal_newlines (s : string) : string :=
  universal_newlines_go false s.

(** [list.remove(x)]: drops the first occurrence ([x] is known to occur where
    the sources call it). *)
Fixpoint list_remove (x : string) (l : list string) : list string :=
  match l with
  | [] => []
  | y :: rest => if decide (x = y) then rest else y :: list_remove x rest
  end.

(** [str.lower()] on ASCII letters.  The only other character whose lower
    case is made of ASCII letters alone is U+212A (to k), and no supported
    extension contains a k, so membership of a lowered suffix in the table
    of loaders is decided as in Python. *)
Definition lower_char (c : ascii) : ascii :=
  let n := nat_of_ascii c in
  if (65 <=? n) && (n <=? 90) then ascii_of_nat (n + 32) else c.

Fixpoint lower (s : string) : string :=
  match s with
  | EmptyString => EmptyString
  | String c s' => String (lower_char c) (lower s')
  end.

(** [s[i:]]. *)
Fixpoint drop_str (i : nat) (s : string) : string :=
  match i, s with
  | O, _ => s
  | S k, EmptyString => EmptyString
  | S k, String _ s' => drop_str k s'
  end.

(** [s[:i]]. *)
Fixpoint take_str (i : nat) (s : string) : string :=
  match i, s with
  | O, _ => EmptyString
  | S k, EmptyString => EmptyString
  | S k, String c s' => String c (take_str k s')
  end.

(** [s.rfind(".")], [None] standing for -1. *)
Fixpoint rfind_dot (s : string) : option nat :=
  match s with
  | EmptyString => None
  | String c s' =>
      match rfind_dot s' with
      | Some i => Some (S i)
      | None => if bool_decide (c = "."%char) then Some 0 else None
      end
  end.

(** [pathlib.PurePath.suffix] of a final path component [name]:
    [i = name.rfind('.')]; [name[i:]] if [0 < i < len(name) - 1], else ''. *)
Definition suffix (name : string) : string :=
  match rfind_dot name with
  | Some i => if (0 <? i) && (S i <? len name) then drop_str i name else ""
  | None => ""
  end.

(** Length in bytes of the white-space character [str.strip] recognises at
    the head of [s], 0 when there is none: \t \n \v \f \r, \x1c to \x1f,
    the space, U+0085, U+00A0, U+1680, U+2000 to U+200A, U+2028, U+2029,
    U+202F, U+205F and U+3000, in UTF-8. *)
Definition whitespace_len (s : string) : nat :=
  match s with
  | String c1 rest =>
      let n1 := nat_of_ascii c1 in
      if ((9 <=? n1) && (n1 <=? 13)) || ((28 <=? n1) && (n1 <=? 32)) then 1
      else
        match rest with
        | String c2 rest2 =>
            let n2 := nat_of_ascii c2 in
            if (n1 =? 194) && ((n2 =? 133) || (n2 =? 160)) then 2
            else
              match rest2 with
              | String c3 _ =>
                  let n3 := nat_of_ascii c3 in
                  if (n1 =? 225) && (n2 =? 154) && (n3 =? 128) then 3
                  else if (n1 =? 226) && (n2 =? 128) &&
                          (((128 <=? n3) && (n3 <=? 138)) || (n3 =? 168) ||
                           (n3 =? 169) || (n3 =? 175)) then 3
                  else if (n1 =? 226) && (n2 =? 129) && (n3 =? 159) then 3
                  else if (n1 =? 227) && (n2 =? 128) && (n3 =? 128) then 3
                  else 0
              | EmptyString => 0
              end
        | EmptyString => 0
        end
  | EmptyString => 0
  end.

(** The truth value of [s.strip()]: some character of [s] is not white space. *)
Fixpoint strip_nonempty_go (skip : nat) (s : string) : bool :=
  match s with
  | EmptyString => false
  | String _ s' =>
      match skip with
      | S k => strip_nonempty_go k s'
      | O =>
          match whitespace_len s with
          | O => true
          | S k => strip_nonempty_go k s'
          end
      end
  end.

Definition strip_nonempty (s : string) : bool := strip_nonempty_go 0 s.

(** [sep.join(l)] *)
Fixpoint join (sep : string) (l : list string) : string :=
  match l with
  | [] => ""
  | [x] => x
  | x :: rest => x +:+ sep +:+ join sep rest
  end.

End Py.

(** ** langchain_core.documents.Document *)
Module LangChain.

Record Document := mkDocument {
  page_content : string;
  metadata : gmap string string
}.

End LangChain.

(** ** src/loaders/document_loader.py *)
Module Loader.
Import Py LangChain.

Definition Bytes := list Byte.byte.

(** The loader classes of [SUPPORTED_LOADERS]. *)
Inductive LoaderClass := PyPDFLoader | Docx2txtLoader | TextLoader.

Definition SUPPORTED_LOADERS : list (string * LoaderClass) :=
  [ (".pdf", PyPDFLoader); (".docx", Docx2txtLoader); (".doc", Docx2txtLoader);
    (".txt", TextLoader); (".html", TextLoader); (".htm", TextLoader);
    (".md", TextLoader) ].

(** [SUPPORTED_LOADERS[suffix]], [None] when [suffix not in SUPPORTED_LOADERS]. *)
Fixpoint dict_get {A} (k : string) (d : list (string * A)) : option A :=
  match d with
  | [] => None
  | (k', v) :: rest => if decide (k = k') then Some v else dict_get k rest
  end.

(** [str(list(self.SUPPORTED_LOADERS.keys()))]. *)
Definition supported_keys_repr : string :=
  "['.pdf', '.docx', '.doc', '.txt', '.html', '.htm', '.md']".

(** An [UploadedFile] of streamlit: its [name] and [getbuffer()]. *)
Record UploadedFile := mkUpload {
  name : string;
  getbuffer : Bytes
}.

(** The files the service works on: the record of processed documents
    ([PROCESSED_DOCS_RECORD], [None] while it does not exist, otherwise its
    content as written) and the saved copies in [Config.DOCUMENTS_DIR], by
    file name.  Uploaded names are single path components. *)
Record World := mkWorld {
  record_file : option string;
  documents_dir : gmap string Bytes;
  log : Log
}.

Definition logger (lv : Level) (msg : string) (w : World) : World :=
  mkWorld (record_file w) (documents_dir w) (log w ++ [(lv, msg)]).

Definition set_record (c : string) (w : World) : World :=
  mkWorld (Some c) (documents_dir w) (log w).

Definition set_documents (d : gmap string Bytes) (w : World) : World :=
  mkWorld (record_file w) d (log w).

(** [open(PROCESSED_DOCS_RECORD, "r").read().splitlines()]. *)
Definition read_record_lines (content : string) : list string :=
  splitlines (universal_newlines content).

(** The record holds complete lines only: what appending records to a new
    or emptied file leaves. *)
Definition record_in_lines (w : World) : Prop :=
  match record_file w with
  | None => True
  | Some content =>
      ∃ lines, Forall (λ l, single_line l = true) lines ∧ content = complete_lines lines
  end.

(** [_is_document_processed] *)
Definition _is_document_processed (doc_id : string) (w : World) : bool :=
  match record_file w with
  | None => false
  | Some content => str_in doc_id (read_record_lines content)
  end.

(** [_record_processed_document]: append mode creates the file when
    missing; \n is written as it is (POSIX line ending). *)
Definition _record_processed_document (doc_id : string) (w : World) : World :=
  set_record (default "" (record_file w) +:+ doc_id +:+ String LF "") w.

(** [list_all_processed_documents] *)
Definition list_all_processed_documents (w : World) : list string :=
  match record_file w with
  | None => []
  | Some content => read_record_lines content
  end.

(** [delete_processed_document] *)
Definition delete_processed_document (doc_id : string) (w : World) : World :=
  let w1 :=
    match documents_dir w !! doc_id with
    | Some _ => set_documents (delete doc_id (documents_dir w)) w
    | None => logger WARNING ("Document not found: " +:+ doc_id) w
    end in
  let processed_ids := list_all_processed_documents w1 in
  let '(processed_ids', w2) :=
    if str_in doc_id processed_ids
    then (list_remove doc_id processed_ids, w1)
    else (processed_ids,
          logger WARNING
            ("Document not found in list of processed documents: " +:+ doc_id) w1) in
  set_record (join (String LF "") processed_ids') w2.

(** [clear_all_processed_documents] *)
Definition clear_all_processed_documents (PROCESSED_DOCS_RECORD DOCUMENTS_DIR : string)
    (w : World) : World :=
  let w1 := logger INFO ("Successfully cleared " +:+ PROCESSED_DOCS_RECORD)
              (set_record "" w) in
  logger INFO ("Successfully cleared " +:+ DOCUMENTS_DIR) (set_documents ∅ w1).

(** [batch_process_documents], for a [batch_size] of at least 1 ([range]
    raises on a step of 0): consecutive slices of [batch_size] items. *)
Fixpoint batches_fuel {A} (fuel : nat) (batch_size : nat) (l : list A) : list (list A) :=
  match fuel, l with
  | _, [] => []
  | O, _ => []
  | S f, _ => take batch_size l :: batches_fuel f batch_size (drop batch_size l)
  end.

Definition batch_process_documents {A} (batch_size : nat) (l : list A)
  : list (list A) :=
  batches_fuel (length l) batch_size l.

Section WithParsers.

(** [Config.DOCUMENTS_DIR] as a path string. *)
Variable DOCUMENTS_DIR : string.

(** [loader_class(path, **kwargs).load()] on the bytes of the file: the
    parsers are outside the repository and may raise. *)
Variable loader_load : LoaderClass -> string -> Bytes -> Result (list Document).

(** [RecursiveCharacterTextSplitter.split_documents]. *)
Variable split_documents : list Document -> list Document.

Definition add_metadata (path name suffix : string) (doc : Document) : Document :=
  mkDocument (page_content doc)
    (<["file_type" := suffix]>
       (<["file_name" := name]> (<["source" := path]> (metadata doc)))).

(** [load_document] of the file saved as [DOCUMENTS_DIR / name]. *)
Definition load_document (name : string) (w : World)
  : Result (list Document) * World :=
  let path := DOCUMENTS_DIR +:+ "/" +:+ name in
  let suffix := lower (suffix name) in
  match dict_get suffix SUPPORTED_LOADERS with
  | None =>
      (Raise (ValueError ("Unsupported file type: " +:+ suffix +:+
                          ", supported types: " +:+ supported_keys_repr)), w)
  | Some loader_class =>
      match documents_dir w !! name with
      | None => (Raise (RuntimeError ("Error loading " +:+ path)), w)
      | Some bytes =>
          match loader_load loader_class path bytes with
          | Raise e => (Raise e, w)
          | Ok documents =>
              let documents := map (add_metadata path name suffix) documents in
              let w1 := logger INFO ("Processing document: " +:+ name) w in
              let chunks := split_documents documents in
              let w2 := logger INFO ("Document split into " +:+
                                     pretty (length chunks) +:+ " chunks") w1 in
              (Ok chunks, w2)
          end
      end
  end.

(** The parsers accept the upload: its suffix has a loader, and the loader
    returns documents for its bytes. *)
Definition accepted (f : UploadedFile) : Prop :=
  ∃ cls docs,
    dict_get (lower (suffix (name f))) SUPPORTED_LOADERS = Some cls ∧
    loader_load cls (DOCUMENTS_DIR +:+ "/" +:+ name f) (getbuffer f) = Ok docs.

(** [_process_file].  The [file_path is None] test comes after
    [file_path.name] has been read, so it never fires; an upload is always
    present here. *)
Definition _process_file (file_path : UploadedFile) (skip_processed : bool)
    (w : World) : list Document * World :=
  let doc_id := name file_path in
  if skip_processed && _is_document_processed doc_id w then
    ([], logger INFO ("Skipping already processed file: " +:+ doc_id) w)
  else
    let file_path1 := DOCUMENTS_DIR +:+ "/" +:+ name file_path in
    let w1 := set_documents (<[name file_path := getbuffer file_path]> (documents_dir w)) w in
    let w2 := logger INFO ("✓ Uploaded file saved to: " +:+ file_path1) w1 in
    let w3 := logger INFO ("Loading file: " +:+ name file_path) w2 in
    match load_document (name file_path) w3 with
    | (Ok chunks, w4) =>
        let w5 := _record_processed_document doc_id w4 in
        (chunks, logger INFO ("  ✓ Success: " +:+ pretty (length chunks) +:+ " chunks") w5)
    | (Raise e, w4) =>
        ([], logger ERROR ("  ✗ Failed: " +:+ exn_str e) w4)
    end.

End WithParsers.

End Loader.

(** ** The vector store library the index manager drives

    [langchain_community.vectorstores.FAISS] over a flat [faiss] index and
    an [InMemoryDocstore], as far as [faiss_store.py] calls it.  The library
    is outside the repository; the definitions follow its methods. *)
Module Faiss.
Import Py LangChain.

(** A Python [dict] with integer keys, in insertion order. *)
Definition IntDict := list (nat * string).

(** [d[k] = v] *)
Fixpoint dict_set (k : nat) (v : string) (d : IntDict) : IntDict :=
  match d with
  | [] => [(k, v)]
  | (k', v') :: rest =>
      if decide (k = k') then (k, v) :: rest else (k', v') :: dict_set k v rest
  end.

(** [d.update({start + j: id_ for j, id_ in enumerate(ids)})] *)
Fixpoint dict_update_from (start : nat) (ids : list string) (d : IntDict) : IntDict :=
  match ids with
  | [] => d
  | id_ :: rest => dict_update_from (S start) rest (dict_set start id_ d)
  end.

(** [d.values()] *)
Definition values (d : IntDict) : list string := d.*2.

(** [{id_: idx for idx, id_ in d.items()}[id_]]: a later item overrides an
    earlier one with the same id. *)
Fixpoint reversed_index (id_ : string) (d : IntDict) : option nat :=
  match d with
  | [] => None
  | (idx, id') :: rest =>
      match reversed_index id_ rest with
      | Some i => Some i
      | None => if decide (id_ = id') then Some idx else None
      end
  end.

(** Every key one higher. *)
Definition shift (d : IntDict) : IntDict := (λ p, (S p.1, p.2)) <$> d.

(** [sorted(d.items())]: by key, keys of a dict being distinct. *)
Fixpoint insert_item (x : nat * string) (l : IntDict) : IntDict :=
  match l with
  | [] => [x]
  | y :: rest => if decide (fst x ≤ fst y) then x :: l else y :: insert_item x rest
  end.

Definition sorted_items (d : IntDict) : IntDict := foldr insert_item [] d.

(** [{i: id_ for i, id_ in enumerate(ids)}] *)
Definition enumerate (ids : list string) : IntDict := imap (λ i id_, (i, id_)) ids.

(** [index.remove_ids(positions)] on a flat index: the vectors at these
    positions are removed and the later ones move down. *)
Definition remove_positions {A} (positions : list nat) (l : list A) : list A :=
  omap (λ '(i, x), if bool_decide (i ∈ positions) then None else Some x)
       (imap (λ i x, (i, x)) l).

(** [len(ids) != len(set(ids))] *)
Definition has_duplicates (ids : list string) : bool :=
  negb (bool_decide (NoDup ids)).

Section WithEmbeddings.

(** A vector of floats and [embeddings.embed_documents] on one text. *)
Variable Vector : Type.
Variable embed : string -> Vector.

Record FAISS := mkFAISS {
  index : list Vector;                    (* the flat index, by position *)
  docstore : gmap string Document;        (* InMemoryDocstore._dict *)
  index_to_docstore_id : IntDict
}.

(** [InMemoryDocstore()], an empty index and an empty mapping. *)
Definition empty_store : FAISS := mkFAISS [] ∅ [].

(** [FAISS.__add(texts, embeddings, metadatas, ids)] with [ids] given.  The
    vectors enter the index before the docstore checks the ids, so a raise
    there leaves the index ahead of the mapping. *)
Definition add_texts (texts : list (string * gmap string string)) (ids : list string)
    (f : FAISS) : Result (list string) * FAISS :=
  if negb (bool_decide (length texts = length ids)) then
    (Raise (ValueError "texts and ids expected to be equal length"), f)
  else if has_duplicates ids then
    (Raise (ValueError "Duplicate ids found in the ids list."), f)
  else
    let index' := index f ++ ((λ t, embed (fst t)) <$> texts) in
    let new_docs : list (string * Document) :=
      zip ids ((λ t, mkDocument (fst t) (snd t)) <$> texts) in
    if bool_decide (Exists (λ id_, is_Some (docstore f !! id_)) new_docs.*1) then
      (Raise (ValueError "Tried to add ids that already exist"),
       mkFAISS index' (docstore f) (index_to_docstore_id f))
    else
      let docstore' := foldl (λ m p, <[fst p := snd p]> m) (docstore f) new_docs in
      let starting_len := length (index_to_docstore_id f) in
      (Ok ids,
       mkFAISS index' docstore'
         (dict_update_from starting_len ids (index_to_docstore_id f))).

(** [FAISS.add_documents(documents, ids=ids)] *)
Definition add_documents (documents : list Document) (ids : list string)
    (f : FAISS) : Result (list string) * FAISS :=
  add_texts ((λ d, (page_content d, metadata d)) <$> documents) ids f.

(** [FAISS.from_documents(documents, embeddings, ids=ids)] *)
Definition from_documents (documents : list Document) (ids : list string)
  : Result (list string) * FAISS :=
  add_documents documents ids empty_store.

(** [FAISS.from_texts([text], embeddings)]: no ids are passed, the library
    draws one UUID for the text. *)
Definition from_text (text : string) (uuid : string) : FAISS :=
  (add_texts [(text, ∅)] [uuid] empty_store).2.

(** [InMemoryDocstore.delete(ids)]: [pop] raises on an id that is gone. *)
Fixpoint docstore_pop_all (ids : list string) (m : gmap string Document)
  : Result unit * gmap string Document :=
  match ids with
  | [] => (Ok (), m)
  | id_ :: rest =>
      match m !! id_ with
      | None => (Raise (KeyError id_), m)
      | Some _ => docstore_pop_all rest (delete id_ m)
      end
  end.

Definition docstore_delete (ids : list string) (m : gmap string Document)
  : Result unit * gmap string Document :=
  if bool_decide (Forall (λ id_, m !! id_ = None) ids) then
    (Raise (ValueError "Tried to delete ids that does not  exist"), m)
  else docstore_pop_all ids m.

(** [FAISS.delete(ids)] *)
Definition delete (ids : list string) (f : FAISS) : Result bool * FAISS :=
  if bool_decide (Exists (λ id_, id_ ∉ values (index_to_docstore_id f)) ids) then
    (Raise (ValueError "Some specified ids do not exist in the current store."), f)
  else
    let index_to_delete : list nat :=
      omap (λ id_, reversed_index id_ (index_to_docstore_id f)) ids in
    let index' := remove_positions index_to_delete (index f) in
    match docstore_delete ids (docstore f) with
    | (Raise e, docstore') =>
        (Raise e, mkFAISS index' docstore' (index_to_docstore_id f))
    | (Ok _, docstore') =>
        let remaining_ids :=
          values (filter (λ p, fst p ∉ index_to_delete)
                         (sorted_items (index_to_docstore_id f))) in
        (Ok true, mkFAISS index' docstore' (enumerate remaining_ids))
    end.

(** [index.reset()] *)
Definition index_reset (f : FAISS) : FAISS :=
  mkFAISS [] (docstore f) (index_to_docstore_id f).

(** The mapping of a store built through [__add] and [delete]: its keys are
    distinct (it is a dict), its ids are distinct (the docstore refuses an id
    it has), and every id has its document. *)
Definition well_formed (f : FAISS) : Prop :=
  NoDup (index_to_docstore_id f).*1 ∧
  NoDup (values (index_to_docstore_id f)) ∧
  Forall (λ id_, is_Some (docstore f !! id_)) (values (index_to_docstore_id f)).

(** The keys of the mapping are the positions 0, 1, ... in order, as
    [__add] and [delete] number them. *)
Definition numbered (f : FAISS) : Prop :=
  (index_to_docstore_id f).*1 = seq 0 (length (index_to_docstore_id f)).

Global Instance well_formed_dec (f : FAISS) : Decision (well_formed f).
Proof. unfold well_formed. apply _. Defined.

End WithEmbeddings.

Arguments mkFAISS {Vector}.
Arguments index {Vector}.
Arguments docstore {Vector}.
Arguments index_to_docstore_id {Vector}.
Arguments empty_store {Vector}.
Arguments add_texts {Vector}.
Arguments add_documents {Vector}.
Arguments from_documents {Vector}.
Arguments from_text {Vector}.
Arguments delete {Vector}.
Arguments index_reset {Vector}.
Arguments well_formed {Vector}.
Arguments numbered {Vector}.

End Faiss.

(** ** src/vectorstores/faiss_store.py *)
Module Store.
Import Py LangChain.

(** [str(list_of_str)] for ids without quotes or escapes. *)
Definition list_repr (l : list string) : string :=
  "[" +:+ foldr (λ x acc, "'" +:+ x +:+ "'" +:+
                   (if decide (acc = "") then "" else ", " +:+ acc)) "" l +:+ "]".

(** The text of the placeholder document of a new store. *)
Definition SENTINEL_TEXT : string := "初始化文档".

(** [[l[i:i+batch_size] for i in range(0, len(l), batch_size)]] *)
Definition slices {A} (batch_size : nat) (l : list A) : list (list A) :=
  Loader.batches_fuel (length l) batch_size l.

Section WithEnvironment.

Variable Vector : Type.
Variable embed : string -> Vector.

(** [str(uuid.uuid4())]: the n-th UUID the process draws. *)
Variable uuid4 : nat -> string.

(** [str(FAISS_INDEX_PATH)] *)
Variable FAISS_INDEX_PATH : string.

Local Abbreviation FAISS := (Faiss.FAISS Vector).

(** What [FAISS_INDEX_PATH] holds: nothing (missing or empty directory),
    files [load_local] fails on, or the store last saved by [save_local]. *)
Inductive Disk :=
  | NoIndex
  | Corrupt (why : string)
  | Saved (f : FAISS).

(** A [FAISSVectorStore] object together with the directory it saves to,
    the number of UUIDs drawn so far and the log. *)
Record VS := mkVS {
  vector_store : option FAISS;
  disk : Disk;
  uuids_drawn : nat;
  log : Log
}.

Definition logger (lv : Level) (msg : string) (s : VS) : VS :=
  mkVS (vector_store s) (disk s) (uuids_drawn s) (log s ++ [(lv, msg)]).

Definition set_store (f : FAISS) (s : VS) : VS :=
  mkVS (Some f) (disk s) (uuids_drawn s) (log s).

(** [vector_store.save_local(str(FAISS_INDEX_PATH))] *)
Definition save_local (f : FAISS) (s : VS) : VS :=
  mkVS (vector_store s) (Saved f) (uuids_drawn s) (log s).

Definition draw_uuid (s : VS) : string * VS :=
  (uuid4 (uuids_drawn s),
   mkVS (vector_store s) (disk s) (S (uuids_drawn s)) (log s)).

(** [_load_or_create_vector_store], returning the store it found or made. *)
Definition _load_or_create_vector_store (s : VS) : FAISS * VS :=
  let create (s : VS) : FAISS * VS :=
    let s1 := logger WARNING
      "⚠️ No existing vector store found or loading failed, creating empty vector store" s in
    let '(uuid, s2) := draw_uuid s1 in
    let vector_store := Faiss.from_text embed SENTINEL_TEXT uuid in
    (vector_store, save_local vector_store s2) in
  match disk s with
  | NoIndex => create s
  | Saved f =>
      (f, logger INFO ("✅ Loading existing vector store (path: " +:+ FAISS_INDEX_PATH +:+ ")") s)
  | Corrupt why =>
      let s1 := logger INFO
        ("✅ Loading existing vector store (path: " +:+ FAISS_INDEX_PATH +:+ ")") s in
      create (logger WARNING
        ("⚠️ Failed to load vector store: " +:+ why +:+ ", will create a new one") s1)
  end.

(** [FAISSVectorStore.__init__] in a process that finds [d] on disk. *)
Definition init (d : Disk) (uuids_drawn : nat) (log : Log) : VS :=
  let '(f, s) := _load_or_create_vector_store (mkVS None d uuids_drawn log) in
  set_store f s.

(** The ids [add_documents] generates when none are passed. *)
Fixpoint generate_ids (documents : list Document) (s : VS) : list string * VS :=
  match documents with
  | [] => ([], s)
  | doc :: rest =>
      let source := default "" (metadata doc !! "file_name") in
      let '(doc_uuid, s1) := draw_uuid s in
      let '(ids, s2) := generate_ids rest s1 in
      ((source +:+ "_" +:+ doc_uuid) :: ids, s2)
  end.

(** The batch loop of [add_documents]; [i] counts the batches done. *)
Fixpoint add_batches (total : nat) (i : nat)
    (work : list (list Document * list string)) (s : VS) : Result unit * VS :=
  match work with
  | [] => (Ok (), s)
  | (batch, batch_ids) :: rest =>
      let '(r, f') :=
        match vector_store s with
        | None => Faiss.from_documents embed batch batch_ids
        | Some f => Faiss.add_documents embed batch batch_ids f
        end in
      match r with
      | Raise e =>
          (Raise e, match vector_store s with
                    | None => s
                    | Some _ => set_store f' s
                    end)
      | Ok _ =>
          add_batches total (S i) rest
            (logger INFO ("✅ Processed batch " +:+ pretty (S i) +:+ "/" +:+ pretty total)
               (set_store f' s))
      end
  end.

(** The log lines of [batch_process_documents]. *)
Fixpoint log_batches (n : nat) (bs : list (list Document)) (s : VS) : VS :=
  match bs with
  | [] => s
  | b :: rest =>
      log_batches (S n) rest
        (logger INFO ("Created batch " +:+ pretty (S n) +:+ ": " +:+
                      pretty (length b) +:+ " documents") s)
  end.

(** [add_documents] *)
Definition add_documents (documents : list Document) (batch_size : nat)
    (ids : option (list string)) (s : VS) : Result bool * VS :=
  match documents with
  | [] => (Ok false, logger WARNING "⚠️ No documents to add" s)
  | _ =>
      let '(ids, s1) :=
        match ids with
        | None => generate_ids documents s
        | Some ids => (ids, s)
        end in
      if negb (bool_decide (length documents = length ids)) then
        let error_msg := "Document count (" +:+ pretty (length documents) +:+
                         ") does not match ID count (" +:+ pretty (length ids) +:+ ")" in
        (Raise (ValueError error_msg), logger ERROR error_msg s1)
      else if bool_decide (batch_size = 0) then
        (Raise (ValueError "range() arg 3 must not be zero"), s1)
      else
        let batches := Loader.batch_process_documents batch_size documents in
        let s2 := log_batches 0 batches s1 in
        let id_batches := slices batch_size ids in
        let s3 := logger INFO ("✅ Document batching complete: " +:+
                               pretty (length batches) +:+ " batches") s2 in
        match add_batches (length batches) 0 (zip batches id_batches) s3 with
        | (Raise e, s4) => (Raise e, s4)
        | (Ok _, s4) =>
            match vector_store s4 with
            | Some f =>
                (Ok true,
                 logger INFO ("✅ Vector store update complete, saved to: " +:+
                              FAISS_INDEX_PATH) (save_local f s4))
            | None => (Ok false, s4)
            end
        end
  end.

(** The store of the manager, when there is one, is well formed and
    numbered. *)
Definition kept_well (s : VS) : Prop :=
  ∀ f, vector_store s = Some f -> Faiss.well_formed f ∧ Faiss.numbered f.

(** [fs] is [fc] with the placeholder entry of a new store in front: one
    more vector at position 0, its document under the id [u], and every
    other position one higher. *)
Definition sentinel_ahead (u : string) (fc fs : FAISS) : Prop :=
  Faiss.index fs = embed SENTINEL_TEXT :: Faiss.index fc ∧
  Faiss.docstore fs = <[u := mkDocument SENTINEL_TEXT ∅]> (Faiss.docstore fc) ∧
  Faiss.index_to_docstore_id fs = (0, u) :: Faiss.shift (Faiss.index_to_docstore_id fc).

(** Two manager objects whose stores are one placeholder apart. *)
Definition one_apart (u : string) (sc ss : VS) : Prop :=
  ∃ fc fs, vector_store sc = Some fc ∧ vector_store ss = Some fs ∧
           sentinel_ahead u fc fs.

(** The ids an [add_documents] call works with. *)
Definition ids_used (documents : list Document) (ids : option (list string))
    (s : VS) : list string :=
  match ids with
  | None => (generate_ids documents s).1
  | Some ids => ids
  end.

(** [save] with the default path. *)
Definition save (s : VS) : Result unit * VS :=
  match vector_store s with
  | None => (Raise (AttributeError "'NoneType' object has no attribute 'save_local'"), s)
  | Some f =>
      (Ok (), logger INFO ("✅ Vector store saved to: " +:+ FAISS_INDEX_PATH)
                (save_local f s))
  end.

(** [clear] *)
Definition clear (s : VS) : Result unit * VS :=
  match vector_store s with
  | None => (Raise (AttributeError "'NoneType' object has no attribute 'index'"), s)
  | Some f =>
      let f1 := Faiss.index_reset f in
      let f2 := Faiss.mkFAISS (Faiss.index f1) (Faiss.docstore f1) [] in
      let f3 := Faiss.mkFAISS (Faiss.index f2) ∅ (Faiss.index_to_docstore_id f2) in
      (Ok (), logger INFO "Index has been reset and saved to faiss_index"
                (save_local f3 (set_store f3 s)))
  end.

(** The body of the [try] of [delete]. *)
Definition delete_then_save (ids : list string) (s : VS) : Result unit * VS :=
  match vector_store s with
  | None => (Raise (AttributeError "'NoneType' object has no attribute 'delete'"), s)
  | Some f =>
      match Faiss.delete ids f with
      | (Raise e, f') => (Raise e, set_store f' s)
      | (Ok _, f') =>
          match save (set_store f' s) with
          | (Raise e, s1) => (Raise e, s1)
          | (Ok _, s1) =>
              (Ok (), logger INFO ("✅ Successfully deleted " +:+
                                   pretty (length ids) +:+ " documents") s1)
          end
      end
  end.

(** [delete] *)
Definition delete (ids : list string) (s : VS) : bool * VS :=
  match ids with
  | [] => (false, logger WARNING "⚠️ No document IDs provided for deletion" s)
  | _ =>
      match delete_then_save ids s with
      | (Ok _, s1) => (true, s1)
      | (Raise e, s1) =>
          (false, logger ERROR ("⚠️ Failed to delete documents: " +:+ exn_str e) s1)
      end
  end.

(** [delete_by_source] *)
Definition delete_by_source (doc_id : string) (s : VS) : bool * VS :=
  if decide (doc_id = "") then
    (false, logger WARNING "⚠️ No source file path provided for deletion" s)
  else
    match vector_store s with
    | None =>
        (false, logger ERROR ("⚠️ Failed to delete documents: " +:+
                  "'NoneType' object has no attribute 'index_to_docstore_id'") s)
    | Some f =>
        let all_ids := Faiss.values (Faiss.index_to_docstore_id f) in
        let s1 := logger DEBUG ("all_ids: " +:+ list_repr all_ids) s in
        let ids_to_delete :=
          filter (λ id_, startswith id_ (doc_id +:+ "_") = true) all_ids in
        match ids_to_delete with
        | [] => (false, logger WARNING "⚠️ No matching documents found" s1)
        | _ =>
            match delete_then_save ids_to_delete s1 with
            | (Ok _, s2) => (true, s2)
            | (Raise e, s2) =>
                (false, logger ERROR ("⚠️ Failed to delete documents: " +:+ exn_str e) s2)
            end
        end
    end.

End WithEnvironment.

Arguments logger {Vector}.
Arguments set_store {Vector}.
Arguments save_local {Vector}.
Arguments draw_uuid {Vector}.
Arguments _load_or_create_vector_store {Vector}.
Arguments init {Vector}.
Arguments generate_ids {Vector}.
Arguments add_batches {Vector}.
Arguments log_batches {Vector}.
Arguments add_documents {Vector}.
Arguments save {Vector}.
Arguments clear {Vector}.
Arguments delete_then_save {Vector}.
Arguments delete {Vector}.
Arguments delete_by_source {Vector}.
Arguments kept_well {Vector}.
Arguments sentinel_ahead {Vector}.
Arguments one_apart {Vector}.
Arguments ids_used {Vector}.
Arguments NoIndex {Vector}.
Arguments Corrupt {Vector}.
Arguments Saved {Vector}.
Arguments mkVS {Vector}.
Arguments vector_store {Vector}.
Arguments disk {Vector}.
Arguments uuids_drawn {Vector}.
Arguments log {Vector}.

End Store.

(** ** src/memory/long_term_memory.py *)
Module Memory.
Import Py LangChain.

(** An element of a list-valued [content]: a dict (with its string items)
    or something else. *)
Inductive ContentItem :=
  | ItemDict (d : gmap string string)
  | ItemOther (s : string).

(** [message.content]: a [str] or a list of parts. *)
Inductive Content :=
  | Text (s : string)
  | Parts (items : list ContentItem).

Record ToolCall := mkToolCall {
  tc_name : string;
  tc_args : string;
  tc_id : string
}.

(** The message classes of [langchain_core.messages].  Every class has
    [type], [content] and [id]; only [AIMessage] has [tool_calls]; only
    [ChatMessage] has [role]. *)
Inductive Message :=
  | HumanMessage (content : Content) (id : option string)
  | AIMessage (content : Content) (tool_calls : list ToolCall) (id : option string)
  | ToolMessage (content : Content) (tool_call_id : string) (id : option string)
  | SystemMessage (content : Content) (id : option string)
  | ChatMessage (role : string) (content : Content) (id : option string).

Definition msg_type (m : Message) : string :=
  match m with
  | HumanMessage _ _ => "human"
  | AIMessage _ _ _ => "ai"
  | ToolMessage _ _ _ => "tool"
  | SystemMessage _ _ => "system"
  | ChatMessage _ _ _ => "chat"
  end.

Definition msg_content (m : Message) : Content :=
  match m with
  | HumanMessage c _ | AIMessage c _ _ | ToolMessage c _ _
  | SystemMessage c _ | ChatMessage _ c _ => c
  end.

Definition msg_id (m : Message) : option string :=
  match m with
  | HumanMessage _ i | AIMessage _ _ i | ToolMessage _ _ i
  | SystemMessage _ i | ChatMessage _ _ i => i
  end.

(** [getattr(m, "tool_calls")], [None] when the attribute is absent. *)
Definition msg_tool_calls (m : Message) : option (list ToolCall) :=
  match m with
  | AIMessage _ tcs _ => Some tcs
  | _ => None
  end.

(** [getattr(m, "role")], [None] when the attribute is absent. *)
Definition msg_role (m : Message) : option string :=
  match m with
  | ChatMessage r _ _ => Some r
  | _ => None
  end.

Definition isinstance_AIMessage (m : Message) : bool :=
  match m with
  | AIMessage _ _ _ => true
  | _ => false
  end.

(** [state.response]: an object that may have [tool_calls] and [content]. *)
Record Response := mkResponse {
  resp_tool_calls : option (list ToolCall);
  resp_content : option Content
}.

(** The [state] a hook receives: an object with attributes, or a [dict]
    (whose keys are not attributes: [getattr(d, "messages", [])] is [[]] and
    [hasattr(d, "response")] is false).  The hooks are written for both;
    the agent passes a dict. *)
Inductive State :=
  | StateObj (messages : option (list Message)) (system : option string)
             (response : option Response)
  | StateDict (items : gmap string (list Message)).

(** [getattr(state, "messages", [])] *)
Definition getattr_messages (st : State) : list Message :=
  match st with
  | StateObj (Some ms) _ _ => ms
  | _ => []
  end.

(** [getattr(state, "system", "")] *)
Definition getattr_system (st : State) : string :=
  match st with
  | StateObj _ (Some s) _ => s
  | _ => ""
  end.

(** The runtime as the retrieval hook reads it, an object with a [kwargs]
    dict.  The hook reads it only after a search that returned results, so
    never when the state is a dict. *)
Record Runtime := mkRuntime { kwargs : gmap string string }.

(** An entry of the Chroma collection [conversation_history]. *)
Record Entry := mkEntry {
  e_text : string;
  e_role : string;
  e_timestamp : string
}.

(** What a hook call gets from outside: the clock, the ranking of the
    collection for a query (which may raise), and whether [add_texts]
    raises on this call (the embedding request failing). *)
Record Env := mkEnv {
  now_isoformat : string;
  similarity_search : gmap string Entry -> Content -> nat -> Result (list Document);
  add_texts_raises : option Exn
}.

(** The objects a hook reads and writes. *)
Record Ctx := mkCtx {
  state : State;
  runtime : Runtime;
  chroma_store : gmap string Entry;
  log : Log
}.

Definition logger (lv : Level) (msg : string) (c : Ctx) : Ctx :=
  mkCtx (state c) (runtime c) (chroma_store c) (log c ++ [(lv, msg)]).

Definition set_state (st : State) (c : Ctx) : Ctx :=
  mkCtx st (runtime c) (chroma_store c) (log c).

Definition set_runtime (r : Runtime) (c : Ctx) : Ctx :=
  mkCtx (state c) r (chroma_store c) (log c).

Definition set_chroma (m : gmap string Entry) (c : Ctx) : Ctx :=
  mkCtx (state c) (runtime c) m (log c).

(** [chroma_store.add_texts(texts=[content], metadatas=[{role, timestamp}],
    ids=[msg_id])]: the collection upserts by id. *)
Definition add_texts (env : Env) (content role msg_id : string)
    (m : gmap string Entry) : Result unit * gmap string Entry :=
  match add_texts_raises env with
  | Some e => (Raise e, m)
  | None => (Ok (), <[msg_id := mkEntry content role (now_isoformat env)]> m)
  end.

(** Truth value of a [content]. *)
Definition content_truthy (c : Content) : bool :=
  match c with
  | Text s => negb (bool_decide (s = ""))
  | Parts items => negb (bool_decide (items = []))
  end.

(** [[item["text"] for item in content if isinstance(item, dict) and "text" in item]] *)
Definition text_parts (items : list ContentItem) : list string :=
  omap (λ item, match item with
                | ItemDict d => d !! "text"
                | ItemOther _ => None
                end) items.

(** The [content] after the list case has been joined. *)
Definition flatten_content (c : Content) : string :=
  match c with
  | Text s => s
  | Parts items => join " " (text_parts items)
  end.

(** [messages[-1]] and [messages[:-1]] *)
Definition last_message (ms : list Message) : option Message := last ms.
Definition drop_last (ms : list Message) : list Message := removelast ms.

Section WithHash.

(** [hashlib.md5(raw.encode('utf-8')).hexdigest()] *)
Variable md5_hexdigest : string -> string.

(** [generate_msg_id] *)
Definition generate_msg_id (content role : string) : string :=
  let raw := role +:+ ":" +:+ content in
  md5_hexdigest raw.

(** [retrieve_similar_history_middleware].  The search is not inside a [try]. *)
Definition retrieve_similar_history_middleware (env : Env) (c : Ctx)
  : Result unit * Ctx :=
  let messages := getattr_messages (state c) in
  match last_message messages with
  | None => (Ok (), c)
  | Some last_msg =>
      let current_query :=
        if bool_decide (msg_type last_msg = "human") then msg_content last_msg
        else if bool_decide (msg_tool_calls last_msg = None) then msg_content last_msg
        else Text "" in
      if negb (content_truthy current_query) then (Ok (), c)
      else
        match similarity_search env (chroma_store c) current_query 3 with
        | Raise e => (Raise e, c)
        | Ok [] => (Ok (), c)
        | Ok results =>
            let history_context :=
              join (String LF "") (map (λ r, "- " +:+ page_content r) results) in
            let additional_prompt :=
              String LF (String LF "## Reference Conversation History (Memory):") +:+
              String LF history_context +:+ String LF "" in
            let original_system :=
              match kwargs (runtime c) !! "system" with
              | Some s => if decide (s = "") then getattr_system (state c) else s
              | None => getattr_system (state c)
              end in
            (Ok (), set_runtime
                      (mkRuntime (<["system" := original_system +:+ additional_prompt]>
                                    (kwargs (runtime c)))) c)
        end
  end.

(** The guarded store step shared by the two saving hooks:
    [try: msg_id = generate_msg_id(content, role); add_texts(...); info
     except Exception as e: error]. *)
Definition try_save (env : Env) (content role : string) (saved failed : string)
    (c : Ctx) : Ctx :=
  let msg_id := generate_msg_id content role in
  match add_texts env content role msg_id (chroma_store c) with
  | (Ok _, m) =>
      logger INFO (saved +:+ take_str 8 msg_id +:+ "...") (set_chroma m c)
  | (Raise e, m) =>
      logger ERROR (failed +:+ exn_str e) (set_chroma m c)
  end.

(** [save_user_messages_middleware] *)
Definition save_user_messages_middleware (env : Env) (c : Ctx) : Result unit * Ctx :=
  let messages := getattr_messages (state c) in
  match last_message messages with
  | None => (Ok (), c)
  | Some last_msg =>
      let is_human :=
        bool_decide (msg_type last_msg = "human") ||
        bool_decide (msg_role last_msg = Some "user") in
      if is_human then
        let content := flatten_content (msg_content last_msg) in
        if negb (bool_decide (content = "")) && strip_nonempty content then
          (Ok (), try_save env content "user"
                    "User message saved to long-term memory with ID: "
                    "Failed to save user message: " c)
        else (Ok (), c)
      else (Ok (), c)
  end.

(** [save_assistant_response_middleware] *)
Definition save_assistant_response_middleware (env : Env) (c : Ctx) : Result unit * Ctx :=
  match state c with
  | StateObj _ _ (Some response) =>
      match resp_tool_calls response with
      | Some (_ :: _) => (Ok (), c)
      | _ =>
          let content := flatten_content (default (Text "") (resp_content response)) in
          if negb (bool_decide (content = "")) && strip_nonempty content then
            (Ok (), try_save env content "assistant"
                      "Assistant response saved to long-term memory with ID: "
                      "Failed to save model response: " c)
          else (Ok (), c)
      end
  | _ => (Ok (), c)
  end.

(** An Assistant message that carries tool calls. *)
Definition dangling (m : Message) : bool :=
  match m with
  | AIMessage _ (_ :: _) _ => true
  | _ => false
  end.

(** [sanitize_dangling_tool_middleware] *)
Definition sanitize_dangling_tool_middleware (env : Env) (c : Ctx) : Result unit * Ctx :=
  let messages := getattr_messages (state c) in
  match last_message messages with
  | None => (Ok (), c)
  | Some last_msg =>
      let is_ai_msg := isinstance_AIMessage last_msg in
      let has_tool_calls :=
        match msg_tool_calls last_msg with
        | Some (_ :: _) => true
        | _ => false
        end in
      if is_ai_msg && has_tool_calls then
        let c1 := logger WARNING
          ("🚨 [Auto-fix] Detected dangling tool call (ID: " +:+
           default "None" (msg_id last_msg) +:+ "), removing...") c in
        let c2 :=
          match state c1 with
          | StateObj (Some _) system response =>
              set_state (StateObj (Some (drop_last messages)) system response) c1
          | StateObj None _ _ => c1
          | StateDict items =>
              match items !! "messages" with
              | Some _ => set_state (StateDict (<["messages" := drop_last messages]> items)) c1
              | None => c1
              end
          end in
        (Ok (), logger INFO "✅ [Auto-fix] Fix complete, state reset to previous step." c2)
      else (Ok (), c)
  end.

End WithHash.

End Memory.

(** ** src/chains/faiss_conversational_chain.py *)
Module Chain.
Import Py LangChain.

(** *** The checkpoint files of [FAISSConversationalRAGChain.__init__] *)

(** What a [SqliteSaver] database holds: per [thread_id], the message
    history last written. *)
Abbreviation Checkpoints := (gmap string (list Memory.Message)).

(** The files under [Config.SHORT_TERM_MEMORY], by relative path. *)
Abbreviation Directory := (gmap string Checkpoints).

(** [for file in Path(Config.SHORT_TERM_MEMORY).rglob("*"): file.unlink()] *)
Definition unlink_all (dir : Directory) : Directory :=
  foldr (λ file d, delete file d) dir (map_to_list dir).*1.

(** [sqlite3.connect(path)] followed by [PRAGMA journal_mode=WAL]: the
    database file is opened, and created empty when it is not there. *)
Definition connect (path : string) (dir : Directory) : Directory :=
  match dir !! path with
  | Some _ => dir
  | None => <[path := ∅]> dir
  end.

Definition db_path (session_id : string) : string := session_id +:+ ".db".

(** The part of [__init__] that prepares the checkpoint store of the session. *)
Definition init_checkpointer (session_id : string) (dir : Directory) : Directory :=
  connect (db_path session_id) (unlink_all dir).

(** Reading and writing the history of a thread in the database file of a
    session, as a saver does that opens the file at that path: the saver of
    a chain that is being constructed.  (A chain that stays cached keeps
    the connection it opened; what that connection sees after a later
    constructor has unlinked its file is left to the file system and is
    not described here.) *)
Definition get_checkpoint (session_id thread_id : string) (dir : Directory)
  : option (list Memory.Message) :=
  dir !! db_path session_id ≫= λ db, db !! thread_id.

Definition put_checkpoint (session_id thread_id : string)
    (messages : list Memory.Message) (dir : Directory) : Directory :=
  <[db_path session_id := <[thread_id := messages]> (default ∅ (dir !! db_path session_id))]> dir.

(** The process: the session cache [_sessions] (the ids that have a chain
    object) and the directory, which outlives the process. *)
Record Process := mkProcess {
  _sessions : list string;
  short_term_memory : Directory
}.

(** [get_conversational_chain]: a chain is constructed on first access. *)
Definition get_conversational_chain (session_id : string) (p : Process) : Process :=
  if bool_decide (session_id ∈ _sessions p) then p
  else mkProcess (session_id :: _sessions p)
                 (init_checkpointer session_id (short_term_memory p)).

(** A new process starts with an empty session cache over the same files. *)
Definition restart (p : Process) : Process :=
  mkProcess [] (short_term_memory p).

(** *** The agent built by [create_agent] *)

Inductive Stage :=
  | Sanitizer
  | Summarization
  | HistoryRetrieval
  | UserPersistence
  | ModelCall
  | AssistantPersistence.

Global Instance Stage_eq_dec : EqDecision Stage.
Proof. solve_decision. Defined.

Inductive Hook := before_model | after_model.

Global Instance Hook_eq_dec : EqDecision Hook.
Proof. solve_decision. Defined.

(** The message list of a state as the nodes of the agent read and write
    it: the item messages of a dict, which is what the agent works on
    (web_chatbot.py starts a turn with [agent.stream({"messages": [...]})]
    and reads the answer from [chunk["model"]["messages"]]); for a state
    with attributes, the attribute. *)
Definition state_messages (st : Memory.State) : list Memory.Message :=
  match st with
  | Memory.StateObj ms _ _ => default [] ms
  | Memory.StateDict items => default [] (items !! "messages")
  end.

Definition set_state_messages (ms : list Memory.Message) (st : Memory.State)
  : Memory.State :=
  match st with
  | Memory.StateObj _ sys resp => Memory.StateObj (Some ms) sys resp
  | Memory.StateDict items => Memory.StateDict (<["messages" := ms]> items)
  end.

(** What a turn gets from outside, besides the environment of the memory
    hooks: what [SummarizationMiddleware], with its two settings, makes of
    a message list, and the model call with its answer. *)
Record AgentEnv := mkAgentEnv {
  memory_env : Memory.Env;
  summarization : nat -> nat -> list Memory.Message -> list Memory.Message;
  model : Memory.State -> Memory.Runtime -> Result Memory.Message
}.

Record Middleware := mkMiddleware {
  mw_stage : Stage;
  mw_hook : Hook;
  mw_run : AgentEnv -> Memory.Ctx -> Result unit * Memory.Ctx
}.

(** A turn in progress: the objects of the hooks and the stages entered so
    far. *)
Record Turn := mkTurn {
  ctx : Memory.Ctx;
  trace : list Stage
}.

(** Hooks run one after the other; a raise ends the turn. *)
Fixpoint run_hooks (env : AgentEnv) (hooks : list Middleware) (t : Turn)
  : Result unit * Turn :=
  match hooks with
  | [] => (Ok (), t)
  | mw :: rest =>
      match mw_run mw env (ctx t) with
      | (Raise e, c) => (Raise e, mkTurn c (trace t ++ [mw_stage mw]))
      | (Ok _, c) => run_hooks env rest (mkTurn c (trace t ++ [mw_stage mw]))
      end
  end.

(** The model node: its update is [{"messages": [response]}], so the
    answer goes to the end of the message list of the state.  The state
    gets no [response] attribute. *)
Definition call_model (env : AgentEnv) (t : Turn) : Result unit * Turn :=
  let c := ctx t in
  match model env (Memory.state c) (Memory.runtime c) with
  | Raise e => (Raise e, mkTurn c (trace t ++ [ModelCall]))
  | Ok response =>
      let st := set_state_messages (state_messages (Memory.state c) ++ [response])
                  (Memory.state c) in
      (Ok (), mkTurn (Memory.set_state st c) (trace t ++ [ModelCall]))
  end.

(** One model turn of the agent: the [before_model] hooks in the order of
    the middleware list, the model, the [after_model] hooks in reverse
    order. *)
Definition model_turn (env : AgentEnv) (middleware : list Middleware) (t : Turn)
  : Result unit * Turn :=
  match run_hooks env (filter (λ mw, mw_hook mw = before_model) middleware) t with
  | (Raise e, t1) => (Raise e, t1)
  | (Ok _, t1) =>
      match call_model env t1 with
      | (Raise e, t2) => (Raise e, t2)
      | (Ok _, t2) =>
          run_hooks env (reverse (filter (λ mw, mw_hook mw = after_model) middleware)) t2
      end
  end.

(** The stages a completed turn goes through, as [model_turn] schedules
    the hooks of a middleware list. *)
Definition turn_schedule (middleware : list Middleware) : list Stage :=
  (mw_stage <$> filter (λ mw, mw_hook mw = before_model) middleware) ++
  [ModelCall] ++
  (mw_stage <$> reverse (filter (λ mw, mw_hook mw = after_model) middleware)).

(** Neither the history search nor the model call raises. *)
Definition never_raises (env : AgentEnv) : Prop :=
  (∀ store query k, ∃ results,
      Memory.similarity_search (memory_env env) store query k = Ok results) ∧
  (∀ st rt, ∃ response, model env st rt = Ok response).

Section WithHash.

Variable md5_hexdigest : string -> string.

(** The [middleware=[...]] list of [__init__]. *)
Definition middleware : list Middleware :=
  [ mkMiddleware Sanitizer before_model
      (λ env, Memory.sanitize_dangling_tool_middleware (memory_env env));
    mkMiddleware Summarization before_model
      (λ env c,
         let messages := summarization env 4000 20 (state_messages (Memory.state c)) in
         (Ok (), Memory.set_state (set_state_messages messages (Memory.state c)) c));
    mkMiddleware HistoryRetrieval before_model
      (λ env, Memory.retrieve_similar_history_middleware (memory_env env));
    mkMiddleware UserPersistence before_model
      (λ env, Memory.save_user_messages_middleware md5_hexdigest (memory_env env));
    mkMiddleware AssistantPersistence after_model
      (λ env, Memory.save_assistant_response_middleware md5_hexdigest (memory_env env)) ].

(** One model turn of [self.agent]. *)
Definition agent_turn (env : AgentEnv) (t : Turn) : Result unit * Turn :=
  model_turn env middleware t.

End WithHash.

(** *** Documents *)
Section WithServices.

Variable DOCUMENTS_DIR PROCESSED_DOCS_RECORD FAISS_INDEX_PATH : string.
Variable loader_load : Loader.LoaderClass -> string -> Loader.Bytes -> Result (list Document).
Variable split_documents : list Document -> list Document.
Variable Vector : Type.
Variable embed : string -> Vector.
Variable uuid4 : nat -> string.

(** The two singletons a chain works on, and its own log. *)
Record Services := mkServices {
  document_loader : Loader.World;
  faiss_store : Store.VS Vector;
  log : Log
}.

(** [add_documents]: the returned dict is its ["message"], [None] when the
    method returns nothing. *)
Definition add_documents (file_path : Loader.UploadedFile) (s : Services)
  : Result (option string) * Services :=
  let '(chunks, w) :=
    Loader._process_file DOCUMENTS_DIR loader_load split_documents
      file_path true (document_loader s) in
  match chunks with
  | [] =>
      (Ok (Some ("Skipping already processed file:  " +:+ Loader.name file_path +:+ " ")),
       mkServices w (faiss_store s)
         (log s ++ [(WARNING, "⚠️ File " +:+ Loader.name file_path +:+
                              " did not generate any document chunks after processing")]))
  | _ =>
      match Store.add_documents embed uuid4 FAISS_INDEX_PATH chunks 10 None
              (faiss_store s) with
      | (Raise e, vs) => (Raise e, mkServices w vs (log s))
      | (Ok _, vs) => (Ok None, mkServices w vs (log s))
      end
  end.

(** [delete_documents] *)
Definition delete_documents (doc_id : string) (s : Services) : Services :=
  let w := Loader.delete_processed_document doc_id (document_loader s) in
  let '(_, vs) := Store.delete_by_source FAISS_INDEX_PATH doc_id (faiss_store s) in
  mkServices w vs (log s).

(** [clear_documents] *)
Definition clear_documents (s : Services) : Result unit * Services :=
  let w := Loader.clear_all_processed_documents PROCESSED_DOCS_RECORD DOCUMENTS_DIR
             (document_loader s) in
  match Store.clear (faiss_store s) with
  | (r, vs) => (r, mkServices w vs (log s))
  end.

End WithServices.

Arguments add_documents _ _ _ _ {Vector}.
Arguments delete_documents _ {Vector}.
Arguments clear_documents _ _ {Vector}.
Arguments mkServices {Vector}.
Arguments document_loader {Vector}.
Arguments faiss_store {Vector}.
Arguments log {Vector}.

End Chain.

(** ** src/chains/faiss_conversational_chain.py: the retrieval tool and the
    session cache *)
Module Tool.
Import Py LangChain.

(** A [RetrievalTool] object: [last_docs], an empty list until the first
    retrieval.  The retriever is outside the repository: [invoke] is what
    [self.retriever.invoke] returns or raises for a query. *)
Record RetrievalTool := mkRetrievalTool { last_docs : list Document }.

(** f"<doc>\n{doc.page_content}\n</doc>" *)
Definition format_doc (doc : Document) : string :=
  "<doc>" +:+ String LF (page_content doc) +:+ String LF "</doc>".

(** [RetrievalTool._run] *)
Definition _run (invoke : string -> Result (list Document)) (query : string)
    (tool : RetrievalTool) : Result string * RetrievalTool :=
  match invoke query with
  | Raise e => (Raise e, tool)
  | Ok docs =>
      let tool := mkRetrievalTool docs in
      match docs with
      | [] => (Ok "No relevant documents found.", tool)
      | _ => (Ok (join (String LF (String LF "")) (map format_doc docs)), tool)
      end
  end.

(** [RetrievalTool.get_last_docs] *)
Definition get_last_docs (tool : RetrievalTool) : list Document := last_docs tool.

(** [clear_session]: the chain class defines no [clear_memory], so the call
    on a cached chain raises before the [del]. *)
Definition clear_session (session_id : string) (p : Chain.Process)
  : Result unit * Chain.Process :=
  if bool_decide (session_id ∈ Chain._sessions p) then
    (Raise (AttributeError
              "'FAISSConversationalRAGChain' object has no attribute 'clear_memory'"), p)
  else (Ok (), p).

End Tool.

(** ** app/web_chatbot.py *)
Module Web.
Import Py LangChain.

(** One round of the loop over [retrieved_docs]: [displayed_files] is the
    set, [reference_files] the list. *)
Definition reference_step (acc : gset string * list string) (doc : Document)
  : gset string * list string :=
  let '(displayed_files, reference_files) := acc in
  let file_name := default "Unknown document" (metadata doc !! "file_name") in
  if bool_decide (file_name ∈ displayed_files) then acc
  else ({[file_name]} ∪ displayed_files, reference_files ++ [file_name]).

(** The [reference_files] shown under an answer and saved with it. *)
Definition reference_files (retrieved_docs : list Document) : list string :=
  match retrieved_docs with
  | [] => []
  | _ => (foldl reference_step (∅, []) retrieved_docs).2
  end.

End Web.

(** ** File names *)
Module Names.

(** A single path component that names a file: what the [name] of an upload
    is, and what the registry is asked to delete.  Joined to a directory it
    stays inside it. *)
Definition component (n : string) : bool :=
  negb (bool_decide (n = "")) && negb (bool_decide (n = ".")) &&
  negb (bool_decide (n = "..")) &&
  negb (bool_decide ("/"%char ∈ list_ascii_of_string n)) &&
  negb (bool_decide ("000"%char ∈ list_ascii_of_string n)).

End Names.

(** ** Stand-ins for the outside world, for running the definitions *)
Module Sample.
Import Py LangChain.

Definition Vector := nat.
Definition embed (text : string) : Vector := String.length text.
Definition uuid4 (n : nat) : string := "00000000-0000-4000-8000-" +:+ pretty n.
Definition md5_hexdigest (raw : string) : string := "md5:" +:+ raw.
Definition DOCUMENTS_DIR : string := "data/documents".
Definition PROCESSED_DOCS_RECORD : string := "data/processed_docs.txt".
Definition FAISS_INDEX_PATH : string := "data/faiss_index".

(** Parsers: the text loader refuses bytes that are not UTF-8 (a byte FF),
    the others an empty file; what is accepted becomes one document. *)
Definition loader_load (cls : Loader.LoaderClass) (path : string) (bytes : Loader.Bytes)
  : Result (list Document) :=
  match cls with
  | Loader.TextLoader =>
      if existsb (Byte.eqb Byte.xff) bytes
      then Raise (RuntimeError ("Error loading " +:+ path))
      else Ok [mkDocument (string_of_list_byte bytes) {["source" := path]}]
  | _ =>
      match bytes with
      | [] => Raise (ValueError "Cannot read an empty file")
      | _ => Ok [mkDocument (string_of_list_byte bytes) {["source" := path]}]
      end
  end.

Definition split_documents (docs : list Document) : list Document := docs.

(** The manager of a process that finds no saved index. *)
Definition vs0 : Store.VS Vector :=
  Store.init embed uuid4 FAISS_INDEX_PATH Store.NoIndex 0 [].

Definition chunk (file_name text : string) : Document :=
  mkDocument text {["file_name" := file_name]}.

(** The new store after two chunks of manual.pdf and one of notes.txt. *)
Definition vs_docs : Store.VS Vector :=
  (Store.add_documents embed uuid4 FAISS_INDEX_PATH
     [chunk "manual.pdf" "one"; chunk "manual.pdf" "two"; chunk "notes.txt" "three"]
     10 None vs0).2.

(** The new store after a chunk that carries no file name. *)
Definition vs_orphan : Store.VS Vector :=
  (Store.add_documents embed uuid4 FAISS_INDEX_PATH
     [mkDocument "orphan" ∅] 10 None vs0).2.

(** A conversation that has just received a question: the state is the
    dict the agent keeps, the long-term store is empty. *)
Definition ctx_question : Memory.Ctx :=
  Memory.mkCtx
    (Memory.StateDict
       {["messages" := [Memory.HumanMessage (Memory.Text "what is in manual.pdf?") None]]})
    (Memory.mkRuntime ∅) ∅ [].

(** A question and a tool call that got no result. *)
Definition history_dangling : list Memory.Message :=
  [ Memory.HumanMessage (Memory.Text "what is in manual.pdf?") None;
    Memory.AIMessage (Memory.Text "")
      [Memory.mkToolCall "retrieval_tool" "manual.pdf" "call_1"] (Some "run-1") ].

(** A conversation, in the dict the agent keeps, that ends in that call. *)
Definition ctx_dangling : Memory.Ctx :=
  Memory.mkCtx (Memory.StateDict {["messages" := history_dangling]})
    (Memory.mkRuntime ∅) ∅ [].

(** A question, a tool call that was answered, and a second tool call that
    was not. *)
Definition history_two_tool_calls : list Memory.Message :=
  [ Memory.HumanMessage (Memory.Text "what is in manual.pdf?") None;
    Memory.AIMessage (Memory.Text "")
      [Memory.mkToolCall "retrieval_tool" "manual.pdf" "call_1"] (Some "run-1");
    Memory.ToolMessage (Memory.Text "<doc>one</doc>") "call_1" None;
    Memory.AIMessage (Memory.Text "")
      [Memory.mkToolCall "retrieval_tool" "contents" "call_2"] (Some "run-2") ].

(** The long-term store answers with no hit and accepts every write. *)
Definition env_up : Memory.Env :=
  Memory.mkEnv "2025-01-01T00:00:00" (λ _ _ _, Ok []) None.

(** The long-term store cannot be reached: search and write both raise. *)
Definition env_down : Memory.Env :=
  Memory.mkEnv "2025-01-01T00:00:00"
    (λ _ _ _, Raise (RuntimeError "Could not connect to tenant default_tenant"))
    (Some (RuntimeError "Could not connect to tenant default_tenant")).

(** The summarizer leaves a short history alone; the model answers in text. *)
Definition agent_env (env : Memory.Env) : Chain.AgentEnv :=
  Chain.mkAgentEnv env (λ _ _ messages, messages)
    (λ _ _, Ok (Memory.AIMessage (Memory.Text "It is the manual.") [] None)).

(** No registry, no saved copy, a new index. *)
Definition services0 : Chain.Services Vector :=
  Chain.mkServices (Loader.mkWorld None ∅ []) vs0 [].

End Sample.


(** * Properties *)

(** ** Strings *)
Module PyFacts.
Import Py.

Lemma app_cons (c : ascii) (a b : string) : String c a +:+ b = String c (a +:+ b).
Proof. reflexivity. Qed.

Lemma app_nil_l (s : string) : "" +:+ s = s.
Proof. reflexivity. Qed.

Lemma app_nil_r (s : string) : s +:+ "" = s.
Proof. induction s as [|c s IH]; [done | by rewrite app_cons, IH]. Qed.

Lemma app_assoc (a b c : string) : (a +:+ b) +:+ c = a +:+ b +:+ c.
Proof. induction a as [|x a IH]; [done | by rewrite !app_cons, IH]. Qed.

(** A boundary-free head stays boundary-free when a newline follows. *)
Lemma boundary_len_before_LF (c : ascii) (t r : string) :
  boundary_len (String c t) = 0 ->
  boundary_len (String c t +:+ String LF r) = 0.
Proof.
  rewrite app_cons. unfold boundary_len.
  destruct t as [|c2 [|c3 t]]; rewrite ?app_cons, ?app_nil_l;
    try destruct r;
    change (nat_of_ascii LF) with 10; cbn [Nat.eqb orb]; rewrite ?andb_false_r;
    repeat (match goal with
            | |- context [if ?b then _ else _] => destruct b eqn:?
            end; try done).
Qed.

Lemma splitlines_go_line (l r cur : string) :
  single_line l = true ->
  splitlines_go 0 cur (l +:+ String LF r) = (cur +:+ l) :: splitlines_go 0 "" r.
Proof.
  revert cur. induction l as [|c l IH]; intros cur Hl.
  - rewrite app_nil_r, app_nil_l. done.
  - cbn [single_line] in Hl. apply andb_prop in Hl as [Hb Hl].
    apply Nat.eqb_eq in Hb.
    pose proof (boundary_len_before_LF c l r Hb) as Hb'.
    rewrite app_cons in Hb' |- *.
    cbn [splitlines_go]. rewrite Hb'. rewrite IH by done.
    by rewrite app_assoc.
Qed.

Lemma splitlines_complete_lines (lines : list string) :
  Forall (λ l, single_line l = true) lines ->
  splitlines (complete_lines lines) = lines.
Proof.
  unfold splitlines. induction 1 as [|l lines Hl _ IH]; [done|].
  cbn [complete_lines]. by rewrite splitlines_go_line, IH, app_nil_l.
Qed.

Lemma single_line_no_CR (c : ascii) (l : string) :
  single_line (String c l) = true -> c ≠ CR.
Proof.
  cbn [single_line]. intros [Hb _]%andb_prop ->.
  unfold boundary_len in Hb. change (nat_of_ascii CR) with 13 in Hb.
  cbn [Nat.eqb] in Hb. destruct l as [|c2 l]; [done|].
  by destruct (nat_of_ascii c2 =? 10).
Qed.

Lemma universal_newlines_go_line (l r : string) :
  single_line l = true ->
  universal_newlines_go false (l +:+ String LF r)
  = l +:+ String LF (universal_newlines_go false r).
Proof.
  induction l as [|c l IH]; intros Hl; [by rewrite !app_nil_l|].
  pose proof (single_line_no_CR _ _ Hl) as Hc.
  cbn [single_line] in Hl. apply andb_prop in Hl as [_ Hl].
  rewrite !app_cons. cbn [universal_newlines_go andb].
  rewrite bool_decide_eq_false_2 by done. by rewrite IH.
Qed.

Lemma universal_newlines_complete_lines (lines : list string) :
  Forall (λ l, single_line l = true) lines ->
  universal_newlines (complete_lines lines) = complete_lines lines.
Proof.
  unfold universal_newlines. induction 1 as [|l lines Hl _ IH]; [done|].
  cbn [complete_lines]. by rewrite universal_newlines_go_line, IH.
Qed.

Lemma complete_lines_app (a b : list string) :
  complete_lines (a ++ b) = complete_lines a +:+ complete_lines b.
Proof.
  induction a as [|l a IH]; [done|].
  cbn [complete_lines app]. rewrite IH.
  by rewrite app_assoc, app_cons.
Qed.

End PyFacts.

(** ** The document registry *)
Module LoaderFacts.
Import Py LangChain Loader PyFacts.

Lemma is_processed_logger doc_id lv msg w :
  _is_document_processed doc_id (logger lv msg w) = _is_document_processed doc_id w.
Proof. done. Qed.

Lemma record_in_lines_logger lv msg w :
  record_in_lines (logger lv msg w) <-> record_in_lines w.
Proof. done. Qed.

Lemma record_in_lines_set_documents d w :
  record_in_lines (set_documents d w) <-> record_in_lines w.
Proof. done. Qed.

(** What a record made of complete lines reads back as. *)
Lemma read_record_complete_lines (lines : list string) :
  Forall (λ l, single_line l = true) lines ->
  read_record_lines (complete_lines lines) = lines.
Proof.
  intros H. unfold read_record_lines.
  by rewrite universal_newlines_complete_lines, splitlines_complete_lines.
Qed.

(** Appending to a record of complete lines adds the id as a line. *)
Lemma record_appends_line (doc_id : string) (w : World) :
  single_line doc_id = true ->
  record_in_lines w ->
  ∃ lines, Forall (λ l, single_line l = true) lines ∧
    record_file (_record_processed_document doc_id w)
    = Some (complete_lines (lines ++ [doc_id])).
Proof.
  intros Hd Hw. unfold record_in_lines in Hw.
  unfold _record_processed_document, set_record. cbn [record_file].
  destruct (record_file w) as [content|].
  - destruct Hw as (lines & Hl & ->). exists lines. split; [done|].
    by rewrite complete_lines_app.
  - by exists [].
Qed.

Lemma record_then_processed (doc_id : string) (w : World) :
  single_line doc_id = true ->
  record_in_lines w ->
  _is_document_processed doc_id (_record_processed_document doc_id w) = true
  ∧ record_in_lines (_record_processed_document doc_id w).
Proof.
  intros Hd Hw.
  destruct (record_appends_line doc_id w Hd Hw) as (lines & Hl & Hrec).
  assert (Forall (λ l, single_line l = true) (lines ++ [doc_id])) as Hall.
  { apply Forall_app. split; [done|]. by constructor. }
  split.
  - unfold _is_document_processed. rewrite Hrec.
    rewrite read_record_complete_lines by done.
    unfold str_in. apply bool_decide_eq_true. set_solver.
  - unfold record_in_lines. rewrite Hrec. eauto.
Qed.

(** As long as the record holds complete lines, recording keeps every
    earlier member. *)
Lemma record_keeps_members (doc_id earlier : string) (w : World) :
  single_line doc_id = true ->
  record_in_lines w ->
  _is_document_processed earlier w = true ->
  _is_document_processed earlier (_record_processed_document doc_id w) = true.
Proof.
  intros Hd Hw. unfold record_in_lines in Hw.
  unfold _is_document_processed, _record_processed_document, set_record.
  cbn [record_file]. destruct (record_file w) as [content|]; [|done].
  destruct Hw as (lines & Hl & ->). cbn [default from_option id].
  assert (complete_lines lines +:+ doc_id +:+ String LF ""
          = complete_lines (lines ++ [doc_id])) as -> by by rewrite complete_lines_app.
  assert (Forall (λ l, single_line l = true) (lines ++ [doc_id])) as Hall.
  { apply Forall_app. split; [done|]. by constructor. }
  rewrite (read_record_complete_lines lines Hl).
  rewrite (read_record_complete_lines _ Hall).
  unfold str_in. intros Hin%bool_decide_eq_true.
  apply bool_decide_eq_true, elem_of_app. by left.
Qed.

Section WithParsers.

Variable DOCUMENTS_DIR : string.
Variable loader_load : LoaderClass -> string -> Bytes -> Result (list Document).
Variable split_documents : list Document -> list Document.

Local Abbreviation load_document := (load_document DOCUMENTS_DIR loader_load split_documents).
Local Abbreviation _process_file := (_process_file DOCUMENTS_DIR loader_load split_documents).

Lemma process_file_skip (f : UploadedFile) (w : World) :
  _is_document_processed (name f) w = true ->
  _process_file f true w
  = ([], logger INFO ("Skipping already processed file: " +:+ name f) w).
Proof. intros H. unfold Loader._process_file. by rewrite H. Qed.

Lemma load_document_unsupported (n : string) (w : World) :
  dict_get (lower (suffix n)) SUPPORTED_LOADERS = None ->
  load_document n w
  = (Raise (ValueError ("Unsupported file type: " +:+ lower (suffix n) +:+
                        ", supported types: " +:+ supported_keys_repr)), w).
Proof. intros H. unfold Loader.load_document. by rewrite H. Qed.

(** However the call goes, the record keeps its shape. *)
Lemma process_file_keeps_lines (f : UploadedFile) (skip : bool) (w : World) :
  single_line (name f) = true ->
  record_in_lines w ->
  record_in_lines (_process_file f skip w).2.
Proof.
  intros Hn Hw. unfold Loader._process_file.
  destruct (skip && _is_document_processed (name f) w); [done|].
  match goal with |- context [Loader.load_document ?a ?b ?c ?d ?e] =>
    destruct (Loader.load_document a b c d e) as [[chunks|e'] w4] eqn:Hload end.
  - cbn [snd]. apply record_in_lines_logger.
    apply record_then_processed; [done|].
    unfold Loader.load_document in Hload.
    repeat (match type of Hload with
            | context [match ?x with _ => _ end] => destruct x
            end; simplify_eq; try done).
  - cbn [snd]. apply record_in_lines_logger.
    unfold Loader.load_document in Hload.
    repeat (match type of Hload with
            | context [match ?x with _ => _ end] => destruct x
            end; simplify_eq; try done).
Qed.

(** An accepted upload is on record afterwards. *)
Lemma process_file_records (f : UploadedFile) (skip : bool) (w : World) :
  single_line (name f) = true ->
  record_in_lines w ->
  accepted DOCUMENTS_DIR loader_load f ->
  _is_document_processed (name f) (_process_file f skip w).2 = true.
Proof.
  intros Hn Hw (cls & docs & Hcls & Hload). unfold Loader._process_file.
  destruct (skip && _is_document_processed (name f) w) eqn:Hskip.
  - apply andb_prop in Hskip as [_ Hp]. done.
  - unfold Loader.load_document. rewrite Hcls. cbn [documents_dir logger set_documents].
    rewrite lookup_insert_eq, Hload. cbn [snd].
    rewrite is_processed_logger.
    apply record_then_processed; [done|].
    by rewrite !record_in_lines_logger.
Qed.

End WithParsers.

(** C10 (the code breaks the claim).  Membership does not survive a delete
    followed by a record: [delete_processed_document] rewrites the record
    with ["\n".join(...)], which leaves the last line without its newline,
    and the next [_record_processed_document] appends to that line.  After
    record a.txt, record b.txt, delete a.txt, record c.txt the file holds the
    single line b.txtc.txt: neither the id just recorded nor the id
    recorded earlier and never deleted is a member any more. *)
Theorem record_after_delete_loses_members :
  let w1 := _record_processed_document "b.txt"
              (_record_processed_document "a.txt" (mkWorld None ∅ [])) in
  let w2 := delete_processed_document "a.txt" w1 in
  let w3 := _record_processed_document "c.txt" w2 in
  _is_document_processed "b.txt" w2 = true ∧
  record_file w2 = Some "b.txt" ∧
  record_file w3 = Some ("b.txtc.txt" +:+ String LF "") ∧
  list_all_processed_documents w3 = ["b.txtc.txt"] ∧
  _is_document_processed "c.txt" w3 = false ∧
  _is_document_processed "b.txt" w3 = false.
Proof. vm_compute. by repeat split. Qed.

End LoaderFacts.

(** ** The vector store library *)
Module FaissFacts.
Import Py LangChain.
Import Faiss (IntDict, values, reversed_index, insert_item, sorted_items,
  enumerate, docstore_pop_all, docstore_delete).

Lemma reversed_index_None (id_ : string) (d : IntDict) :
  id_ ∉ values d -> reversed_index id_ d = None.
Proof.
  induction d as [|[k v] d IH]; [done|].
  unfold values. cbn [fmap list_fmap snd]. intros [Hne Hnot]%not_elem_of_cons.
  cbn [reversed_index]. rewrite IH by done. by rewrite decide_False.
Qed.

Lemma reversed_index_elem (id_ : string) (k : nat) (d : IntDict) :
  reversed_index id_ d = Some k -> (k, id_) ∈ d.
Proof.
  induction d as [|[k' v] d IH]; [done|].
  cbn [reversed_index]. destruct (reversed_index id_ d) as [i|].
  - intros [= ->]. right. by apply IH.
  - case_decide; [|done]. intros [= ->]. subst. left.
Qed.

Lemma reversed_index_of_item (k : nat) (v : string) (d : IntDict) :
  NoDup (values d) -> (k, v) ∈ d -> reversed_index v d = Some k.
Proof.
  induction d as [|[k' v'] d IH]; [by intros _ ?%elem_of_nil|].
  unfold values. cbn [fmap list_fmap snd].
  intros [Hfresh Hnd]%NoDup_cons [Heq|Hin]%elem_of_cons.
  - simplify_eq. cbn [reversed_index].
    rewrite reversed_index_None by done. by rewrite decide_True.
  - cbn [reversed_index]. by rewrite (IH Hnd Hin).
Qed.

Lemma insert_item_perm (x : nat * string) (l : IntDict) :
  insert_item x l ≡ₚ x :: l.
Proof.
  induction l as [|y l IH]; [done|].
  cbn [insert_item]. case_decide; [done|].
  rewrite IH. apply Permutation_swap.
Qed.

Lemma sorted_items_perm (d : IntDict) : sorted_items d ≡ₚ d.
Proof.
  induction d as [|x d IH]; [done|].
  cbn [sorted_items foldr]. fold (sorted_items d).
  by rewrite insert_item_perm, IH.
Qed.

Lemma enumerate_values (ids : list string) : values (enumerate ids) = ids.
Proof.
  unfold values, enumerate. rewrite fmap_imap.
  rewrite (imap_ext _ (const id)) by done.
  by rewrite imap_const, list_fmap_id.
Qed.

Lemma enumerate_keys (ids : list string) :
  (enumerate ids).*1 = seq 0 (length ids).
Proof.
  unfold enumerate. rewrite fmap_imap.
  rewrite (imap_ext _ (λ i _, i)) by done.
  by rewrite (imap_seq_0 ids (λ i, i)), list_fmap_id.
Qed.

(** Popping distinct ids that are all present removes exactly them. *)
Lemma docstore_pop_all_ok (ids : list string) (m : gmap string Document) :
  NoDup ids ->
  Forall (λ id_, is_Some (m !! id_)) ids ->
  docstore_pop_all ids m = (Ok (), foldl (λ m id_, delete id_ m) m ids).
Proof.
  revert m. induction ids as [|id_ ids IH]; intros m Hnd Hall; [done|].
  apply NoDup_cons in Hnd as [Hfresh Hnd].
  apply Forall_cons in Hall as [[doc Hdoc] Hall].
  cbn [docstore_pop_all foldl]. rewrite Hdoc. apply IH; [done|].
  apply Forall_forall. intros x Hx.
  rewrite lookup_delete_ne by (intros ->; done).
  by eapply Forall_forall in Hall.
Qed.

Lemma lookup_pop_all (ids : list string) (m : gmap string Document) (x : string) :
  foldl (λ m id_, delete id_ m) m ids !! x
  = if bool_decide (x ∈ ids) then None else m !! x.
Proof.
  revert m. induction ids as [|id_ ids IH]; intros m; [done|].
  cbn [foldl]. rewrite IH.
  destruct (decide (x = id_)) as [->|Hne].
  - rewrite lookup_delete_eq. rewrite (bool_decide_eq_true_2 (id_ ∈ id_ :: ids)) by left.
    by case_bool_decide.
  - rewrite lookup_delete_ne by done.
    destruct (decide (x ∈ ids)) as [Hin|Hout].
    + rewrite !bool_decide_eq_true_2; [done|by right|done].
    + rewrite !bool_decide_eq_false_2; [done| |done].
      by intros [?|?]%elem_of_cons.
Qed.

Lemma filter_ext_in {A} (P1 P2 : A -> Prop)
    `{!∀ x, Decision (P1 x), !∀ x, Decision (P2 x)} (l : list A) :
  (∀ x, x ∈ l -> P1 x <-> P2 x) ->
  filter P1 l = filter P2 l.
Proof.
  induction l as [|a l IH]; intros Hiff; [done|].
  rewrite !filter_cons.
  rewrite IH by (intros x Hx; apply Hiff; by right).
  apply decide_ext, Hiff. left.
Qed.

(** With distinct keys and distinct ids, a position is selected for
    deletion exactly when its id is one of those to delete. *)
Lemma position_selected (d : IntDict) (ids : list string) (k : nat) (v : string) :
  NoDup d.*1 -> NoDup (values d) -> (k, v) ∈ d ->
  k ∈ omap (λ id_, reversed_index id_ d) ids <-> v ∈ ids.
Proof.
  intros Hkeys Hvals Hin. rewrite list_elem_of_omap. split.
  - intros (id_ & Hid & Hrev). apply reversed_index_elem in Hrev.
    assert (id_ = v) as <-; [|done].
    clear -Hkeys Hin Hrev. induction d as [|[k' v'] d IH]; [by apply elem_of_nil in Hin|].
    cbn [fmap list_fmap fst] in Hkeys. apply NoDup_cons in Hkeys as [Hfresh Hkeys].
    apply elem_of_cons in Hin as [Hin|Hin], Hrev as [Hrev|Hrev]; simplify_eq.
    + done.
    + exfalso. apply Hfresh. by apply (list_elem_of_fmap_2 fst) in Hrev.
    + exfalso. apply Hfresh. by apply (list_elem_of_fmap_2 fst) in Hin.
    + by apply IH.
  - intros Hv. exists v. split; [done|]. by apply reversed_index_of_item.
Qed.

Section WithEmbeddings.

Variable Vector : Type.
Implicit Type f : Faiss.FAISS Vector.

(** [FAISS.delete] on the stored ids that satisfy [P]: it succeeds, the
    docstore loses exactly these ids, and the mapping keeps the other ids,
    renumbered in key order. *)
Lemma delete_selected f (P : string -> Prop) `{!∀ x, Decision (P x)} :
  let d := Faiss.index_to_docstore_id f in
  let ids := filter P (values d) in
  Faiss.well_formed f ->
  ids ≠ [] ->
  ∃ index',
    Faiss.delete ids f
    = (Ok true,
       Faiss.mkFAISS index'
         (foldl (λ m id_, base.delete id_ m) (Faiss.docstore f) ids)
         (enumerate (values (filter (λ p, ¬ P p.2) (sorted_items d))))).
Proof.
  intros d ids (Hkeys & Hvals & Hdocs) Hne.
  assert (ids ⊆ values d) as Hsub by apply list_subseteq_filter.
  assert (NoDup ids) as Hnd by by apply NoDup_filter.
  unfold Faiss.delete. fold d.
  rewrite bool_decide_eq_false_2; last first.
  { rewrite Exists_exists. intros (x & Hx & Hnot). apply Hnot, Hsub, Hx. }
  unfold docstore_delete.
  assert (Forall (λ id_, is_Some (Faiss.docstore f !! id_)) ids) as Hpresent.
  { apply Forall_forall. intros x Hx.
    eapply Forall_forall in Hdocs; [done|]. by apply Hsub. }
  rewrite bool_decide_eq_false_2; last first.
  { destruct ids as [|x ids']; [done|].
    intros Hnone. apply Forall_cons in Hnone as [Hnone _].
    apply Forall_cons in Hpresent as [[doc Hdoc] _]. congruence. }
  rewrite docstore_pop_all_ok by done.
  eexists.
  rewrite (filter_ext_in
             (λ p, p.1 ∉ omap (λ id_, reversed_index id_ d) ids)
             (λ p, ¬ P p.2) (sorted_items d)); [done|].
  intros [k v] Hin. cbn [fst snd].
  rewrite sorted_items_perm in Hin.
  rewrite (position_selected d ids k v Hkeys Hvals Hin).
  subst ids. rewrite list_elem_of_filter.
  split.
  - intros Hn HP. apply Hn. split; [done|]. by apply (list_elem_of_fmap_2 snd) in Hin.
  - intros Hn [HP _]. done.
Qed.

End WithEmbeddings.

End FaissFacts.

(** ** The vector index manager *)
Module StoreFacts.
Import Py LangChain FaissFacts.
Import Faiss (IntDict, values, sorted_items, enumerate).

Lemma startswith_spec (s p : string) :
  startswith s p = true <-> ∃ t, s = p +:+ t.
Proof.
  unfold startswith. revert s. induction p as [|c p IH]; intros s.
  - destruct s; (split; [eauto|done]).
  - destruct s as [|c' s]; cbn [String.prefix].
    + split; [done|]. by intros [t ?].
    + destruct (ascii_dec c c') as [->|Hne].
      * rewrite IH. split; intros [t Ht]; exists t.
        -- by rewrite Ht.
        -- by injection Ht.
      * split; [done|]. intros [t Ht]. by injection Ht.
Qed.

Lemma values_filter (Q : string -> Prop) (H : ∀ x, Decision (Q x))
    (H' : ∀ p : nat * string, Decision (Q p.2)) (l : IntDict) :
  values (filter (λ p, Q p.2) l) = filter Q (values l).
Proof.
  unfold values. induction l as [|[k v] l IH]; [done|].
  rewrite fmap_cons. cbn [snd]. destruct (decide (Q v)).
  - rewrite (filter_cons_True Q), (filter_cons_True (λ p : nat * string, Q p.2)) by done.
    rewrite fmap_cons. by f_equal.
  - by rewrite (filter_cons_False Q), (filter_cons_False (λ p : nat * string, Q p.2)) by done.
Qed.

Section WithEnvironment.

Variable Vector : Type.
Variable FAISS_INDEX_PATH : string.

Local Abbreviation delete_by_source :=
  (Store.delete_by_source (Vector := Vector) FAISS_INDEX_PATH).

(** C6, amended.  For every non-empty source id and every store whose
    mapping is well formed (distinct ids, each with its document, as [add]
    and [delete] leave it), [delete_by_source] selects exactly the stored ids
    that start with the source id followed by an underscore.  When there are
    none it returns False and leaves the store and the saved copy as they
    were.  Otherwise it returns True, the new store is the one saved, none of
    its ids starts with that prefix, all other ids are kept, the docstore
    has lost exactly the selected ids, and the mapping is well formed again. *)
Theorem delete_by_source_removes_the_source (doc_id : string)
    (s : Store.VS Vector) (f : Faiss.FAISS Vector) :
  doc_id ≠ "" ->
  Store.vector_store s = Some f ->
  Faiss.well_formed f ->
  let matches := λ id_, startswith id_ (doc_id +:+ "_") = true in
  let ids_to_delete := filter matches (values (Faiss.index_to_docstore_id f)) in
  let '(ok, s') := delete_by_source doc_id s in
  match ids_to_delete with
  | [] => ok = false ∧ Store.vector_store s' = Some f ∧ Store.disk s' = Store.disk s
  | _ :: _ =>
      ok = true ∧
      ∃ f', Store.vector_store s' = Some f' ∧
            Store.disk s' = Store.Saved f' ∧
            Forall (λ id_, ¬ matches id_) (values (Faiss.index_to_docstore_id f')) ∧
            values (Faiss.index_to_docstore_id f')
              ≡ₚ filter (λ id_, ¬ matches id_) (values (Faiss.index_to_docstore_id f)) ∧
            (∀ id_, Faiss.docstore f' !! id_
                    = if bool_decide (id_ ∈ ids_to_delete) then None
                      else Faiss.docstore f !! id_) ∧
            Faiss.well_formed f'
  end.
Proof.
  intros Hne Hstore Hwf matches ids_to_delete.
  unfold Store.delete_by_source. rewrite decide_False by done. rewrite Hstore.
  fold matches. fold ids_to_delete.
  destruct ids_to_delete as [|id0 rest] eqn:Hids; [done|].
  destruct (delete_selected Vector f matches Hwf) as [index' Hdel].
  { fold ids_to_delete. by rewrite Hids. }
  fold ids_to_delete in Hdel. rewrite Hids in Hdel.
  unfold Store.delete_then_save, Store.logger. cbn [Store.vector_store].
  rewrite Hstore, Hdel. cbn [Store.save Store.set_store Store.vector_store].
  split; [done|]. eexists. split; [done|]. split; [done|].
  cbn [Faiss.index_to_docstore_id Faiss.docstore].
  destruct Hwf as (Hkeys & Hvals & Hdocs).
  assert (values (filter (λ p : nat * string, ¬ matches p.2)
                    (sorted_items (Faiss.index_to_docstore_id f)))
          = filter (λ id_, ¬ matches id_)
              (values (sorted_items (Faiss.index_to_docstore_id f)))) as Hkept
    by apply (values_filter (λ id_, ¬ matches id_)).
  rewrite enumerate_values, Hkept.
  assert (values (sorted_items (Faiss.index_to_docstore_id f))
            ≡ₚ values (Faiss.index_to_docstore_id f)) as Hperm.
  { unfold values. by rewrite sorted_items_perm. }
  split; [|split; [|split]].
  - apply Forall_forall. by intros x [? _]%list_elem_of_filter.
  - by rewrite Hperm.
  - intros id_. apply lookup_pop_all.
  - split; [|split]; cbn [Faiss.index_to_docstore_id Faiss.docstore].
    + rewrite enumerate_keys. apply NoDup_seq.
    + rewrite ?enumerate_values, ?Hkept. apply NoDup_filter. by rewrite Hperm.
    + rewrite ?enumerate_values, ?Hkept. apply Forall_forall.
      intros x [Hx Hin]%list_elem_of_filter. rewrite Hperm in Hin.
      rewrite lookup_pop_all. rewrite bool_decide_eq_false_2.
      * by eapply Forall_forall in Hdocs.
      * rewrite <- Hids. subst ids_to_delete. by intros [? _]%list_elem_of_filter.
Qed.

End WithEnvironment.

Import Sample.

(** C6 as stated fails for the empty source id: the guard at the top of
    [delete_by_source] returns False before any id is looked at, although
    the store holds an id that starts with the underscore (the id
    [add_documents] generates for a chunk without a file name). *)
Lemma delete_by_source_empty_id_deletes_nothing :
  let '(ok, s') := Store.delete_by_source FAISS_INDEX_PATH "" vs_orphan in
  ok = false ∧
  (values ∘ Faiss.index_to_docstore_id) <$> Store.vector_store s'
  = Some ["00000000-0000-4000-8000-0"; "_00000000-0000-4000-8000-1"] ∧
  startswith "_00000000-0000-4000-8000-1" ("" +:+ "_") = true.
Proof. vm_compute. by repeat split. Qed.

Lemma delete_by_source_removes_the_source_witness :
  let '(ok, s') := Store.delete_by_source FAISS_INDEX_PATH "manual.pdf" vs_docs in
  ok = true ∧
  ∃ f', Store.vector_store s' = Some f' ∧
        Forall (λ id_, ¬ startswith id_ "manual.pdf_" = true)
               (values (Faiss.index_to_docstore_id f')).
Proof.
  set (f := default Faiss.empty_store (Store.vector_store vs_docs)).
  assert (Store.vector_store vs_docs = Some f) as Hf by by vm_compute.
  assert (Faiss.well_formed f) as Hwf.
  { apply (bool_decide_unpack _). by vm_compute. }
  assert ("manual.pdf" ≠ "") as Hne by done.
  pose proof (delete_by_source_removes_the_source Vector FAISS_INDEX_PATH
                "manual.pdf" vs_docs f Hne Hf Hwf) as H.
  cbv zeta in H.
  destruct (Store.delete_by_source FAISS_INDEX_PATH "manual.pdf" vs_docs) as [ok s'].
  destruct (filter _ _) as [|id0 rest] eqn:Hsel in H.
  - exfalso. by vm_compute in Hsel.
  - destruct H as (Hok & f' & Hs' & _ & Hnone & _). eauto.
Defined.

End StoreFacts.

(** ** What the operations of the manager preserve *)
Module InvariantFacts.
Import Py LangChain FaissFacts.
Import Faiss (IntDict, values, dict_set, dict_update_from, enumerate).

Lemma dict_set_fresh (k : nat) (v : string) (d : IntDict) :
  k ∉ d.*1 -> dict_set k v d = d ++ [(k, v)].
Proof.
  induction d as [|[k' v'] d IH]; [done|].
  cbn [fmap list_fmap fst]. intros [Hne Hk]%not_elem_of_cons.
  cbn [dict_set]. rewrite decide_False by done. by rewrite IH.
Qed.

Lemma dict_update_from_numbered (ids : list string) (d : IntDict) :
  d.*1 = seq 0 (length d) ->
  dict_update_from (length d) ids d = d ++ imap (λ j id_, (length d + j, id_)) ids.
Proof.
  revert d. induction ids as [|id_ ids IH]; intros d Hd.
  - by rewrite app_nil_r.
  - cbn [dict_update_from]. rewrite dict_set_fresh; last first.
    { rewrite Hd, elem_of_seq. lia. }
    replace (S (length d)) with (length (d ++ [(length d, id_)]))
      by (rewrite length_app; cbn; lia).
    rewrite IH; last first.
    { rewrite fmap_app, length_app, Hd. cbn [fmap list_fmap fst length].
      by rewrite seq_app. }
    rewrite <- app_assoc. f_equal. cbn [imap app]. f_equal.
    + f_equal. lia.
    + apply imap_ext. intros j x _. cbn. rewrite length_app. cbn. f_equal. lia.
Qed.

Lemma lookup_foldl_insert (docs : list (string * Document)) (m : gmap string Document)
    (id_ : string) :
  is_Some (m !! id_) ∨ id_ ∈ docs.*1 ->
  is_Some (foldl (λ m p, <[p.1 := p.2]> m) m docs !! id_).
Proof.
  revert m. induction docs as [|[k v] docs IH]; intros m H.
  - destruct H as [H|H]; [done|]. by apply elem_of_nil in H.
  - cbn [foldl fst snd]. apply IH.
    destruct (decide (id_ = k)) as [->|Hne].
    + left. by rewrite lookup_insert_eq.
    + destruct H as [H|H].
      * left. by rewrite lookup_insert_ne.
      * cbn [fmap list_fmap fst] in H. apply elem_of_cons in H as [?|?]; [done|by right].
Qed.

Lemma zip_fst_same_length {A B} (l : list A) (k : list B) :
  length l = length k -> (zip l k).*1 = l.
Proof. intros H. apply fst_zip. lia. Qed.

Section WithEmbeddings.
Variable Vector : Type.
Variable embed : string -> Vector.
Implicit Type f : Faiss.FAISS Vector.

Lemma empty_store_well_formed :
  Faiss.well_formed (Faiss.empty_store (Vector := Vector)) ∧
  Faiss.numbered (Faiss.empty_store (Vector := Vector)).
Proof. repeat split; constructor. Qed.

(** [__add] keeps a store well formed and numbered, whether it returns or
    raises. *)
Lemma add_texts_well_formed f texts ids :
  Faiss.well_formed f -> Faiss.numbered f ->
  Faiss.well_formed (Faiss.add_texts embed texts ids f).2 ∧
  Faiss.numbered (Faiss.add_texts embed texts ids f).2.
Proof.
  intros (Hkeys & Hvals & Hdocs) Hnum. unfold Faiss.add_texts.
  case_bool_decide as Hlen; cbn [negb]; [|by repeat split].
  unfold Faiss.has_duplicates. case_bool_decide as Hnd; cbn [negb]; [|by repeat split].
  set (new_docs := zip ids _).
  assert (new_docs.*1 = ids) as Hfst.
  { apply zip_fst_same_length. by rewrite length_fmap. }
  case_bool_decide as Hclash; [by repeat split|].
  rewrite Hfst in Hclash.
  cbn [snd]. unfold Faiss.well_formed, Faiss.numbered.
  cbn [Faiss.index_to_docstore_id Faiss.docstore].
  unfold Faiss.numbered in Hnum.
  rewrite (dict_update_from_numbered ids _ Hnum).
  set (d := Faiss.index_to_docstore_id f) in *.
  assert ((imap (λ j id_, (length d + j, id_)) ids).*2 = ids) as Hnew2.
  { rewrite fmap_imap. rewrite (imap_ext _ (const id)) by done.
    by rewrite imap_const, list_fmap_id. }
  assert ((imap (λ j id_, (length d + j, id_)) ids).*1 = seq (length d) (length ids))
    as Hnew1.
  { rewrite fmap_imap. rewrite (imap_ext _ (λ j _, length d + j)) by done.
    rewrite (imap_seq_0 ids (λ j, length d + j)).
    change (λ j, length d + j) with (Nat.add (length d)).
    by rewrite fmap_add_seq, Nat.add_0_r. }
  unfold values in *. rewrite !fmap_app, Hnew1, Hnew2, length_app, length_imap.
  repeat split.
  - rewrite Hnum, <- seq_app. apply NoDup_seq.
  - apply NoDup_app. split; [done|]. split; [|done].
    intros x Hx Hin. apply Hclash. apply Exists_exists. exists x. split; [done|].
    by eapply Forall_forall in Hdocs.
  - apply Forall_app. split; apply Forall_forall; intros x Hx;
      apply lookup_foldl_insert.
    + left. by eapply Forall_forall in Hdocs.
    + right. by rewrite Hfst.
  - by rewrite Hnum, <- seq_app.
Qed.

Lemma from_text_well_formed (text u : string) :
  Faiss.well_formed (Faiss.from_text embed text u) ∧
  Faiss.numbered (Faiss.from_text embed text u).
Proof.
  unfold Faiss.from_text. apply add_texts_well_formed; apply empty_store_well_formed.
Qed.

(** [FAISS.delete] on the stored ids that satisfy [P] keeps the store well
    formed and numbered. *)
Lemma delete_selected_well_formed f (P : string -> Prop) `{!∀ x, Decision (P x)} :
  let ids := filter P (values (Faiss.index_to_docstore_id f)) in
  Faiss.well_formed f ->
  ids ≠ [] ->
  Faiss.well_formed (Faiss.delete ids f).2 ∧ Faiss.numbered (Faiss.delete ids f).2.
Proof.
  intros ids Hwf Hne.
  destruct (delete_selected Vector f P Hwf Hne) as [index' Hdel].
  fold ids in Hdel. rewrite Hdel. cbn [snd].
  destruct Hwf as (Hkeys & Hvals & Hdocs).
  set (kept := values (filter _ _)).
  assert (kept ⊆ values (Faiss.index_to_docstore_id f)) as Hsub.
  { intros x (p & -> & Hp)%list_elem_of_fmap.
    apply list_elem_of_filter in Hp as [_ Hp]. rewrite sorted_items_perm in Hp.
    by apply (list_elem_of_fmap_2 snd) in Hp. }
  assert (Forall (λ x, ¬ P x) kept) as Hnot.
  { apply Forall_forall. intros x (p & -> & Hp)%list_elem_of_fmap.
    by apply list_elem_of_filter in Hp as [Hp _]. }
  assert (NoDup kept) as Hnd.
  { subst kept. unfold values. apply NoDup_fmap_2_strong.
    - intros [k1 v1] [k2 v2] [_ H1]%list_elem_of_filter [_ H2]%list_elem_of_filter Heq.
      cbn [snd] in Heq. subst v2. rewrite sorted_items_perm in H1, H2.
      pose proof (reversed_index_of_item k1 v1 _ Hvals H1) as E1.
      pose proof (reversed_index_of_item k2 v1 _ Hvals H2) as E2.
      congruence.
    - apply NoDup_filter. rewrite sorted_items_perm.
      by apply (NoDup_fmap_1 fst). }
  repeat split; unfold Faiss.numbered;
    cbn [Faiss.index_to_docstore_id Faiss.docstore].
  - rewrite enumerate_keys. apply NoDup_seq.
  - by rewrite enumerate_values.
  - rewrite enumerate_values. apply Forall_forall. intros x Hx.
    rewrite lookup_pop_all, bool_decide_eq_false_2.
    + eapply Forall_forall in Hdocs; [done|]. by apply Hsub.
    + subst ids. intros [HP _]%list_elem_of_filter.
      by eapply Forall_forall in Hnot.
  - rewrite enumerate_keys. unfold enumerate. by rewrite length_imap.
Qed.

Variable uuid4 : nat -> string.
Variable FAISS_INDEX_PATH : string.

Lemma init_kept_well (d : Store.Disk Vector) (n : nat) (log : Log) :
  match d with
  | Store.Saved f => Faiss.well_formed f ∧ Faiss.numbered f
  | _ => True
  end ->
  Store.kept_well (Store.init embed uuid4 FAISS_INDEX_PATH d n log).
Proof.
  intros Hd f. destruct d as [|why|f0]; cbn; intros [= <-];
    [apply from_text_well_formed..|done].
Qed.

Lemma kept_well_logger lv msg (s : Store.VS Vector) :
  Store.kept_well s -> Store.kept_well (Store.logger lv msg s).
Proof. done. Qed.

Lemma kept_well_log_batches n bs (s : Store.VS Vector) :
  Store.kept_well s -> Store.kept_well (Store.log_batches n bs s).
Proof.
  revert n s. induction bs as [|b bs IH]; intros n s H; [done|].
  cbn [Store.log_batches]. by apply IH, kept_well_logger.
Qed.

Lemma kept_well_generate_ids documents (s : Store.VS Vector) :
  Store.kept_well s -> Store.kept_well (Store.generate_ids uuid4 documents s).2.
Proof.
  revert s. induction documents as [|doc documents IH]; intros s H; [done|].
  cbn [Store.generate_ids]. unfold Store.draw_uuid.
  set (s1 := Store.mkVS _ _ _ _).
  specialize (IH s1 H). by destruct (Store.generate_ids uuid4 documents s1).
Qed.

Lemma kept_well_add_batches total i work (s : Store.VS Vector) :
  Store.kept_well s -> Store.kept_well (Store.add_batches embed total i work s).2.
Proof.
  revert i s. induction work as [|[batch batch_ids] work IH]; intros i s H; [done|].
  cbn [Store.add_batches].
  destruct (Store.vector_store s) as [f|] eqn:Hf.
  - destruct (H f Hf) as [Hwf Hnum].
    pose proof (add_texts_well_formed f
                  ((λ d, (page_content d, metadata d)) <$> batch) batch_ids Hwf Hnum) as H'.
    unfold Faiss.add_documents.
    destruct (Faiss.add_texts embed _ batch_ids f) as [[x|e] f'].
    + apply IH, kept_well_logger. by intros ? [= <-].
    + by intros ? [= <-].
  - pose proof (add_texts_well_formed Faiss.empty_store
                  ((λ d, (page_content d, metadata d)) <$> batch) batch_ids
                  (proj1 empty_store_well_formed) (proj2 empty_store_well_formed)) as H'.
    unfold Faiss.from_documents, Faiss.add_documents.
    destruct (Faiss.add_texts embed _ batch_ids Faiss.empty_store) as [[x|e] f'].
    + apply IH, kept_well_logger. by intros ? [= <-].
    + done.
Qed.

(** The operations of the manager keep its store well formed and numbered. *)
Lemma add_documents_kept_well documents batch_size ids (s : Store.VS Vector) :
  Store.kept_well s ->
  Store.kept_well
    (Store.add_documents embed uuid4 FAISS_INDEX_PATH documents batch_size ids s).2.
Proof.
  intros H. unfold Store.add_documents.
  destruct documents as [|doc documents]; [done|].
  set (docs := doc :: documents).
  assert (Store.kept_well
            (match ids with
             | None => Store.generate_ids uuid4 docs s
             | Some l => (l, s)
             end).2) as H1.
  { destruct ids; [done|]. by apply kept_well_generate_ids. }
  destruct (match ids with None => _ | Some l => _ end) as [ids' s1]. cbn [snd] in H1.
  destruct (negb _); [done|]. case_bool_decide; [done|].
  set (s3 := Store.logger INFO _ _).
  assert (Store.kept_well s3) as H3 by by apply kept_well_logger, kept_well_log_batches.
  pose proof (kept_well_add_batches
                (length (Loader.batch_process_documents batch_size docs)) 0
                (zip (Loader.batch_process_documents batch_size docs)
                     (Store.slices batch_size ids')) s3 H3) as H4.
  destruct (Store.add_batches embed _ 0 _ s3) as [[x|e] s4]; [|done].
  cbn [snd] in H4. by destruct (Store.vector_store s4).
Qed.

Lemma clear_kept_well (s : Store.VS Vector) :
  Store.kept_well s -> Store.kept_well (Store.clear s).2.
Proof.
  intros H. unfold Store.clear. destruct (Store.vector_store s) as [f|] eqn:Hf.
  - cbn. intros ? [= <-]. apply empty_store_well_formed.
  - done.
Qed.

Lemma delete_by_source_kept_well doc_id (s : Store.VS Vector) :
  Store.kept_well s ->
  Store.kept_well (Store.delete_by_source FAISS_INDEX_PATH doc_id s).2.
Proof.
  intros H. unfold Store.delete_by_source.
  case_decide; [done|].
  destruct (Store.vector_store s) as [f|] eqn:Hf;
    [|intros f' Hf'; cbn in Hf'; congruence].
  destruct (H f Hf) as [Hwf Hnum].
  set (ids := filter _ _).
  destruct ids as [|id0 rest] eqn:Hids; [by intros ? ?; apply H|].
  pose proof (delete_selected_well_formed f
                (λ id_, startswith id_ (doc_id +:+ "_") = true) Hwf) as Hdel.
  cbv zeta in Hdel. fold ids in Hdel. rewrite Hids in Hdel. specialize (Hdel ltac:(done)).
  unfold Store.delete_then_save. cbn [Store.vector_store Store.logger]. rewrite Hf.
  destruct (Faiss.delete (id0 :: rest) f) as [[x|e] f']; cbn; by intros ? [= <-].
Qed.

End WithEmbeddings.
End InvariantFacts.

(** ** Clearing the index, against creating it *)
Module ClearFacts.
Import Py LangChain FaissFacts InvariantFacts.
Import Faiss (IntDict, values, dict_set, dict_update_from, shift).

Lemma length_shift (d : IntDict) : length (shift d) = length d.
Proof. apply length_fmap. Qed.

Lemma dict_set_shift (k : nat) (v : string) (d : IntDict) :
  dict_set (S k) v (shift d) = shift (dict_set k v d).
Proof.
  induction d as [|[k' v'] d IH]; [done|].
  unfold shift in *. cbn [fmap list_fmap dict_set fst snd].
  destruct (decide (k = k')) as [->|Hne].
  - by rewrite !decide_True.
  - rewrite !decide_False by congruence. cbn [fmap list_fmap fst snd]. by rewrite IH.
Qed.

Lemma dict_update_from_shift (u : string) (n : nat) (ids : list string) (d : IntDict) :
  dict_update_from (S n) ids ((0, u) :: shift d)
  = (0, u) :: shift (dict_update_from n ids d).
Proof.
  revert n d. induction ids as [|id_ ids IH]; intros n d; [done|].
  cbn [dict_update_from dict_set]. rewrite decide_False by done.
  by rewrite dict_set_shift, IH.
Qed.

Lemma foldl_insert_commute (u : string) (d0 : Document)
    (docs : list (string * Document)) (m : gmap string Document) :
  u ∉ docs.*1 ->
  foldl (λ m p, <[p.1 := p.2]> m) (<[u := d0]> m) docs
  = <[u := d0]> (foldl (λ m p, <[p.1 := p.2]> m) m docs).
Proof.
  revert m. induction docs as [|[k v] docs IH]; intros m Hu; [done|].
  cbn [fmap list_fmap fst] in Hu. apply not_elem_of_cons in Hu as [Hne Hu].
  cbn [foldl fst snd]. rewrite insert_insert_ne by done. by apply IH.
Qed.

Lemma zip_fst_subseteq {A B} (l : list A) (k : list B) : (zip l k).*1 ⊆ l.
Proof.
  revert k. induction l as [|x l IH]; intros [|y k]; cbn.
  - done.
  - done.
  - apply list_subseteq_nil.
  - intros z [->|Hz]%elem_of_cons; [left|right]. by apply (IH k).
Qed.

Section WithEnvironment.

Variable Vector : Type.
Variable embed : string -> Vector.
Variable uuid4 : nat -> string.
Variable FAISS_INDEX_PATH : string.

Local Abbreviation sentinel_ahead := (Store.sentinel_ahead embed).

(** One library call keeps the two stores one placeholder apart. *)
Lemma add_texts_sentinel_ahead (u : string) (fc fs : Faiss.FAISS Vector)
    (texts : list (string * gmap string string)) (ids : list string) :
  sentinel_ahead u fc fs ->
  u ∉ ids ->
  (Faiss.add_texts embed texts ids fs).1 = (Faiss.add_texts embed texts ids fc).1 ∧
  sentinel_ahead u (Faiss.add_texts embed texts ids fc).2
                   (Faiss.add_texts embed texts ids fs).2.
Proof.
  intros (Hindex & Hdocs & Hmap) Hu. unfold Faiss.add_texts.
  destruct (negb (bool_decide (length texts = length ids))); [done|].
  destruct (Faiss.has_duplicates ids); [done|].
  set (new_docs := zip ids _).
  assert (u ∉ new_docs.*1) as Hu'.
  { intros Hin. apply Hu. by eapply zip_fst_subseteq. }
  assert (bool_decide (Exists (λ id_, is_Some (Faiss.docstore fs !! id_)) new_docs.*1)
          = bool_decide (Exists (λ id_, is_Some (Faiss.docstore fc !! id_)) new_docs.*1))
    as ->.
  { apply bool_decide_ext. rewrite !Exists_exists.
    split; intros (x & Hx & Hsome); exists x; (split; [done|]).
    - rewrite Hdocs, lookup_insert_ne in Hsome; [done|]. by intros ->.
    - rewrite Hdocs, lookup_insert_ne; [done|]. by intros ->. }
  case_bool_decide.
  - split; [done|]. repeat split; cbn [Faiss.index Faiss.docstore Faiss.index_to_docstore_id];
      [by rewrite Hindex|done|done].
  - split; [done|]. repeat split; cbn [Faiss.index Faiss.docstore Faiss.index_to_docstore_id].
    + by rewrite Hindex.
    + rewrite Hdocs. by apply foldl_insert_commute.
    + rewrite Hmap. cbn [length]. rewrite length_shift.
      apply dict_update_from_shift.
Qed.

Local Abbreviation one_apart := (Store.one_apart embed).

Lemma one_apart_logger u lv1 msg1 lv2 msg2 (sc ss : Store.VS Vector) :
  one_apart u sc ss -> one_apart u (Store.logger lv1 msg1 sc) (Store.logger lv2 msg2 ss).
Proof. done. Qed.

Lemma one_apart_log_batches u n1 n2 bs (sc ss : Store.VS Vector) :
  one_apart u sc ss -> one_apart u (Store.log_batches n1 bs sc) (Store.log_batches n2 bs ss).
Proof.
  revert n1 n2 sc ss. induction bs as [|b bs IH]; intros n1 n2 sc ss H; [done|].
  cbn [Store.log_batches]. by apply IH, one_apart_logger.
Qed.

(** Two managers that draw the same UUIDs generate the same ids. *)
Lemma generate_ids_same_draws (uuid4' : nat -> string) u documents
    (sc ss : Store.VS Vector) :
  one_apart u sc ss ->
  (∀ i, i < length documents ->
     uuid4' (Store.uuids_drawn ss + i) = uuid4 (Store.uuids_drawn sc + i)) ->
  (Store.generate_ids uuid4' documents ss).1 = (Store.generate_ids uuid4 documents sc).1 ∧
  one_apart u (Store.generate_ids uuid4 documents sc).2
              (Store.generate_ids uuid4' documents ss).2.
Proof.
  revert sc ss. induction documents as [|doc documents IH]; intros sc ss H Hdraw; [done|].
  cbn [Store.generate_ids]. unfold Store.draw_uuid.
  destruct H as (fc & fs & Hc & Hs & Hrel).
  set (sc1 := Store.mkVS _ _ _ (Store.log sc)).
  set (ss1 := Store.mkVS _ _ _ (Store.log ss)).
  assert (one_apart u sc1 ss1) as H1 by (by exists fc, fs).
  destruct (IH sc1 ss1 H1) as [Hids Hrel'].
  { intros i Hi. subst sc1 ss1. cbn [Store.uuids_drawn].
    specialize (Hdraw (S i)). cbn [length] in Hdraw.
    rewrite !Nat.add_succ_r in Hdraw. apply Hdraw. lia. }
  destruct (Store.generate_ids uuid4 documents sc1) as [idsc sc2].
  destruct (Store.generate_ids uuid4' documents ss1) as [idss ss2].
  cbn [fst snd] in *.
  pose proof (Hdraw 0 ltac:(cbn [length]; lia)) as H0. rewrite !Nat.add_0_r in H0.
  by rewrite H0, Hids.
Qed.

Lemma add_batches_one_apart u total i work (sc ss : Store.VS Vector) :
  one_apart u sc ss ->
  Forall (λ w : list Document * list string, u ∉ w.2) work ->
  (Store.add_batches embed total i work ss).1
  = (Store.add_batches embed total i work sc).1 ∧
  one_apart u (Store.add_batches embed total i work sc).2
              (Store.add_batches embed total i work ss).2.
Proof.
  revert i sc ss. induction work as [|[batch batch_ids] work IH];
    intros i sc ss H Hu; [done|].
  apply Forall_cons in Hu as [Hu Hwork]. cbn [snd] in Hu.
  destruct H as (fc & fs & Hc & Hs & Hrel).
  cbn [Store.add_batches]. rewrite Hc, Hs. unfold Faiss.add_documents.
  destruct (add_texts_sentinel_ahead u fc fs
              ((λ d, (page_content d, metadata d)) <$> batch) batch_ids Hrel Hu)
    as [Hr Hrel'].
  destruct (Faiss.add_texts embed _ batch_ids fc) as [rc fc'].
  destruct (Faiss.add_texts embed _ batch_ids fs) as [rs fs'].
  cbn [fst snd] in Hr, Hrel'. subst rs.
  destruct rc as [x|e].
  - apply IH; [|done]. apply one_apart_logger. by exists fc', fs'.
  - split; [done|]. by exists fc', fs'.
Qed.

Lemma batches_fuel_subseteq {A} (fuel n : nat) (l b : list A) :
  b ∈ Loader.batches_fuel fuel n l -> b ⊆ l.
Proof.
  revert l. induction fuel as [|fuel IH]; intros l.
  - destruct l; cbn; by intros ?%elem_of_nil.
  - destruct l as [|x l]; [by intros ?%elem_of_nil|].
    cbn [Loader.batches_fuel]. intros [->|Hin]%elem_of_cons.
    + apply subseteq_take.
    + transitivity (drop n (x :: l)); [by apply IH|apply subseteq_drop].
Qed.

Lemma Forall_zip_snd {A B} (P : B -> Prop) (a : list A) (b : list B) :
  Forall P b -> Forall (λ w, P w.2) (zip a b).
Proof.
  intros Hb. revert a. induction Hb as [|y b Hy Hb IH]; intros [|x a]; cbn; try done.
  constructor; [done|apply IH].
Qed.

(** The same [add_documents] call on two managers one placeholder apart,
    with the same ids (passed, or generated from the same UUID draws), none
    of them the placeholder's: same outcome, and the stores are one
    placeholder apart afterwards. *)
Lemma add_documents_one_apart (uuid4' : nat -> string) u documents batch_size ids
    (sc ss : Store.VS Vector) :
  one_apart u sc ss ->
  (ids = None -> ∀ i, i < length documents ->
     uuid4' (Store.uuids_drawn ss + i) = uuid4 (Store.uuids_drawn sc + i)) ->
  u ∉ Store.ids_used uuid4 documents ids sc ->
  let '(rc, sc') := Store.add_documents embed uuid4 FAISS_INDEX_PATH
                      documents batch_size ids sc in
  let '(rs, ss') := Store.add_documents embed uuid4' FAISS_INDEX_PATH
                      documents batch_size ids ss in
  rs = rc ∧ one_apart u sc' ss' ∧
  (rc = Ok true ->
   Some (Store.disk sc') = Store.Saved <$> Store.vector_store sc' ∧
   Some (Store.disk ss') = Store.Saved <$> Store.vector_store ss').
Proof.
  intros H Hdraw Hu. unfold Store.add_documents.
  destruct documents as [|doc documents].
  { split; [done|]. split; [by apply one_apart_logger|done]. }
  set (docs := doc :: documents) in *.
  assert (∃ ids' sc1 ss1,
            (match ids with None => Store.generate_ids uuid4 docs sc | Some l => (l, sc) end)
              = (ids', sc1) ∧
            (match ids with None => Store.generate_ids uuid4' docs ss | Some l => (l, ss) end)
              = (ids', ss1) ∧
            one_apart u sc1 ss1 ∧ u ∉ ids') as (ids' & sc1 & ss1 & -> & -> & H1 & Hu').
  { destruct ids as [l|]; [by exists l, sc, ss|].
    destruct (generate_ids_same_draws uuid4' u docs sc ss H (Hdraw eq_refl)) as [Hids Hrel].
    unfold Store.ids_used in Hu.
    destruct (Store.generate_ids uuid4 docs sc) as [idsc sc1].
    destruct (Store.generate_ids uuid4' docs ss) as [idss ss1].
    cbn [fst snd] in *. subst idss. by exists idsc, sc1, ss1. }
  destruct (negb (bool_decide (length docs = length ids'))).
  { split; [done|]. split; [by apply one_apart_logger|done]. }
  case_bool_decide.
  { by split. }
  set (batches := Loader.batch_process_documents batch_size docs).
  set (work := zip batches (Store.slices batch_size ids')).
  set (sc3 := Store.logger INFO _ (Store.log_batches 0 batches sc1)).
  set (ss3 := Store.logger INFO _ (Store.log_batches 0 batches ss1)).
  assert (one_apart u sc3 ss3) as H3 by by apply one_apart_logger, one_apart_log_batches.
  assert (Forall (λ w : list Document * list string, u ∉ w.2) work) as Hwork.
  { subst work. apply (Forall_zip_snd (λ b, u ∉ b)), Forall_forall. intros b Hb Hin.
    apply Hu'. by eapply batches_fuel_subseteq. }
  destruct (add_batches_one_apart u (length batches) 0 work sc3 ss3 H3 Hwork) as [Hr H4].
  destruct (Store.add_batches embed (length batches) 0 work sc3) as [rc sc4].
  destruct (Store.add_batches embed (length batches) 0 work ss3) as [rs ss4].
  cbn [fst snd] in Hr, H4. subst rs.
  destruct rc as [x|e]; [|by split].
  destruct H4 as (fc & fs & Hc & Hs & Hrel). rewrite Hc, Hs.
  split; [done|]. split; [by exists fc, fs|].
  intros _. cbn. by rewrite Hc, Hs.
Qed.

(** A batch run over a store that has a document under [u] raises when
    [u] is among the ids: either an earlier batch is refused, or the batch
    that holds [u] is. *)
Lemma add_batches_refuses_known_id (u : string) (total fuel n : nat) :
  1 ≤ n ->
  ∀ (i : nat) (docs : list Document) (ids : list string)
    (s : Store.VS Vector) (f : Faiss.FAISS Vector),
    length docs = length ids -> length docs ≤ fuel ->
    Store.vector_store s = Some f -> is_Some (Faiss.docstore f !! u) -> u ∈ ids ->
    ∃ e, (Store.add_batches embed total i
            (zip (Loader.batches_fuel fuel n docs) (Loader.batches_fuel fuel n ids)) s).1
         = Raise e.
Proof.
  intros Hn. induction fuel as [|fuel IH]; intros i docs ids s f Hlen Hfuel Hs Hu Hin.
  - destruct docs; [|cbn in Hfuel; lia]. destruct ids; [|done].
    by apply elem_of_nil in Hin.
  - destruct docs as [|x l]; destruct ids as [|y k]; try done.
    { by apply elem_of_nil in Hin. }
    cbn [Loader.batches_fuel].
    set (r1 := Loader.batches_fuel fuel n (drop n (x :: l))).
    set (r2 := Loader.batches_fuel fuel n (drop n (y :: k))).
    change (zip (take n (x :: l) :: r1) (take n (y :: k) :: r2))
      with ((take n (x :: l), take n (y :: k)) :: zip r1 r2).
    cbn [Store.add_batches]. rewrite Hs.
    unfold Faiss.add_documents, Faiss.add_texts.
    assert (length ((λ d, (page_content d, metadata d)) <$> take n (x :: l))
            = length (take n (y :: k))) as Hbatch.
    { by rewrite length_fmap, !length_take, Hlen. }
    rewrite (bool_decide_eq_true_2 _ Hbatch). cbn [negb].
    destruct (Faiss.has_duplicates (take n (y :: k))); [by eexists|].
    set (new_docs := zip (take n (y :: k)) _).
    assert (new_docs.*1 = take n (y :: k)) as Hfst.
    { subst new_docs. apply zip_fst_same_length. by rewrite length_fmap. }
    case_bool_decide as Hex; [by eexists|].
    assert (u ∉ take n (y :: k)) as Hout.
    { intros Hin'. apply Hex, Exists_exists. exists u. by rewrite Hfst. }
    assert (u ∈ drop n (y :: k)) as Hrest.
    { rewrite <- (take_drop n (y :: k)) in Hin.
      by apply elem_of_app in Hin as [?|?]. }
    subst r1 r2.
    eapply (IH (S i) (drop n (x :: l)) (drop n (y :: k))); try done.
    + by rewrite !length_drop, Hlen.
    + rewrite length_drop. cbn [length] in *. lia.
    + cbn [Faiss.docstore]. apply lookup_foldl_insert. by left.
Qed.

Lemma generate_ids_store (draw : nat -> string) documents (s : Store.VS Vector) :
  Store.vector_store (Store.generate_ids draw documents s).2 = Store.vector_store s.
Proof.
  revert s. induction documents as [|doc documents IH]; intros s; [done|].
  cbn [Store.generate_ids]. unfold Store.draw_uuid.
  set (s1 := Store.mkVS _ _ _ _). specialize (IH s1).
  by destruct (Store.generate_ids draw documents s1) as [l s2].
Qed.

Lemma log_batches_store n bs (s : Store.VS Vector) :
  Store.vector_store (Store.log_batches n bs s) = Store.vector_store s.
Proof.
  revert n s. induction bs as [|b bs IH]; intros n s; [done|].
  cbn [Store.log_batches]. by rewrite IH.
Qed.

(** [add_documents] with an id under which the store has a document
    raises. *)
Lemma add_documents_refuses_known_id (draw : nat -> string) u documents batch_size ids
    (s : Store.VS Vector) (f : Faiss.FAISS Vector) :
  Store.vector_store s = Some f -> is_Some (Faiss.docstore f !! u) ->
  documents ≠ [] ->
  u ∈ Store.ids_used draw documents ids s ->
  ∃ e, (Store.add_documents embed draw FAISS_INDEX_PATH documents batch_size ids s).1
       = Raise e.
Proof.
  intros Hs Hu Hdocs Hin. unfold Store.add_documents.
  destruct documents as [|doc documents]; [done|].
  set (docs := doc :: documents) in *.
  assert (∃ ids' s1,
            (match ids with None => Store.generate_ids draw docs s | Some l => (l, s) end)
              = (ids', s1) ∧
            Store.vector_store s1 = Some f ∧ u ∈ ids') as (ids' & s1 & -> & Hs1 & Hin').
  { destruct ids as [l|]; [by exists l, s|]. unfold Store.ids_used in Hin.
    pose proof (generate_ids_store draw docs s) as Hkeep.
    destruct (Store.generate_ids draw docs s) as [l s1]. cbn [fst snd] in *.
    exists l, s1. by rewrite Hkeep. }
  case_bool_decide as Hlen; cbn [negb]; [|by eexists].
  case_bool_decide as Hbs; [by eexists|].
  unfold Loader.batch_process_documents, Store.slices. rewrite <- Hlen.
  set (s3 := Store.logger INFO _ _).
  destruct (add_batches_refuses_known_id u
              (length (Loader.batches_fuel (length docs) batch_size docs))
              (length docs) batch_size ltac:(lia) 0 docs ids' s3 f Hlen ltac:(done))
    as [e He]; try done.
  { subst s3. cbn [Store.logger Store.vector_store]. by rewrite log_batches_store. }
  destruct (Store.add_batches _ _ _ _ s3) as [r s4]. cbn [fst] in He. subst r.
  by eexists.
Qed.

Lemma from_text_sentinel_ahead (u : string) :
  sentinel_ahead u Faiss.empty_store (Faiss.from_text embed Store.SENTINEL_TEXT u).
Proof.
  unfold Faiss.from_text, Faiss.add_texts, Faiss.has_duplicates.
  rewrite (bool_decide_eq_true_2 (NoDup [u])) by apply NoDup_singleton.
  cbn [length bool_decide negb fst snd zip zip_with fmap list_fmap decide_rel].
  rewrite bool_decide_eq_true_2 by done. cbn [negb].
  rewrite bool_decide_eq_false_2; last first.
  { intros [x [Hx [d Hd]]]%Exists_exists.
    unfold Faiss.empty_store in Hd. cbn [Faiss.docstore] in Hd.
    by rewrite lookup_empty in Hd. }
  done.
Qed.

Lemma init_new (draw : nat -> string) (n : nat) (log : Log) :
  let fresh := Store.init embed draw FAISS_INDEX_PATH Store.NoIndex n log in
  Store.vector_store fresh = Some (Faiss.from_text embed Store.SENTINEL_TEXT (draw n)) ∧
  Store.disk fresh = Store.Saved (Faiss.from_text embed Store.SENTINEL_TEXT (draw n)) ∧
  Store.uuids_drawn fresh = S n.
Proof. done. Qed.

(** C1, amended.  [clear] succeeds and leaves an index with no entry at
    all, an empty id mapping and an empty docstore, and saves that state.
    This is not the state a first-time [_load_or_create_vector_store]
    leaves: there the placeholder document occupies position 0 under the
    UUID drawn for it.  Take the same [add_documents] call on the cleared
    manager and on a newly created one, with the same ids: passed, or
    generated from the same UUID draws.  When none of the ids is the
    placeholder's, the two calls have the same outcome, where they save
    they save their own store, and afterwards the two stores still differ
    by exactly the placeholder entry: the new one has its vector first,
    its document in the docstore, and every added id one position higher.
    When one of the ids is the placeholder's, the call on the new manager
    raises, whatever the call on the cleared manager does. *)
Theorem clear_leaves_no_sentinel (s : Store.VS Vector) (f : Faiss.FAISS Vector)
    (uuid4' : nat -> string) (n : nat) (log : Log)
    (documents : list Document) (batch_size : nat) (ids : option (list string)) :
  Store.vector_store s = Some f ->
  (ids = None -> ∀ i, i < length documents ->
     uuid4' (S n + i) = uuid4 (Store.uuids_drawn s + i)) ->
  let '(r, s') := Store.clear s in
  let fresh := Store.init embed uuid4' FAISS_INDEX_PATH Store.NoIndex n log in
  let u := uuid4' n in
  let '(rc, sc) := Store.add_documents embed uuid4 FAISS_INDEX_PATH
                     documents batch_size ids s' in
  let '(rf, sf) := Store.add_documents embed uuid4' FAISS_INDEX_PATH
                     documents batch_size ids fresh in
  r = Ok () ∧
  Store.vector_store s' = Some Faiss.empty_store ∧
  Store.disk s' = Store.Saved Faiss.empty_store ∧
  Store.vector_store fresh = Some (Faiss.from_text embed Store.SENTINEL_TEXT u) ∧
  (u ∉ Store.ids_used uuid4 documents ids s' ->
   rf = rc ∧ one_apart u sc sf ∧
   (rc = Ok true ->
    Some (Store.disk sc) = Store.Saved <$> Store.vector_store sc ∧
    Some (Store.disk sf) = Store.Saved <$> Store.vector_store sf)) ∧
  (u ∈ Store.ids_used uuid4 documents ids s' -> documents ≠ [] -> ∃ e, rf = Raise e).
Proof.
  intros Hf Hdraw. unfold Store.clear. rewrite Hf.
  set (s' := Store.logger _ _ _).
  set (fresh := Store.init embed uuid4' FAISS_INDEX_PATH Store.NoIndex n log).
  set (u := uuid4' n).
  assert (one_apart u s' fresh) as Hrel.
  { exists Faiss.empty_store, (Faiss.from_text embed Store.SENTINEL_TEXT u).
    split; [done|]. split; [done|]. apply from_text_sentinel_ahead. }
  assert (ids = None -> ∀ i, i < length documents ->
            uuid4' (Store.uuids_drawn fresh + i) = uuid4 (Store.uuids_drawn s' + i))
    as Hdraw' by done.
  pose proof (add_documents_one_apart uuid4' u documents batch_size ids s' fresh Hrel Hdraw')
    as Hsame.
  pose proof (add_documents_refuses_known_id uuid4' u documents batch_size ids fresh
                (Faiss.from_text embed Store.SENTINEL_TEXT u) eq_refl) as Hrefuse.
  assert (Store.ids_used uuid4' documents ids fresh = Store.ids_used uuid4 documents ids s')
    as Hused.
  { unfold Store.ids_used. destruct ids as [l|]; [done|].
    by destruct (generate_ids_same_draws uuid4' u documents s' fresh Hrel (Hdraw' eq_refl)). }
  rewrite Hused in Hrefuse.
  destruct (Store.add_documents embed uuid4 FAISS_INDEX_PATH documents batch_size ids s')
    as [rc sc].
  destruct (Store.add_documents embed uuid4' FAISS_INDEX_PATH documents batch_size ids fresh)
    as [rf sf].
  split; [done|]. split; [done|]. split; [done|]. split; [done|]. split.
  - intros Hu. by apply Hsame.
  - intros Hu Hdocs. apply Hrefuse; [|done|done].
    destruct (from_text_sentinel_ahead u) as (_ & -> & _).
    by rewrite lookup_insert_eq.
Qed.

End WithEnvironment.

Import Sample.

(** C1 as stated fails: after [clear] the index holds no vector and the
    mapping no id, while a newly created store holds the placeholder; and
    the same [add_documents] call then puts its id at position 0 in the one
    and at position 1 in the other. *)
Lemma cleared_store_is_not_the_new_store :
  let cleared := (Store.clear vs_docs).2 in
  let add := Store.add_documents embed uuid4 FAISS_INDEX_PATH
               [chunk "manual.pdf" "one"] 10 (Some ["manual.pdf_1"]) in
  Faiss.index <$> Store.vector_store cleared = Some [] ∧
  Faiss.index <$> Store.vector_store vs0 = Some [embed Store.SENTINEL_TEXT] ∧
  Faiss.index_to_docstore_id <$> Store.vector_store cleared = Some [] ∧
  Faiss.index_to_docstore_id <$> Store.vector_store vs0
  = Some [(0, "00000000-0000-4000-8000-0")] ∧
  Faiss.index_to_docstore_id <$> Store.vector_store (add cleared).2
  = Some [(0, "manual.pdf_1")] ∧
  Faiss.index_to_docstore_id <$> Store.vector_store (add vs0).2
  = Some [(0, "00000000-0000-4000-8000-0"); (1, "manual.pdf_1")].
Proof. vm_compute. by repeat split. Qed.

(** The UUIDs of a new process whose first draw, for the placeholder, is
    its own, and whose next draws are those of the sample process. *)
Local Abbreviation uuid4_new :=
  (λ k : nat, match k with
              | 0 => "11111111-1111-4111-8111-111111111111"
              | S k => uuid4 k
              end).

(** A manager that loaded the saved sample index and has drawn no UUID. *)
Local Abbreviation vs_loaded :=
  (Store.init embed uuid4 FAISS_INDEX_PATH (Store.disk vs_docs) 0 []).

Lemma clear_leaves_no_sentinel_witness :
  let cleared := (Store.clear vs_loaded).2 in
  let new := Store.init embed uuid4_new FAISS_INDEX_PATH Store.NoIndex 0 [] in
  let '(rc, sc) := Store.add_documents embed uuid4 FAISS_INDEX_PATH
                     [chunk "manual.pdf" "one"] 10 None cleared in
  let '(rf, sf) := Store.add_documents embed uuid4_new FAISS_INDEX_PATH
                     [chunk "manual.pdf" "one"] 10 None new in
  Store.vector_store cleared = Some Faiss.empty_store ∧
  Store.disk cleared = Store.Saved Faiss.empty_store ∧
  rf = rc ∧
  Store.one_apart embed "11111111-1111-4111-8111-111111111111" sc sf.
Proof.
  set (f := default Faiss.empty_store (Store.vector_store vs_loaded)).
  assert (Store.vector_store vs_loaded = Some f) as Hf by by vm_compute.
  assert (@None (list string) = None -> ∀ i, i < length [chunk "manual.pdf" "one"] ->
            uuid4_new (S 0 + i) = uuid4 (Store.uuids_drawn vs_loaded + i)) as Hdraw by done.
  pose proof (clear_leaves_no_sentinel Vector embed uuid4 FAISS_INDEX_PATH vs_loaded f
                uuid4_new 0 [] [chunk "manual.pdf" "one"] 10 None Hf Hdraw) as H.
  assert ("11111111-1111-4111-8111-111111111111"
            ∉ Store.ids_used uuid4 [chunk "manual.pdf" "one"] None (Store.clear vs_loaded).2)
    as Hout.
  { apply (bool_decide_unpack _). by vm_compute. }
  destruct (Store.clear vs_loaded) as [r s']. cbv zeta in H |- *. cbn [snd] in Hout |- *.
  destruct (Store.add_documents embed uuid4 FAISS_INDEX_PATH _ 10 None s') as [rc sc].
  destruct (Store.add_documents embed uuid4_new FAISS_INDEX_PATH _ 10 None _) as [rf sf].
  destruct H as (_ & Hstore & Hdisk & _ & Hsame & _).
  split; [exact Hstore|]. split; [exact Hdisk|].
  destruct (Hsame Hout) as (Hr & Hrel & _). by split.
Defined.

(** An add call that passes the id of the placeholder: accepted by the
    cleared manager, refused by a new one. *)
Lemma placeholder_id_is_refused_by_the_new_store_only :
  let cleared := (Store.clear vs_docs).2 in
  let add := Store.add_documents embed uuid4 FAISS_INDEX_PATH
               [chunk "manual.pdf" "one"] 10 (Some ["00000000-0000-4000-8000-0"]) in
  (add cleared).1 = Ok true ∧
  (add vs0).1 = Raise (ValueError "Tried to add ids that already exist").
Proof. vm_compute. by split. Qed.

End ClearFacts.

(** ** Ingestion through the chain *)
Module ChainFacts.
Import Py LangChain Loader PyFacts LoaderFacts.

Section WithServices.

Variable DOCUMENTS_DIR PROCESSED_DOCS_RECORD FAISS_INDEX_PATH : string.
Variable loader_load : LoaderClass -> string -> Bytes -> Result (list Document).
Variable split_documents : list Document -> list Document.
Variable Vector : Type.
Variable embed : string -> Vector.
Variable uuid4 : nat -> string.

Local Abbreviation add_documents :=
  (Chain.add_documents DOCUMENTS_DIR FAISS_INDEX_PATH loader_load split_documents
     embed uuid4).
Local Abbreviation _process_file := (_process_file DOCUMENTS_DIR loader_load split_documents).

Lemma add_documents_loader (f : UploadedFile) (s : Chain.Services Vector) :
  Chain.document_loader (add_documents f s).2
  = (_process_file f true (Chain.document_loader s)).2.
Proof.
  unfold Chain.add_documents.
  destruct (Loader._process_file _ _ _ f true _) as [[|d chunks] w]; [done|].
  by destruct (Store.add_documents _ _ _ _ _ _ _) as [[?|?] ?].
Qed.

Lemma add_documents_skip (f : UploadedFile) (s : Chain.Services Vector) :
  _is_document_processed (name f) (Chain.document_loader s) = true ->
  add_documents f s
  = (Ok (Some ("Skipping already processed file:  " +:+ name f +:+ " ")),
     Chain.mkServices
       (logger INFO ("Skipping already processed file: " +:+ name f)
          (Chain.document_loader s))
       (Chain.faiss_store s)
       (Chain.log s ++
          [(WARNING, "⚠️ File " +:+ name f +:+
                     " did not generate any document chunks after processing")])).
Proof.
  intros H. unfold Chain.add_documents.
  by rewrite (process_file_skip DOCUMENTS_DIR loader_load split_documents f _ H).
Qed.

(** C3, amended.  For an upload whose extension has no loader and whose
    name is not on record, ingestion first writes the copy into the
    documents directory; [load_document] then raises its ValueError, which
    [_process_file] logs as an error and swallows.  No chunk is produced,
    the vector store and the record of processed documents are unchanged,
    and the caller gets the skip message (not an error). *)
Theorem unsupported_extension_is_saved_then_refused (file : UploadedFile)
    (s : Chain.Services Vector) :
  dict_get (lower (suffix (name file))) SUPPORTED_LOADERS = None ->
  _is_document_processed (name file) (Chain.document_loader s) = false ->
  let '(r, s') := add_documents file s in
  (_process_file file true (Chain.document_loader s)).1 = [] ∧
  r = Ok (Some ("Skipping already processed file:  " +:+ name file +:+ " ")) ∧
  Chain.faiss_store s' = Chain.faiss_store s ∧
  record_file (Chain.document_loader s') = record_file (Chain.document_loader s) ∧
  documents_dir (Chain.document_loader s')
  = <[name file := getbuffer file]> (documents_dir (Chain.document_loader s)) ∧
  last (Loader.log (Chain.document_loader s'))
  = Some (ERROR, "  ✗ Failed: Unsupported file type: " +:+ lower (suffix (name file)) +:+
                 ", supported types: " +:+ supported_keys_repr).
Proof.
  intros Hsuffix Hnew. unfold Chain.add_documents, Loader._process_file.
  rewrite Hnew, andb_false_r.
  rewrite (load_document_unsupported DOCUMENTS_DIR loader_load split_documents _ _ Hsuffix).
  cbn [fst snd Chain.document_loader Chain.faiss_store].
  repeat split. cbn [Loader.log logger]. by rewrite last_snoc.
Qed.

(** X26.  When the first ingestion of a file name was accepted by the
    parsers, the name contains no line boundary and the record of
    processed documents holds complete lines, a second ingestion under the
    same name (whatever its bytes) is skipped: it returns the skip message,
    logs the skip, and leaves the record, the saved copies and the vector
    store as the first ingestion left them. *)
Theorem second_ingestion_is_skipped (file1 file2 : UploadedFile)
    (s : Chain.Services Vector) :
  name file2 = name file1 ->
  single_line (name file1) = true ->
  record_in_lines (Chain.document_loader s) ->
  accepted DOCUMENTS_DIR loader_load file1 ->
  let s1 := (add_documents file1 s).2 in
  add_documents file2 s1
  = (Ok (Some ("Skipping already processed file:  " +:+ name file2 +:+ " ")),
     Chain.mkServices
       (logger INFO ("Skipping already processed file: " +:+ name file2)
          (Chain.document_loader s1))
       (Chain.faiss_store s1)
       (Chain.log s1 ++
          [(WARNING, "⚠️ File " +:+ name file2 +:+
                     " did not generate any document chunks after processing")])).
Proof.
  intros Hname Hline Hrec Hacc s1.
  apply add_documents_skip. subst s1.
  rewrite add_documents_loader, Hname.
  by apply process_file_records.
Qed.

End WithServices.

Import Sample.

Local Abbreviation sample_add_documents :=
  (Chain.add_documents DOCUMENTS_DIR FAISS_INDEX_PATH loader_load split_documents
     embed uuid4).

(** C3 as stated fails: ingesting report.exe leaves a copy of the upload in
    the documents directory, so a disk write has happened although the
    extension is not a supported one. *)
Lemma unsupported_extension_leaves_a_copy :
  let file := mkUpload "report.exe" [Byte.x4d; Byte.x5a] in
  dict_get (lower (suffix (name file))) SUPPORTED_LOADERS = None ∧
  documents_dir (Chain.document_loader services0) !! "report.exe" = None ∧
  documents_dir (Chain.document_loader (sample_add_documents file services0).2)
    !! "report.exe" = Some [Byte.x4d; Byte.x5a].
Proof. vm_compute. by repeat split. Qed.

Lemma unsupported_extension_is_saved_then_refused_witness :
  let file := mkUpload "report.exe" [Byte.x4d; Byte.x5a] in
  let '(r, s') := sample_add_documents file services0 in
  r = Ok (Some "Skipping already processed file:  report.exe ") ∧
  documents_dir (Chain.document_loader s') = {["report.exe" := [Byte.x4d; Byte.x5a]]}.
Proof.
  pose proof (unsupported_extension_is_saved_then_refused
                DOCUMENTS_DIR FAISS_INDEX_PATH loader_load split_documents
                Vector embed uuid4
                (mkUpload "report.exe" [Byte.x4d; Byte.x5a]) services0
                eq_refl eq_refl) as H.
  cbv zeta. destruct (sample_add_documents _ services0) as [r s'].
  destruct H as (_ & Hr & _ & _ & Hdir & _).
  split; [exact Hr|]. rewrite Hdir. reflexivity.
Defined.

(** C9 (the code breaks the claim).  Upload a.txt and b.txt, delete a.txt,
    then upload c.txt twice.  The delete rewrites the record without a
    final newline, so the first c.txt is appended to the line of b.txt:
    the record reads as the one name b.txtc.txt, c.txt is not on it, and
    the second c.txt is not skipped.  It returns no skip message, is
    chunked again, and the index holds the chunk of c.txt twice. *)
Theorem second_ingestion_after_a_delete_is_indexed_again :
  let a := mkUpload "a.txt" [Byte.x61] in
  let b := mkUpload "b.txt" [Byte.x62] in
  let c := mkUpload "c.txt" [Byte.x63] in
  let s2 := (sample_add_documents b (sample_add_documents a services0).2).2 in
  let s3 := Chain.delete_documents FAISS_INDEX_PATH "a.txt" s2 in
  let '(r4, s4) := sample_add_documents c s3 in
  let '(r5, s5) := sample_add_documents c s4 in
  record_file (Chain.document_loader s3) = Some "b.txt" ∧
  r4 = Ok None ∧
  record_file (Chain.document_loader s4) = Some ("b.txtc.txt" +:+ String LF "") ∧
  list_all_processed_documents (Chain.document_loader s4) = ["b.txtc.txt"] ∧
  _is_document_processed "c.txt" (Chain.document_loader s4) = false ∧
  r5 = Ok None ∧
  r5 ≠ Ok (Some "Skipping already processed file:  c.txt ") ∧
  Faiss.values <$> (Faiss.index_to_docstore_id <$> Store.vector_store (Chain.faiss_store s5))
  = Some [ "00000000-0000-4000-8000-0"; "b.txt_00000000-0000-4000-8000-2";
           "c.txt_00000000-0000-4000-8000-3"; "c.txt_00000000-0000-4000-8000-4" ].
Proof. vm_compute. by repeat split. Qed.

(** A first upload of notes.txt that the parser refuses (its bytes are not
    UTF-8) is not recorded, so a second upload under the same name is not
    skipped: it is chunked and indexed, and the call returns no skip
    message. *)
Lemma second_ingestion_after_refused_first_is_not_skipped :
  let file1 := mkUpload "notes.txt" [Byte.xff] in
  let file2 := mkUpload "notes.txt" [Byte.x68; Byte.x69] in
  let s1 := (sample_add_documents file1 services0).2 in
  (Loader._process_file DOCUMENTS_DIR loader_load split_documents file2 true
     (Chain.document_loader s1)).1 ≠ [] ∧
  (sample_add_documents file2 s1).1 = Ok None.
Proof. vm_compute. by split. Qed.

Lemma second_ingestion_is_skipped_witness :
  let file1 := mkUpload "notes.txt" [Byte.x68; Byte.x69] in
  let file2 := mkUpload "notes.txt" [Byte.x68; Byte.x6f] in
  let s1 := (sample_add_documents file1 services0).2 in
  (sample_add_documents file2 s1).1
  = Ok (Some "Skipping already processed file:  notes.txt ").
Proof.
  intros file1 file2 s1.
  assert (accepted DOCUMENTS_DIR loader_load file1) as Hacc.
  { exists TextLoader. eexists. split; reflexivity. }
  exact (f_equal fst
           (second_ingestion_is_skipped
              DOCUMENTS_DIR FAISS_INDEX_PATH loader_load split_documents
              Vector embed uuid4 file1 file2 services0
              eq_refl eq_refl I Hacc)).
Defined.

End ChainFacts.

(** ** The memory hooks *)
Module MemoryFacts.
Import Py LangChain Memory.

Lemma last_message_snoc (ms : list Message) (m : Message) :
  last_message (ms ++ [m]) = Some m.
Proof. apply last_snoc. Qed.

Lemma drop_last_snoc (ms : list Message) (m : Message) :
  drop_last (ms ++ [m]) = ms.
Proof. apply removelast_last. Qed.

(** The sanitizer on a state that has its messages as an attribute: when
    the history ends in an Assistant message carrying tool calls, the new
    history is the old one without its last message, whatever precedes it;
    otherwise nothing changes. *)
Lemma sanitizer_on_attributes (env : Env) (c : Ctx)
    (ms : list Message) (system : option string) (response : option Response) :
  state c = StateObj (Some ms) system response ->
  let '(r, c') := sanitize_dangling_tool_middleware env c in
  r = Ok () ∧
  match last_message ms with
  | Some m =>
      if dangling m
      then state c' = StateObj (Some (drop_last ms)) system response ∧
           ms = drop_last ms ++ [m] ∧
           length (drop_last ms) + 1 = length ms ∧
           runtime c' = runtime c ∧ chroma_store c' = chroma_store c
      else c' = c
  | None => c' = c
  end.
Proof.
  intros Hst. unfold sanitize_dangling_tool_middleware.
  rewrite Hst. cbn [getattr_messages].
  destruct (decide (ms = [])) as [->|Hne]; [done|].
  destruct (exists_last Hne) as (ms0 & m & ->).
  rewrite last_message_snoc.
  destruct m as [ct i|ct [|tc tcs] i|ct tci i|ct i|rl ct i]; cbn; try done.
  rewrite Hst. cbn. rewrite !drop_last_snoc. repeat split; try done.
  rewrite length_app. cbn. lia.
Qed.

Lemma sanitizer_keeps_empty_history (env : Env) (c : Ctx) :
  getattr_messages (state c) = [] ->
  sanitize_dangling_tool_middleware env c = (Ok (), c).
Proof. intros H. unfold sanitize_dangling_tool_middleware. by rewrite H. Qed.

(** On a dict, [getattr(state, "messages", [])] is the default: the three
    hooks that start from it return the dict as it is, whatever its items
    and whatever the long-term store would do. *)
Lemma sanitizer_ignores_dict_state (env : Env) (c : Ctx) (items : gmap string (list Message)) :
  state c = StateDict items ->
  sanitize_dangling_tool_middleware env c = (Ok (), c).
Proof. intros H. apply sanitizer_keeps_empty_history. by rewrite H. Qed.

Lemma retrieval_ignores_dict_state (env : Env) (c : Ctx) (items : gmap string (list Message)) :
  state c = StateDict items ->
  retrieve_similar_history_middleware env c = (Ok (), c).
Proof. intros H. unfold retrieve_similar_history_middleware. by rewrite H. Qed.

Section WithHash.
Variable md5_hexdigest : string -> string.

Local Abbreviation try_save := (try_save md5_hexdigest).
Local Abbreviation generate_msg_id := (generate_msg_id md5_hexdigest).

Lemma try_save_chroma (env : Env) (content role saved failed : string) (c : Ctx) :
  chroma_store (try_save env content role saved failed c)
  = match add_texts_raises env with
    | Some _ => chroma_store c
    | None => <[generate_msg_id content role := mkEntry content role (now_isoformat env)]>
                (chroma_store c)
    end.
Proof.
  unfold Memory.try_save, add_texts. by destruct (add_texts_raises env).
Qed.

(** Saving the same pair again and again: the entries of the other ids stay,
    and the pair has one entry, stamped by the last accepted write. *)
Lemma try_save_repeated (content role saved failed : string)
    (envs : list Env) (env : Env) (c : Ctx) :
  Forall (λ e, add_texts_raises e = None) (envs ++ [env]) ->
  chroma_store (foldl (λ c e, try_save e content role saved failed c) c (envs ++ [env]))
  = <[generate_msg_id content role := mkEntry content role (now_isoformat env)]>
      (chroma_store c).
Proof.
  revert c. induction envs as [|e envs IH]; intros c Hall.
  - cbn [app] in Hall. apply Forall_cons in Hall as [Hall _]. cbn beta in Hall.
    cbn [app foldl]. by rewrite try_save_chroma, Hall.
  - cbn [app] in Hall. apply Forall_cons in Hall as [He Hall]. cbn beta in He.
    cbn [app foldl].
    rewrite IH by done. rewrite try_save_chroma, He. apply insert_insert_eq.
Qed.

(** The store step alone, run N times for one (role, content) pair, N at
    least 1, each write accepted by the store: the pair has one entry,
    under [generate_msg_id content role]. *)
Lemma store_step_repeated (role content saved failed : string)
    (N : nat) (envs : list Env) (c : Ctx) :
  1 ≤ N ->
  length envs = N ->
  Forall (λ e, add_texts_raises e = None) envs ->
  let c' := foldl (λ c e, try_save e content role saved failed c) c envs in
  (∃ timestamp,
     chroma_store c'
     = <[generate_msg_id content role := mkEntry content role timestamp]>
         (chroma_store c)) ∧
  dom (chroma_store c') = {[generate_msg_id content role]} ∪ dom (chroma_store c) ∧
  (chroma_store c = ∅ -> size (chroma_store c') = 1).
Proof.
  intros HN Hlen Hall c'.
  destruct (exists_last (l := envs)) as (envs0 & env & ->).
  { intros ->. cbn in Hlen. lia. }
  assert (chroma_store c'
          = <[generate_msg_id content role := mkEntry content role (now_isoformat env)]>
              (chroma_store c)) as Hstore by by apply try_save_repeated.
  split; [by eexists|]. rewrite Hstore. split.
  - by rewrite dom_insert_L.
  - intros ->. by rewrite insert_empty, map_size_singleton.
Qed.

Lemma save_user_ignores_dict_state (env : Env) (c : Ctx)
    (items : gmap string (list Message)) :
  state c = StateDict items ->
  save_user_messages_middleware md5_hexdigest env c = (Ok (), c).
Proof. intros H. unfold save_user_messages_middleware. by rewrite H. Qed.

(** [hasattr(state, "response")] is false of a dict. *)
Lemma save_assistant_ignores_dict_state (env : Env) (c : Ctx)
    (items : gmap string (list Message)) :
  state c = StateDict items ->
  save_assistant_response_middleware md5_hexdigest env c = (Ok (), c).
Proof. intros H. unfold save_assistant_response_middleware. by rewrite H. Qed.

Lemma save_user_never_raises (env : Env) (c : Ctx) :
  (save_user_messages_middleware md5_hexdigest env c).1 = Ok ().
Proof.
  unfold save_user_messages_middleware.
  repeat (match goal with
          | |- context [match ?x with _ => _ end] => destruct x
          end; try done).
Qed.

Lemma save_assistant_never_raises (env : Env) (c : Ctx) :
  (save_assistant_response_middleware md5_hexdigest env c).1 = Ok ().
Proof.
  unfold save_assistant_response_middleware.
  repeat (match goal with
          | |- context [match ?x with _ => _ end] => destruct x
          end; try done).
Qed.

(** The user hook on a question that is not blank is the guarded store
    step, whatever the store does. *)
Lemma save_user_on_question (env : Env) (c : Ctx) (ms : list Message)
    (content : string) (i : option string) :
  getattr_messages (state c) = ms ++ [HumanMessage (Text content) i] ->
  content ≠ "" -> strip_nonempty content = true ->
  save_user_messages_middleware md5_hexdigest env c
  = (Ok (), try_save env content "user"
              "User message saved to long-term memory with ID: "
              "Failed to save user message: " c).
Proof.
  intros Hms Hne Hstrip. unfold save_user_messages_middleware.
  rewrite Hms, last_message_snoc. cbn [msg_type msg_content flatten_content].
  rewrite bool_decide_eq_true_2 by done. cbn [orb].
  rewrite bool_decide_eq_false_2 by done. by rewrite Hstrip.
Qed.

(** The assistant hook on a textual answer without tool calls is the same
    guarded store step under the role "assistant". *)
Lemma save_assistant_on_answer (env : Env) (c : Ctx) (ms : option (list Message))
    (system : option string) (content : string) :
  state c = StateObj ms system (Some (mkResponse (Some []) (Some (Text content)))) ->
  content ≠ "" -> strip_nonempty content = true ->
  save_assistant_response_middleware md5_hexdigest env c
  = (Ok (), try_save env content "assistant"
              "Assistant response saved to long-term memory with ID: "
              "Failed to save model response: " c).
Proof.
  intros Hst Hne Hstrip. unfold save_assistant_response_middleware.
  rewrite Hst. cbn [resp_tool_calls resp_content default from_option id flatten_content].
  rewrite bool_decide_eq_false_2 by done. by rewrite Hstrip.
Qed.

Lemma try_save_state (env : Env) (content role saved failed : string) (c : Ctx) :
  state (try_save env content role saved failed c) = state c.
Proof.
  unfold Memory.try_save. by destruct (add_texts _ _ _ _ _) as [[]].
Qed.

(** Running the user hook for the same question again and again is running
    the store step again and again: one entry for the question. *)
Lemma save_user_repeated (envs : list Env) (env : Env) (c : Ctx) (ms : list Message)
    (content : string) (i : option string) :
  getattr_messages (state c) = ms ++ [HumanMessage (Text content) i] ->
  content ≠ "" -> strip_nonempty content = true ->
  Forall (λ e, add_texts_raises e = None) (envs ++ [env]) ->
  chroma_store
    (foldl (λ c e, (save_user_messages_middleware md5_hexdigest e c).2) c (envs ++ [env]))
  = <[generate_msg_id content "user" := mkEntry content "user" (now_isoformat env)]>
      (chroma_store c).
Proof.
  intros Hms Hne Hstrip Hall.
  rewrite <- (try_save_repeated content "user"
                "User message saved to long-term memory with ID: "
                "Failed to save user message: " envs env c Hall).
  f_equal. clear Hall. generalize (envs ++ [env]). intros l. revert c Hms.
  induction l as [|e l IH]; intros c Hms; [done|].
  cbn [foldl]. rewrite (save_user_on_question e c ms content i Hms Hne Hstrip).
  cbn [snd]. apply IH. by rewrite try_save_state.
Qed.

End WithHash.

Import Sample.


(** C5 (the code breaks the claim).  The state the agent keeps is a dict.
    When its history is a question followed by an Assistant message with a
    tool call that got no result, the sanitizer returns it as it is: the
    history keeps both messages and still ends in the dangling call, and
    nothing is logged.  The hook reads the messages with
    [getattr(state, "messages", [])], which on a dict is the default, so it
    returns before the branch written for dicts. *)
Theorem sanitizer_keeps_the_dangling_call_of_a_dict_state :
  let '(r, c') := sanitize_dangling_tool_middleware env_up ctx_dangling in
  dangling <$> last_message history_dangling = Some true ∧
  r = Ok () ∧
  state c' = StateDict {["messages" := history_dangling]} ∧
  log c' = [] ∧
  c' = ctx_dangling.
Proof.
  by rewrite (sanitizer_ignores_dict_state env_up ctx_dangling _ eq_refl).
Qed.

(** On a state with attributes the last message is dropped whatever
    precedes it: after a crash in the second tool call of a turn the
    history has one message fewer and ends on a tool result, not on the
    question. *)
Lemma sanitized_history_can_end_on_a_tool_result :
  let c := mkCtx (StateObj (Some history_two_tool_calls) None None) (mkRuntime ∅) ∅ [] in
  let c' := (sanitize_dangling_tool_middleware env_up c).2 in
  length (getattr_messages (state c')) + 1 = length history_two_tool_calls ∧
  msg_type <$> last_message (getattr_messages (state c')) = Some "tool" ∧
  msg_type <$> last_message (getattr_messages (state c')) ≠ Some "human".
Proof. vm_compute. by repeat split. Qed.

Lemma sanitizer_never_raises (env : Env) (c : Ctx) :
  (sanitize_dangling_tool_middleware env c).1 = Ok ().
Proof.
  unfold sanitize_dangling_tool_middleware.
  destruct (last_message _); [|done]. by destruct (_ && _).
Qed.

(** The retrieval hook has no handler around the search: what the search
    raises, the hook raises. *)
Lemma retrieval_raises_what_search_raises (env : Env) (c : Ctx)
    (ms : list Message) (content : Content) (i : option string) (e : Exn) :
  getattr_messages (state c) = ms ++ [HumanMessage content i] ->
  content_truthy content = true ->
  similarity_search env (chroma_store c) content 3 = Raise e ->
  retrieve_similar_history_middleware env c = (Raise e, c).
Proof.
  intros Hms Htruthy Hsearch. unfold retrieve_similar_history_middleware.
  rewrite Hms, last_message_snoc. cbn [msg_type msg_content].
  rewrite bool_decide_eq_true_2 by done. by rewrite Htruthy, Hsearch.
Qed.

Lemma retrieval_ok_when_search_ok (env : Env) (c : Ctx) :
  (∀ store query k, ∃ results, similarity_search env store query k = Ok results) ->
  (retrieve_similar_history_middleware env c).1 = Ok ().
Proof.
  intros Hok. unfold retrieve_similar_history_middleware.
  destruct (last_message _) as [m|]; [|done].
  destruct (negb _); [done|].
  match goal with |- context [similarity_search env ?s ?q ?k] =>
    destruct (Hok s q k) as [results ->] end.
  by destruct results.
Qed.

End MemoryFacts.

(** ** The agent turn *)
Module AgentFacts.
Import Py LangChain Chain MemoryFacts.

Lemma run_hooks_trace (env : AgentEnv) (hooks : list Middleware) (t : Turn) :
  ((run_hooks env hooks t).1 = Ok () ->
   trace (run_hooks env hooks t).2 = trace t ++ (mw_stage <$> hooks)) ∧
  ∃ p, p `prefix_of` (mw_stage <$> hooks) ∧
       trace (run_hooks env hooks t).2 = trace t ++ p.
Proof.
  revert t. induction hooks as [|mw hooks IH]; intros t.
  - split; [by rewrite app_nil_r|]. exists []. by rewrite app_nil_r.
  - cbn [run_hooks fmap list_fmap].
    destruct (mw_run mw env (ctx t)) as [[[]|e] c].
    + destruct (IH (mkTurn c (trace t ++ [mw_stage mw]))) as [Hok (p & Hp & Htr)].
      cbn [trace] in Hok, Htr. split.
      * intros Hr. rewrite (Hok Hr). by rewrite <- app_assoc.
      * exists (mw_stage mw :: p). split; [by apply prefix_cons|].
        rewrite Htr. by rewrite <- app_assoc.
    + split; [done|]. exists [mw_stage mw]. split; [|done].
      apply prefix_cons, prefix_nil.
Qed.

Lemma call_model_trace (env : AgentEnv) (t : Turn) :
  trace (call_model env t).2 = trace t ++ [ModelCall].
Proof. unfold call_model. by destruct (model env _ _). Qed.

(** The stages of a turn follow the schedule of its middleware list: always
    an initial part of it, all of it when the turn completes. *)
Lemma model_turn_trace (env : AgentEnv) (middleware : list Middleware) (t : Turn) :
  ((model_turn env middleware t).1 = Ok () ->
   trace (model_turn env middleware t).2 = trace t ++ turn_schedule middleware) ∧
  ∃ p, p `prefix_of` turn_schedule middleware ∧
       trace (model_turn env middleware t).2 = trace t ++ p.
Proof.
  unfold model_turn, turn_schedule.
  set (before := filter _ middleware). set (after := reverse (filter _ middleware)).
  destruct (run_hooks_trace env before t) as [Hok1 (p1 & Hp1 & Htr1)].
  destruct (run_hooks env before t) as [[[]|e1] t1]; cbn [fst snd] in *.
  2: { split; [done|]. exists p1. split; [by apply prefix_app_r|done]. }
  specialize (Hok1 eq_refl).
  pose proof (call_model_trace env t1) as Htr2.
  destruct (call_model env t1) as [[[]|e2] t2]; cbn [fst snd] in *.
  2: { split; [done|]. exists ((mw_stage <$> before) ++ [ModelCall]). split.
       - apply prefix_app, prefix_app_r. done.
       - by rewrite Htr2, Hok1, <- app_assoc. }
  destruct (run_hooks_trace env after t2) as [Hok3 (p3 & Hp3 & Htr3)].
  split.
  - intros Hr. rewrite (Hok3 Hr), Htr2, Hok1. by rewrite <- !app_assoc.
  - exists ((mw_stage <$> before) ++ [ModelCall] ++ p3). split.
    + by apply prefix_app, prefix_app.
    + rewrite Htr3, Htr2, Hok1. by rewrite <- !app_assoc.
Qed.

Lemma run_hooks_ok (env : AgentEnv) (hooks : list Middleware) (t : Turn) :
  Forall (λ mw, ∀ c, (mw_run mw env c).1 = Ok ()) hooks ->
  (run_hooks env hooks t).1 = Ok ().
Proof.
  intros Hall. revert t. induction Hall as [|mw hooks Hmw _ IH]; intros t; [done|].
  cbn [run_hooks]. specialize (Hmw (ctx t)).
  destruct (mw_run mw env (ctx t)) as [[[]|e] c]; [apply IH|done].
Qed.

Lemma model_turn_ok (env : AgentEnv) (middleware : list Middleware) (t : Turn) :
  Forall (λ mw, ∀ c, (mw_run mw env c).1 = Ok ()) middleware ->
  (∀ st rt, ∃ response, model env st rt = Ok response) ->
  (model_turn env middleware t).1 = Ok ().
Proof.
  intros Hall Hmodel. unfold model_turn.
  pose proof (run_hooks_ok env (filter (λ mw, mw_hook mw = before_model) middleware) t) as H1.
  destruct (run_hooks env _ t) as [[[]|e1] t1].
  2: { apply H1. apply Forall_forall. intros mw [_ Hin]%list_elem_of_filter.
       by eapply Forall_forall in Hall. }
  unfold call_model.
  destruct (Hmodel (Memory.state (ctx t1)) (Memory.runtime (ctx t1))) as [response ->].
  apply run_hooks_ok. apply Forall_forall.
  intros mw [_ Hin]%elem_of_reverse%list_elem_of_filter.
  by eapply Forall_forall in Hall.
Qed.

Section WithHash.
Variable md5_hexdigest : string -> string.

Local Abbreviation agent_turn := (agent_turn md5_hexdigest).
Local Abbreviation middleware := (middleware md5_hexdigest).

(** The order [__init__] gives the stages. *)
Lemma agent_schedule :
  turn_schedule middleware
  = [Sanitizer; Summarization; HistoryRetrieval; UserPersistence; ModelCall;
     AssistantPersistence].
Proof. reflexivity. Qed.

(** A turn completes when neither the history search nor the model raises. *)
Lemma agent_turn_completes (env : AgentEnv) (t : Turn) :
  never_raises env -> (agent_turn env t).1 = Ok ().
Proof.
  intros [Hsearch Hmodel]. apply model_turn_ok; [|done].
  repeat constructor; intros c; cbn [mw_run fst].
  - apply sanitizer_never_raises.
  - by apply retrieval_ok_when_search_ok.
  - apply save_user_never_raises.
  - apply save_assistant_never_raises.
Qed.

(** C8, amended.  In every model turn of the agent the stages entered
    are an initial part of the sequence sanitizer, summarization gate,
    history retrieval, user-message persistence, model call,
    assistant-response persistence (the order of the middleware list);
    a turn that completes has entered exactly this sequence; and a turn
    completes whenever neither the history search nor the model call
    raises.  So the summarization gate runs right after the sanitizer and
    before user-message persistence, and the sanitizer runs first. *)
Theorem agent_turn_runs_the_stages_in_list_order (env : AgentEnv) (t : Turn) :
  let schedule := [Sanitizer; Summarization; HistoryRetrieval; UserPersistence;
                   ModelCall; AssistantPersistence] in
  let '(r, t') := agent_turn env t in
  (∃ p, p `prefix_of` schedule ∧ trace t' = trace t ++ p) ∧
  (r = Ok () -> trace t' = trace t ++ schedule) ∧
  (never_raises env -> r = Ok ()).
Proof.
  intros schedule.
  pose proof (model_turn_trace env middleware t) as [Hok Hprefix].
  pose proof (agent_turn_completes env t) as Hcompletes.
  rewrite agent_schedule in Hok, Hprefix. fold schedule in Hok, Hprefix.
  unfold Chain.agent_turn in *.
  by destruct (model_turn env middleware t) as [r t'].
Qed.

(** One model turn on the state the agent keeps, a dict: the four memory
    hooks return it as it is, so the turn is the summarizer followed by the
    model call, whose answer goes to the end of the messages. *)
Lemma agent_turn_on_dict (env : AgentEnv) (items : gmap string (list Memory.Message))
    (rt : Memory.Runtime) (store : gmap string Memory.Entry) (log : Log)
    (tr : list Stage) :
  let summarized :=
    set_state_messages
      (summarization env 4000 20 (state_messages (Memory.StateDict items)))
      (Memory.StateDict items) in
  agent_turn env (mkTurn (Memory.mkCtx (Memory.StateDict items) rt store log) tr)
  = match model env summarized rt with
    | Raise e =>
        (Raise e,
         mkTurn (Memory.mkCtx summarized rt store log)
           (tr ++ [Sanitizer; Summarization; HistoryRetrieval; UserPersistence;
                   ModelCall]))
    | Ok response =>
        (Ok (),
         mkTurn (Memory.mkCtx
                   (set_state_messages (state_messages summarized ++ [response]) summarized)
                   rt store log)
           (tr ++ [Sanitizer; Summarization; HistoryRetrieval; UserPersistence;
                   ModelCall; AssistantPersistence]))
    end.
Proof.
  intros summarized. unfold Chain.agent_turn, model_turn.
  change (filter (λ mw, mw_hook mw = before_model) middleware)
    with (take 4 middleware).
  change (reverse (filter (λ mw, mw_hook mw = after_model) middleware))
    with (drop 4 middleware).
  cbn [Chain.middleware take drop run_hooks mw_run mw_stage ctx trace].
  rewrite (sanitizer_ignores_dict_state _ (Memory.mkCtx (Memory.StateDict items) rt store log)
             items eq_refl).
  cbn [ctx trace Memory.state Memory.set_state Memory.runtime Memory.chroma_store
       Memory.log].
  fold summarized.
  destruct summarized as [ms sys resp|items1] eqn:Hsum; [discriminate Hsum|].
  rewrite (retrieval_ignores_dict_state _ (Memory.mkCtx (Memory.StateDict items1) rt store log)
             items1 eq_refl).
  cbn [ctx trace].
  rewrite (save_user_ignores_dict_state md5_hexdigest _
             (Memory.mkCtx (Memory.StateDict items1) rt store log) items1 eq_refl).
  cbn [ctx trace]. unfold call_model.
  cbn [ctx trace Memory.state Memory.set_state Memory.runtime Memory.chroma_store
       Memory.log].
  destruct (model env (Memory.StateDict items1) rt) as [response|e].
  - cbn [run_hooks mw_run mw_stage ctx trace set_state_messages].
    unfold Memory.set_state.
    cbn [Memory.runtime Memory.chroma_store Memory.log].
    rewrite (save_assistant_ignores_dict_state md5_hexdigest _
               (Memory.mkCtx (Memory.StateDict _) rt store log) _ eq_refl).
    cbn [ctx trace]. by rewrite <- !(assoc_L (++)).
  - by rewrite <- !(assoc_L (++)).
Qed.


End WithHash.

Import Sample.

(** C8 as stated fails: in a completed turn the summarization gate is the
    second stage, entered before history retrieval and user-message
    persistence, not after them. *)
Lemma summarization_runs_before_user_persistence :
  let spec_order := [Sanitizer; HistoryRetrieval; UserPersistence; Summarization;
                     ModelCall; AssistantPersistence] in
  let '(r, t') := Chain.agent_turn md5_hexdigest (agent_env env_up)
                    (mkTurn ctx_question []) in
  r = Ok () ∧
  trace t' = [Sanitizer; Summarization; HistoryRetrieval; UserPersistence;
              ModelCall; AssistantPersistence] ∧
  trace t' ≠ spec_order.
Proof. vm_compute. by repeat split. Qed.

End AgentFacts.

(** ** The checkpoint store of a session *)
Module SessionFacts.
Import Py LangChain Chain.

Lemma lookup_foldr_delete {V} (files : list string) (dir : gmap string V) (file : string) :
  foldr (λ file d, delete file d) dir files !! file
  = if bool_decide (file ∈ files) then None else dir !! file.
Proof.
  induction files as [|f files IH]; [done|].
  cbn [foldr]. destruct (decide (file = f)) as [->|Hne].
  - rewrite lookup_delete_eq. by rewrite bool_decide_eq_true_2 by left.
  - rewrite lookup_delete_ne by done. rewrite IH.
    destruct (decide (file ∈ files)) as [Hin|Hout].
    + by rewrite !bool_decide_eq_true_2 by (try right; done).
    + rewrite !bool_decide_eq_false_2; [done| |done].
      by intros [?|?]%elem_of_cons.
Qed.

Lemma length_append (a b : string) :
  String.length (a +:+ b) = String.length a + String.length b.
Proof.
  induction a as [|x a IH]; [done|].
  change (String x a +:+ b) with (String x (a +:+ b)).
  cbn [String.length]. by rewrite IH.
Qed.

Lemma append_inv_tail (a b c : string) : a +:+ c = b +:+ c -> a = b.
Proof.
  revert b. induction a as [|x a IH]; intros [|y b] H.
  - done.
  - apply (f_equal String.length) in H.
    rewrite !length_append in H. cbn [String.length] in H. lia.
  - apply (f_equal String.length) in H.
    rewrite !length_append in H. cbn [String.length] in H. lia.
  - change (String x (a +:+ c) = String y (b +:+ c)) in H.
    injection H as -> H. f_equal. by apply IH.
Qed.

(** The loop over the directory leaves no file. *)
Lemma unlink_all_empty (dir : Directory) : unlink_all dir = ∅.
Proof.
  apply map_eq. intros file. unfold unlink_all.
  rewrite lookup_foldr_delete, lookup_empty.
  case_bool_decide as Hin; [done|].
  destruct (dir !! file) as [db|] eqn:Hfile; [|done].
  exfalso. apply Hin. apply list_elem_of_fmap. exists (file, db).
  split; [done|]. by apply elem_of_map_to_list.
Qed.

Lemma init_checkpointer_fresh (session_id : string) (dir : Directory) :
  init_checkpointer session_id dir = {[db_path session_id := ∅]}.
Proof.
  unfold init_checkpointer, connect. rewrite unlink_all_empty.
  by rewrite lookup_empty, insert_empty.
Qed.

(** C2, amended.  When a session is re-created after a restart, the
    directory of checkpoint databases holds exactly one file, the empty
    database of that session: no thread of that session has a checkpoint,
    and the databases of all other sessions are gone. *)
Theorem reopened_session_starts_without_checkpoints (session_id : string) (p : Process) :
  let p' := get_conversational_chain session_id (restart p) in
  short_term_memory p' = {[db_path session_id := ∅]} ∧
  (∀ thread_id, get_checkpoint session_id thread_id (short_term_memory p') = None) ∧
  (∀ other thread_id, other ≠ session_id ->
     get_checkpoint other thread_id (short_term_memory p') = None).
Proof.
  unfold get_conversational_chain, restart. cbn [_sessions short_term_memory].
  rewrite bool_decide_eq_false_2 by apply not_elem_of_nil.
  cbn [short_term_memory]. rewrite init_checkpointer_fresh.
  split; [done|]. split.
  - intros thread_id. unfold get_checkpoint. by rewrite lookup_singleton_eq.
  - intros other thread_id Hne. unfold get_checkpoint.
    rewrite lookup_singleton_ne; [done|].
    unfold db_path. intros Heq. apply Hne.
    symmetry. by eapply append_inv_tail.
Qed.

(** C2 as stated fails: a conversation written to the checkpoint store of
    its session is not there any more once the session object has been
    re-created in a new process. *)
Lemma restart_discards_the_conversation :
  let history := [ Memory.HumanMessage (Memory.Text "hello") None;
                   Memory.AIMessage (Memory.Text "hi") [] None ] in
  let p := mkProcess ["session_123"]
             (put_checkpoint "session_123" "user_123" history
                (init_checkpointer "session_123" ∅)) in
  let p' := get_conversational_chain "session_123" (restart p) in
  get_checkpoint "session_123" "user_123" (short_term_memory p) = Some history ∧
  get_checkpoint "session_123" "user_123" (short_term_memory p') = None.
Proof. vm_compute. by split. Qed.

End SessionFacts.

(** ** More on strings *)
Module StringFacts.
Import Py PyFacts.

Lemma length_app_str (a b : string) :
  String.length (a +:+ b) = String.length a + String.length b.
Proof. induction a as [|x a IH]; [done|]. rewrite app_cons. cbn. by rewrite IH. Qed.

(** Two strings that end in tails of the same length are equal only when
    their tails are. *)
Lemma app_inj_tail_length (a b u v : string) :
  String.length u = String.length v -> a +:+ u = b +:+ v -> u = v.
Proof.
  intros Hlen. revert b. induction a as [|x a IH]; intros b H.
  - rewrite app_nil_l in H. destruct b as [|y b]; [done|].
    apply (f_equal String.length) in H. rewrite length_app_str in H.
    cbn [String.length] in H. lia.
  - destruct b as [|y b].
    + rewrite app_nil_l in H. apply (f_equal String.length) in H.
      rewrite length_app_str in H. cbn [String.length] in H. lia.
    + rewrite !app_cons in H. injection H as _ H. by apply (IH b).
Qed.

End StringFacts.

(** ** Batches *)
Module BatchFacts.
Import Py LangChain.

Lemma batches_fuel_spec {A} (fuel n : nat) (l : list A) :
  1 ≤ n -> length l ≤ fuel ->
  let batches := Loader.batches_fuel fuel n l in
  concat batches = l ∧
  Forall (λ b, 1 ≤ length b ≤ n) batches ∧
  (∀ i b, batches !! i = Some b -> S i < length batches -> length b = n) ∧
  length batches = (length l + n - 1) / n.
Proof.
  intros Hn. revert l. induction fuel as [|fuel IH]; intros l Hfuel.
  - destruct l; [|cbn in Hfuel; lia]. cbn [Loader.batches_fuel concat length].
    repeat split; try done. symmetry. apply Nat.div_small. lia.
  - destruct l as [|x l].
    { cbn [Loader.batches_fuel concat length].
      repeat split; try done. symmetry. apply Nat.div_small. lia. }
    cbn [Loader.batches_fuel].
    set (rest := drop n (x :: l)).
    assert (length rest = length (x :: l) - n) as Hrest by apply length_drop.
    assert (length (take n (x :: l)) = n `min` length (x :: l)) as Htake
      by apply length_take.
    destruct (IH rest) as (Hcat & Hall & Hfull & Hlen).
    { cbn [length] in *. lia. }
    cbv zeta. repeat split.
    + cbn [concat]. rewrite Hcat. apply take_drop.
    + constructor; [|done]. cbn [length] in *. lia.
    + intros [|i] b Hb Hi; cbn in Hb, Hi.
      * injection Hb as <-. rewrite Hlen in Hi.
        destruct (decide (length (x :: l) ≤ n)) as [Hle|Hgt]; [|lia].
        exfalso. rewrite Hrest in Hi.
        replace (length (x :: l) - n + n - 1) with (n - 1) in Hi by lia.
        rewrite Nat.div_small in Hi by lia. lia.
      * apply (Hfull i b Hb). lia.
    + cbn [length]. rewrite Hlen, Hrest. cbn [length].
      destruct (decide (S (length l) ≤ n)) as [Hle|Hgt].
      * replace (S (length l) - n + n - 1) with (n - 1) by lia.
        rewrite (Nat.div_small (n - 1)) by lia.
        apply (Nat.div_unique _ _ 1 (S (length l) - 1)); lia.
      * replace (S (length l) + n - 1) with ((S (length l) - n + n - 1) + 1 * n) by lia.
        rewrite Nat.div_add by lia. lia.
Qed.

(** X1.  For a batch size of at least 1, [batch_process_documents] cuts the
    list into consecutive batches: put back together they are the list, none
    is empty or longer than the batch size, every batch but the last is
    full, and there are ceil(len / batch_size) of them. *)
Theorem batch_process_documents_partitions {A} (batch_size : nat) (l : list A) :
  1 ≤ batch_size ->
  let batches := Loader.batch_process_documents batch_size l in
  concat batches = l ∧
  Forall (λ b, 1 ≤ length b ≤ batch_size) batches ∧
  (∀ i b, batches !! i = Some b -> S i < length batches -> length b = batch_size) ∧
  length batches = (length l + batch_size - 1) / batch_size.
Proof. intros H. by apply batches_fuel_spec. Qed.

Lemma batch_process_documents_partitions_witness :
  Loader.batch_process_documents 2 [1; 2; 3; 4; 5] = [[1; 2]; [3; 4]; [5]] ∧
  concat (Loader.batch_process_documents 2 [1; 2; 3; 4; 5]) = [1; 2; 3; 4; 5] ∧
  length (Loader.batch_process_documents 2 [1; 2; 3; 4; 5]) = 3.
Proof.
  pose proof (batch_process_documents_partitions 2 [1; 2; 3; 4; 5] ltac:(lia))
    as (Hcat & _ & _ & Hlen).
  split; [reflexivity|]. split; [exact Hcat|exact Hlen].
Defined.

End BatchFacts.

(** ** The document registry: listing, deleting, clearing *)
Module RegistryFacts.
Import Py LangChain Loader PyFacts LoaderFacts StringFacts.

(** A name the registry can hold on a line of its own. *)
Local Abbreviation plain := (λ l : string, single_line l = true ∧ l ≠ "").

Lemma splitlines_go_last (l cur : string) :
  single_line l = true -> cur +:+ l ≠ "" ->
  splitlines_go 0 cur l = [cur +:+ l].
Proof.
  revert cur. induction l as [|c l IH]; intros cur Hl Hne.
  - rewrite app_nil_r in Hne |- *. cbn [splitlines_go]. by rewrite decide_False.
  - cbn [single_line] in Hl. apply andb_prop in Hl as [Hb Hl].
    apply Nat.eqb_eq in Hb. cbn [splitlines_go]. rewrite Hb.
    rewrite IH; [by rewrite app_assoc| done |].
    rewrite app_assoc. done.
Qed.

Lemma universal_newlines_go_single (l : string) :
  single_line l = true -> universal_newlines_go false l = l.
Proof.
  induction l as [|c l IH]; intros Hl; [done|].
  pose proof (single_line_no_CR _ _ Hl) as Hc.
  cbn [single_line] in Hl. apply andb_prop in Hl as [_ Hl].
  cbn [universal_newlines_go andb].
  rewrite bool_decide_eq_false_2 by done. by rewrite IH.
Qed.

(** Complete lines followed by a last line without its newline. *)
Lemma read_record_open_line (init : list string) (lst : string) :
  Forall (λ l, single_line l = true) init ->
  single_line lst = true -> lst ≠ "" ->
  read_record_lines (complete_lines init +:+ lst) = init ++ [lst].
Proof.
  intros Hinit Hl Hne. unfold read_record_lines, universal_newlines, splitlines.
  induction Hinit as [|l init Hsl _ IH].
  - rewrite app_nil_l, universal_newlines_go_single by done.
    by rewrite splitlines_go_last.
  - cbn [complete_lines]. rewrite app_assoc, app_cons.
    rewrite universal_newlines_go_line, splitlines_go_line by done.
    by rewrite IH, app_nil_l.
Qed.

Lemma join_snoc (init : list string) (lst : string) :
  join (String LF "") (init ++ [lst]) = complete_lines init +:+ lst.
Proof.
  induction init as [|l init IH]; [done|].
  cbn [app complete_lines]. rewrite app_assoc, app_cons.
  destruct (init ++ [lst]) eqn:E; [by destruct init|].
  rewrite <- IH. done.
Qed.

(** A record of complete lines is the joined lines and a final newline. *)
Lemma complete_lines_join (lines : list string) :
  lines ≠ [] -> complete_lines lines = join (String LF "") lines +:+ String LF "".
Proof.
  intros Hne. destruct (exists_last Hne) as (init & lst & ->).
  rewrite join_snoc, complete_lines_app. cbn [complete_lines]. by rewrite app_assoc.
Qed.

(** What ["\n".join(lines)] reads back as. *)
Lemma read_record_join (lines : list string) :
  Forall plain lines ->
  read_record_lines (join (String LF "") lines) = lines.
Proof.
  intros H. destruct (decide (lines = [])) as [->|Hne]; [done|].
  destruct (exists_last Hne) as (init & lst & ->).
  apply Forall_app in H as [Hinit Hlast].
  apply Forall_cons in Hlast as [[Hl Hn] _].
  rewrite join_snoc. apply read_record_open_line; [|done..].
  eapply Forall_impl; [exact Hinit|]. by intros ? [? _].
Qed.

Lemma list_remove_absent (x : string) (l : list string) :
  x ∉ l -> list_remove x l = l.
Proof.
  induction l as [|y l IH]; [done|]. intros [Hne Hl]%not_elem_of_cons.
  cbn [list_remove]. rewrite decide_False by done. by rewrite IH.
Qed.

Lemma list_remove_subseteq (x : string) (l : list string) :
  list_remove x l ⊆ l.
Proof.
  induction l as [|y l IH]; [done|]. cbn [list_remove]. intros z Hz.
  destruct (decide (x = y)) as [->|Hne]; [by right|].
  apply elem_of_cons in Hz as [->|Hz]; [left|right; by apply IH].
Qed.

Lemma list_remove_NoDup (x : string) (l : list string) :
  NoDup l -> x ∉ list_remove x l.
Proof.
  induction l as [|y l IH]; [intros _; apply not_elem_of_nil|].
  intros [Hy Hl]%NoDup_cons. cbn [list_remove].
  destruct (decide (x = y)) as [->|Hne]; [done|].
  apply not_elem_of_cons. split; [done|]. by apply IH.
Qed.

Lemma list_remove_other (x y : string) (l : list string) :
  x ≠ y -> y ∈ list_remove x l <-> y ∈ l.
Proof.
  intros Hne. induction l as [|z l IH]; [done|]. cbn [list_remove].
  destruct (decide (x = z)) as [->|Hz].
  - rewrite elem_of_cons. split; [by right|]. by intros [?|?].
  - rewrite !elem_of_cons, IH. done.
Qed.

Lemma list_all_logger lv msg w :
  list_all_processed_documents (logger lv msg w) = list_all_processed_documents w.
Proof. done. Qed.

(** Recording a list of names on a record of complete lines. *)
Lemma recorded_in_order (names : list string) (w : World) :
  record_in_lines w ->
  Forall (λ d, single_line d = true) names ->
  let w' := foldl (λ w d, _record_processed_document d w) w names in
  list_all_processed_documents w' = list_all_processed_documents w ++ names ∧
  (∀ d, _is_document_processed d w'
        = _is_document_processed d w || bool_decide (d ∈ names)) ∧
  record_in_lines w'.
Proof.
  intros Hw Hnames. revert w Hw.
  induction Hnames as [|d names Hd _ IH]; intros w Hw; cbv zeta.
  - cbn [foldl]. rewrite List.app_nil_r. split; [done|]. split; [|done].
    intros d. rewrite (bool_decide_eq_false_2 (d ∈ [])); [by rewrite orb_false_r|].
    apply not_elem_of_nil.
  - cbn [foldl].
    destruct (record_then_processed d w Hd Hw) as [_ Hw1].
    destruct (IH _ Hw1) as (Hlist & Hmem & Hrec).
    assert (list_all_processed_documents (_record_processed_document d w)
            = list_all_processed_documents w ++ [d]) as Hstep.
    { unfold record_in_lines in Hw.
      unfold list_all_processed_documents, _record_processed_document, set_record.
      cbn [record_file]. destruct (record_file w) as [content|].
      - destruct Hw as (lines & Hl & ->). cbn [default from_option id].
        assert (complete_lines lines +:+ d +:+ String LF ""
                = complete_lines (lines ++ [d])) as -> by by rewrite complete_lines_app.
        rewrite !read_record_complete_lines; [done..|].
        apply Forall_app. split; [done|]. by constructor.
      - change (default "" None +:+ d +:+ String LF "") with (complete_lines [d]).
        rewrite read_record_complete_lines; [done|]. by constructor. }
    split; [|split; [|done]].
    + rewrite Hlist, Hstep. by rewrite <- List.app_assoc.
    + intros x. rewrite Hmem.
      assert (∀ v, _is_document_processed x v
                   = bool_decide (x ∈ list_all_processed_documents v)) as Hdef.
      { intros v. unfold _is_document_processed, list_all_processed_documents, str_in.
        destruct (record_file v); [done|].
        symmetry. apply bool_decide_eq_false_2, not_elem_of_nil. }
      rewrite !Hdef, Hstep.
      apply eq_true_iff_eq.
      rewrite !orb_true_iff, !bool_decide_eq_true, elem_of_app, !elem_of_cons.
      rewrite elem_of_nil. tauto.
Qed.

(** X2.  On a record made of complete lines (a new or cleared file, or one
    only ever appended to), recording names one after the other appends
    them: [list_all_processed_documents] returns the earlier names followed
    by the recorded ones, in order and with their repetitions; a name is a
    member afterwards exactly when it was before or is one of those
    recorded; and the record is again made of complete lines. *)
Theorem recorded_names_are_listed_in_order (names : list string) (w : World) :
  record_in_lines w ->
  Forall (λ d, single_line d = true) names ->
  let w' := foldl (λ w d, _record_processed_document d w) w names in
  list_all_processed_documents w' = list_all_processed_documents w ++ names ∧
  (∀ d, _is_document_processed d w'
        = _is_document_processed d w || bool_decide (d ∈ names)) ∧
  record_in_lines w'.
Proof. apply recorded_in_order. Qed.

Lemma recorded_names_are_listed_in_order_witness :
  list_all_processed_documents
    (foldl (λ w d, _record_processed_document d w) (mkWorld None ∅ [])
       ["a.txt"; "b.pdf"; "a.txt"])
  = ["a.txt"; "b.pdf"; "a.txt"].
Proof.
  assert (record_in_lines (mkWorld None ∅ [])) as Hw by done.
  assert (Forall (λ d, single_line d = true) ["a.txt"; "b.pdf"; "a.txt"]) as Hn
    by by repeat constructor.
  exact (proj1 (recorded_names_are_listed_in_order _ _ Hw Hn)).
Defined.

(** What a delete leaves of the record and of the saved copies. *)
Lemma delete_processed_document_spec (doc_id : string) (w : World) :
  Names.component doc_id = true ->
  Forall plain (list_all_processed_documents w) ->
  let w' := delete_processed_document doc_id w in
  list_all_processed_documents w'
  = list_remove doc_id (list_all_processed_documents w) ∧
  documents_dir w' = delete doc_id (documents_dir w) ∧
  (∀ d, d ≠ doc_id -> _is_document_processed d w' = _is_document_processed d w) ∧
  (NoDup (list_all_processed_documents w) -> _is_document_processed doc_id w' = false).
Proof.
  intros _ Hplain. cbv zeta.
  assert (∀ v, ∀ x, _is_document_processed x v
               = bool_decide (x ∈ list_all_processed_documents v)) as Hdef.
  { intros v x. unfold _is_document_processed, list_all_processed_documents, str_in.
    destruct (record_file v); [done|].
    symmetry. apply bool_decide_eq_false_2, not_elem_of_nil. }
  set (lines := list_all_processed_documents w) in *.
  assert (list_all_processed_documents (delete_processed_document doc_id w)
          = list_remove doc_id lines) as Hlist.
  { unfold delete_processed_document.
    set (w1 := match documents_dir w !! doc_id with Some _ => _ | None => _ end).
    assert (list_all_processed_documents w1 = lines) as -> by by subst w1; case_match.
    unfold str_in. case_bool_decide as Hin.
    - unfold list_all_processed_documents, set_record. cbn [record_file].
      apply read_record_join.
      eapply Forall_forall. intros x Hx. eapply Forall_forall in Hplain; [done|].
      by apply list_remove_subseteq in Hx.
    - rewrite list_remove_absent by done.
      unfold list_all_processed_documents, set_record. cbn [record_file].
      by apply read_record_join. }
  split; [done|]. split; [|split].
  - unfold delete_processed_document.
    destruct (documents_dir w !! doc_id) eqn:Hd.
    + by destruct (str_in _ _).
    + destruct (str_in _ _); cbn; symmetry; by apply delete_id.
  - intros d Hne. rewrite !Hdef, Hlist. fold lines.
    apply bool_decide_ext. by apply list_remove_other.
  - intros Hnd. rewrite Hdef, Hlist. apply bool_decide_eq_false_2.
    by apply list_remove_NoDup.
Qed.

(** The file a delete writes: the names that stay, joined by newlines. *)
Lemma delete_processed_document_record (doc_id : string) (w : World) :
  record_file (delete_processed_document doc_id w)
  = Some (join (String LF "") (list_remove doc_id (list_all_processed_documents w))).
Proof.
  unfold delete_processed_document.
  set (w1 := match documents_dir w !! doc_id with Some _ => _ | None => _ end).
  assert (list_all_processed_documents w1 = list_all_processed_documents w) as ->
    by by subst w1; destruct (documents_dir w !! doc_id).
  unfold str_in. case_bool_decide as Hin; [done|].
  by rewrite list_remove_absent.
Qed.

(** X3.  For a file name, when the record reads as non-blank lines,
    [delete_processed_document] leaves a record that reads as the old list
    without the first occurrence of the name (the whole list when the name
    is absent), removes the saved copy of that name and no other, and
    changes the membership of no other name.  The name itself is no longer a
    member when no name was listed twice. *)
Theorem delete_processed_document_removes_first_occurrence (doc_id : string) (w : World) :
  Names.component doc_id = true ->
  Forall plain (list_all_processed_documents w) ->
  let w' := delete_processed_document doc_id w in
  list_all_processed_documents w'
  = list_remove doc_id (list_all_processed_documents w) ∧
  documents_dir w' = delete doc_id (documents_dir w) ∧
  (∀ d, d ≠ doc_id -> _is_document_processed d w' = _is_document_processed d w) ∧
  (NoDup (list_all_processed_documents w) -> _is_document_processed doc_id w' = false).
Proof. apply delete_processed_document_spec. Qed.

Lemma delete_processed_document_removes_first_occurrence_witness :
  let w := mkWorld (Some (complete_lines ["a.txt"; "b.txt"; "a.txt"]))
             {["a.txt" := []; "b.txt" := []]} [] in
  list_all_processed_documents (delete_processed_document "a.txt" w)
  = ["b.txt"; "a.txt"] ∧
  documents_dir (delete_processed_document "a.txt" w) !! "a.txt" = None.
Proof.
  intros w.
  assert (Forall plain (list_all_processed_documents w)) as Hplain
    by (vm_compute; by repeat constructor).
  destruct (delete_processed_document_removes_first_occurrence "a.txt" w eq_refl Hplain)
    as (Hlist & Hdir & _).
  split; [exact Hlist|]. rewrite Hdir. apply lookup_delete_eq.
Defined.

(** X4.  [delete_processed_document] writes the record without a final
    newline, so the next [_record_processed_document] continues the last
    remaining line: when the delete leaves the names [init ++ [lst]],
    recording [new_id] makes the list [init ++ [lst new_id]], and [new_id]
    is not a member unless it is one of [init]. *)
Theorem record_after_delete_joins_the_last_line (doc_id new_id lst : string)
    (init : list string) (w : World) :
  Names.component doc_id = true ->
  Forall plain (list_all_processed_documents w) ->
  list_remove doc_id (list_all_processed_documents w) = init ++ [lst] ->
  single_line (lst +:+ new_id) = true ->
  let w' := _record_processed_document new_id (delete_processed_document doc_id w) in
  list_all_processed_documents w' = init ++ [lst +:+ new_id] ∧
  (new_id ∉ init -> _is_document_processed new_id w' = false).
Proof.
  intros _ Hplain Hrest Hjoined. cbv zeta.
  assert (Forall plain (init ++ [lst])) as Hkept.
  { rewrite <- Hrest. apply Forall_forall. intros x Hx.
    eapply Forall_forall in Hplain; [done|]. by apply list_remove_subseteq in Hx. }
  apply Forall_app in Hkept as [Hinit Hlast].
  apply Forall_cons in Hlast as [[Hl Hn] _].
  assert (record_file (delete_processed_document doc_id w)
          = Some (join (String LF "") (init ++ [lst]))) as Hfile.
  { unfold delete_processed_document.
    set (w1 := match documents_dir w !! doc_id with Some _ => _ | None => _ end).
    assert (list_all_processed_documents w1 = list_all_processed_documents w) as ->
      by by subst w1; destruct (documents_dir w !! doc_id).
    unfold str_in. case_bool_decide as Hin.
    - by rewrite Hrest.
    - rewrite list_remove_absent in Hrest by done. by rewrite Hrest. }
  assert (list_all_processed_documents
            (_record_processed_document new_id (delete_processed_document doc_id w))
          = init ++ [lst +:+ new_id]) as Hlist.
  { unfold list_all_processed_documents, _record_processed_document, set_record.
    cbn [record_file]. rewrite Hfile. cbn [default from_option id].
    rewrite join_snoc, app_assoc.
    assert (complete_lines init +:+ lst +:+ new_id +:+ String LF ""
            = complete_lines (init ++ [lst +:+ new_id])) as ->.
    { rewrite complete_lines_app. cbn [complete_lines]. by rewrite (app_assoc lst). }
    apply read_record_complete_lines. apply Forall_app. split.
    - eapply Forall_impl; [exact Hinit|]. by intros ? [? _].
    - by constructor. }
  split; [done|]. intros Hnew.
  unfold _is_document_processed, _record_processed_document, set_record.
  cbn [record_file].
  unfold list_all_processed_documents, _record_processed_document, set_record in Hlist.
  cbn [record_file] in Hlist. rewrite Hlist.
  unfold str_in. apply bool_decide_eq_false_2.
  intros [Hin|Hin]%elem_of_app; [done|].
  apply list_elem_of_singleton in Hin.
  apply (f_equal String.length) in Hin. rewrite length_app_str in Hin.
  destruct lst; [done|]. cbn [String.length] in Hin. lia.
Qed.

Lemma record_after_delete_joins_the_last_line_witness :
  let w := mkWorld (Some (complete_lines ["draft.md"; "notes.txt"; "plan.pdf"])) ∅ [] in
  let w' := _record_processed_document "new.txt"
              (delete_processed_document "draft.md" w) in
  list_all_processed_documents w' = ["notes.txt"; "plan.pdfnew.txt"] ∧
  _is_document_processed "new.txt" w' = false.
Proof.
  intros w w'.
  assert (Forall plain (list_all_processed_documents w)) as Hplain
    by (vm_compute; by repeat constructor).
  assert (list_remove "draft.md" (list_all_processed_documents w)
          = ["notes.txt"] ++ ["plan.pdf"]) as Hrest by by vm_compute.
  assert (single_line ("plan.pdf" +:+ "new.txt") = true) as Hj by by vm_compute.
  destruct (record_after_delete_joins_the_last_line
              "draft.md" "new.txt" "plan.pdf" ["notes.txt"] w eq_refl Hplain Hrest Hj)
    as [Hlist Hmem].
  split; [exact Hlist|]. apply Hmem.
  intros H%list_elem_of_singleton. discriminate H.
Defined.

(** X5.  Whatever the record and the documents directory held, after
    [clear_all_processed_documents] no name is listed or processed and no
    saved copy is left, and the record works again: the names recorded
    afterwards are listed exactly, in order. *)
Theorem clear_all_processed_documents_empties_the_registry
    (PROCESSED_DOCS_RECORD DOCUMENTS_DIR : string) (w : World) :
  let w' := clear_all_processed_documents PROCESSED_DOCS_RECORD DOCUMENTS_DIR w in
  list_all_processed_documents w' = [] ∧
  documents_dir w' = ∅ ∧
  (∀ d, _is_document_processed d w' = false) ∧
  (∀ names, Forall (λ d, single_line d = true) names ->
     list_all_processed_documents
       (foldl (λ w d, _record_processed_document d w) w' names) = names).
Proof.
  cbv zeta. split; [done|]. split; [done|]. split; [done|].
  intros names Hnames.
  set (w' := clear_all_processed_documents _ _ w).
  assert (record_in_lines w') as Hw by (by exists []).
  destruct (recorded_in_order names w' Hw Hnames) as [Hlist _].
  by rewrite Hlist.
Qed.

Section WithParsers.

Variable DOCUMENTS_DIR : string.
Variable loader_load : LoaderClass -> string -> Bytes -> Result (list Document).
Variable split_documents : list Document -> list Document.

(** A file that is not skipped and that its loader accepts. *)
Lemma process_file_spec (f : UploadedFile) (skip : bool)
    (w : World) (cls : LoaderClass) (docs : list Document) :
  Names.component (name f) = true ->
  skip && _is_document_processed (name f) w = false ->
  dict_get (lower (suffix (name f))) SUPPORTED_LOADERS = Some cls ->
  loader_load cls (DOCUMENTS_DIR +:+ "/" +:+ name f) (getbuffer f) = Ok docs ->
  let '(chunks, w') := _process_file DOCUMENTS_DIR loader_load split_documents f skip w in
  chunks = split_documents
             (map (add_metadata (DOCUMENTS_DIR +:+ "/" +:+ name f) (name f)
                     (lower (suffix (name f)))) docs) ∧
  documents_dir w' = <[name f := getbuffer f]> (documents_dir w) ∧
  record_file w' = Some (default "" (record_file w) +:+ name f +:+ String LF "") ∧
  (single_line (name f) = true -> record_in_lines w ->
   list_all_processed_documents w' = list_all_processed_documents w ++ [name f]).
Proof.
  intros _ Hskip Hcls Hload. unfold _process_file. rewrite Hskip.
  unfold load_document. rewrite Hcls. cbn [documents_dir logger set_documents].
  rewrite lookup_insert_eq, Hload.
  split; [done|]. split; [done|]. split; [done|].
  intros Hn Hw. rewrite list_all_logger.
  set (w4 := logger _ _ _).
  assert (record_in_lines w4) as Hw4 by done.
  assert (Forall (λ d, single_line d = true) [name f]) as Hnames by by constructor.
  destruct (recorded_in_order [name f] w4 Hw4 Hnames) as [Hlist _].
  cbn [foldl] in Hlist. by rewrite Hlist.
Qed.

(** X6.  [_process_file] on an upload with a file name, that is not skipped
    ([skip_processed] off, or the name not on record), whose suffix has a
    loader that returns [docs] for its bytes: the chunks are the splitter's
    output on [docs] with source, file_name and file_type set; the bytes
    are saved under the upload's name; and the name, followed by a newline,
    is written at the end of the record file, whatever the file held (it
    is created when missing), also when the name is there already.  The
    name is a new entry of the list of processed documents when the record
    held complete lines and the name has no line boundary; on a record
    without final newline it continues the last line. *)
Theorem process_file_saves_loads_and_records (f : UploadedFile) (skip : bool)
    (w : World) (cls : LoaderClass) (docs : list Document) :
  Names.component (name f) = true ->
  skip && _is_document_processed (name f) w = false ->
  dict_get (lower (suffix (name f))) SUPPORTED_LOADERS = Some cls ->
  loader_load cls (DOCUMENTS_DIR +:+ "/" +:+ name f) (getbuffer f) = Ok docs ->
  let '(chunks, w') := _process_file DOCUMENTS_DIR loader_load split_documents f skip w in
  chunks = split_documents
             (map (add_metadata (DOCUMENTS_DIR +:+ "/" +:+ name f) (name f)
                     (lower (suffix (name f)))) docs) ∧
  documents_dir w' = <[name f := getbuffer f]> (documents_dir w) ∧
  record_file w' = Some (default "" (record_file w) +:+ name f +:+ String LF "") ∧
  (single_line (name f) = true -> record_in_lines w ->
   list_all_processed_documents w' = list_all_processed_documents w ++ [name f]).
Proof. apply process_file_spec. Qed.

End WithParsers.

Lemma process_file_saves_loads_and_records_witness :
  let f := mkUpload "c.txt" [Byte.x63] in
  let w := mkWorld (Some "b.txt") {["b.txt" := [Byte.x62]]} [] in
  let '(chunks, w') :=
    _process_file Sample.DOCUMENTS_DIR Sample.loader_load Sample.split_documents f true w in
  record_file w' = Some ("b.txtc.txt" +:+ String LF "") ∧
  documents_dir w' !! "c.txt" = Some [Byte.x63] ∧
  length chunks = 1.
Proof.
  intros f w.
  assert (true && _is_document_processed (name f) w = false) as Hskip by by vm_compute.
  assert (dict_get (lower (suffix (name f))) SUPPORTED_LOADERS = Some TextLoader)
    as Hcls by by vm_compute.
  assert (∃ docs, length docs = 1 ∧
            Sample.loader_load TextLoader
              (Sample.DOCUMENTS_DIR +:+ "/" +:+ name f) (getbuffer f) = Ok docs)
    as (docs & Hlen & Hload) by (eexists; split; [|by vm_compute]; done).
  pose proof (process_file_saves_loads_and_records Sample.DOCUMENTS_DIR
                Sample.loader_load Sample.split_documents f true w TextLoader docs
                eq_refl Hskip Hcls Hload) as H.
  destruct (_process_file _ _ _ f true w) as [chunks w'].
  destruct H as (Hchunks & Hdir & Hrec & _).
  split; [exact Hrec|]. split.
  - rewrite Hdir. apply lookup_insert_eq.
  - rewrite Hchunks. unfold Sample.split_documents. by rewrite length_map.
Defined.

End RegistryFacts.

(** ** File names that have a loader *)
Module SuffixFacts.
Import Py LangChain Loader PyFacts StringFacts.

Lemma lower_char_dot (c : ascii) : lower_char c = "."%char <-> c = "."%char.
Proof.
  destruct c as [[] [] [] [] [] [] [] []]; vm_compute; split; congruence.
Qed.

Lemma length_lower (s : string) : String.length (lower s) = String.length s.
Proof. induction s as [|c s IH]; [done|]. cbn. by rewrite IH. Qed.

Lemma lower_app (a b : string) : lower (a +:+ b) = lower a +:+ lower b.
Proof.
  induction a as [|c a IH]; [done|].
  rewrite app_cons. cbn [lower]. by rewrite app_cons, IH.
Qed.

Lemma rfind_dot_lower (s : string) : rfind_dot (lower s) = rfind_dot s.
Proof.
  induction s as [|c s IH]; [done|]. cbn [lower rfind_dot]. rewrite IH.
  destruct (rfind_dot s); [done|].
  by rewrite (bool_decide_ext _ _ (lower_char_dot c)).
Qed.

Lemma lower_drop_str (i : nat) (s : string) :
  lower (drop_str i s) = drop_str i (lower s).
Proof.
  revert s. induction i as [|i IH]; intros s; [done|].
  destruct s as [|c s]; [done|]. cbn [drop_str lower]. apply IH.
Qed.

(** Lowering commutes with taking the suffix. *)
Lemma lower_suffix (s : string) : lower (suffix s) = suffix (lower s).
Proof.
  unfold suffix, len. rewrite rfind_dot_lower, length_lower.
  destruct (rfind_dot s) as [i|]; [|done].
  destruct (_ && _); [apply lower_drop_str|done].
Qed.

Lemma take_drop_str (i : nat) (s : string) : take_str i s +:+ drop_str i s = s.
Proof.
  revert s. induction i as [|i IH]; intros s; [done|].
  destruct s as [|c s]; [done|]. cbn [take_str drop_str]. by rewrite app_cons, IH.
Qed.

Lemma take_str_nonempty (i : nat) (s : string) :
  0 < i -> s ≠ "" -> take_str i s ≠ "".
Proof. destruct i; [lia|]. by destruct s. Qed.

Lemma drop_str_app (a b : string) : drop_str (String.length a) (a +:+ b) = b.
Proof. induction a as [|c a IH]; [by destruct b|]. by rewrite app_cons. Qed.

Lemma rfind_dot_app (a e : string) :
  rfind_dot e = None ->
  rfind_dot (a +:+ String "." e) = Some (String.length a).
Proof.
  intros He. induction a as [|c a IH].
  - rewrite app_nil_l. cbn [rfind_dot]. rewrite He. done.
  - rewrite app_cons. cbn [rfind_dot String.length]. by rewrite IH.
Qed.

(** The suffix of a non-empty stem followed by a dot and a dot-free,
    non-empty extension is that extension with its dot. *)
Lemma suffix_stem_ext (stem e : string) :
  stem ≠ "" -> e ≠ "" -> rfind_dot e = None ->
  suffix (stem +:+ String "." e) = String "." e.
Proof.
  intros Hs He Hdot. unfold suffix, len. rewrite rfind_dot_app by done.
  rewrite length_app_str. cbn [String.length].
  assert (0 < String.length stem) by (destruct stem; [done|cbn; lia]).
  assert (0 < String.length e) by (destruct e; [done|cbn; lia]).
  rewrite (proj2 (Nat.ltb_lt _ _)) by lia.
  rewrite (proj2 (Nat.ltb_lt _ _)) by lia.
  apply drop_str_app.
Qed.

Lemma dict_get_Some_in {A} (k : string) (v : A) (d : list (string * A)) :
  dict_get k d = Some v -> (k, v) ∈ d.
Proof.
  induction d as [|[k' v'] d IH]; [done|]. cbn [dict_get].
  case_decide as E; [intros [= ->]; subst; left | intros H; right; by apply IH].
Qed.

(** Every key of the table is a dot followed by a non-empty, dot-free
    extension. *)
Lemma supported_key_shape (k : string) (cls : LoaderClass) :
  (k, cls) ∈ SUPPORTED_LOADERS ->
  ∃ e, k = String "." e ∧ e ≠ "" ∧ rfind_dot e = None.
Proof.
  unfold SUPPORTED_LOADERS. rewrite !elem_of_cons, elem_of_nil.
  intros H. repeat (destruct H as [[= -> ->]|H]; [by eexists|]). done.
Qed.

(** X7.  For a file name that does not begin with a dot, [load_document]
    finds a loader exactly when the name is a non-empty stem followed by an
    extension that, lowered, is a key of [SUPPORTED_LOADERS], and the loader
    is that key's: the letter case of the extension does not matter, only
    the last extension counts, and a name without one has no loader. *)
Theorem supported_names_have_a_stem_and_a_listed_extension
    (name : string) (cls : LoaderClass) :
  Names.component name = true ->
  startswith name "." = false ->
  dict_get (lower (suffix name)) SUPPORTED_LOADERS = Some cls <->
  ∃ stem ext, name = stem +:+ ext ∧ stem ≠ "" ∧
              dict_get (lower ext) SUPPORTED_LOADERS = Some cls.
Proof.
  intros _ _. split.
  - intros Hget.
    assert (suffix name ≠ "") as Hne by (intros E; by rewrite E in Hget).
    unfold suffix in Hne, Hget.
    destruct (rfind_dot name) as [i|] eqn:Hi; [|done].
    destruct (0 <? i) eqn:Hpos; [|done]. cbn [andb] in Hne, Hget.
    destruct (S i <? len name) eqn:Hlen; [|done].
    apply Nat.ltb_lt in Hpos.
    exists (take_str i name), (drop_str i name). split; [by rewrite take_drop_str|].
    split; [|done]. apply take_str_nonempty; [done|]. by intros ->.
  - intros (stem & ext & -> & Hstem & Hget).
    pose proof (dict_get_Some_in _ _ _ Hget) as Hin.
    destruct (supported_key_shape _ _ Hin) as (e & He & Hne & Hdot).
    rewrite lower_suffix, lower_app, He.
    rewrite suffix_stem_ext; [by rewrite <- He|..|done|done].
    intros E. apply (f_equal String.length) in E. rewrite length_lower in E.
    by destruct stem.
Qed.

Lemma supported_names_have_a_stem_and_a_listed_extension_witness :
  dict_get (lower (suffix "Report.final.PDF")) SUPPORTED_LOADERS = Some PyPDFLoader.
Proof.
  apply (supported_names_have_a_stem_and_a_listed_extension
           "Report.final.PDF" PyPDFLoader eq_refl eq_refl).
  exists "Report.final", ".PDF". by repeat split.
Defined.

End SuffixFacts.

(** ** Adding to the index *)
Module GrowthFacts.
Import Py LangChain FaissFacts InvariantFacts StringFacts.
Import Faiss (IntDict, values, dict_set, dict_update_from, enumerate, sorted_items,
  insert_item).

Lemma foldl_insert_list_to_map (l : list (string * Document)) (m : gmap string Document) :
  NoDup l.*1 ->
  foldl (λ m p, <[p.1 := p.2]> m) m l = list_to_map l ∪ m.
Proof.
  revert m. induction l as [|[k v] l IH]; intros m Hnd.
  - cbn. by rewrite (left_id_L ∅ (∪)).
  - cbn [fmap list_fmap fst] in Hnd. apply NoDup_cons in Hnd as [Hk Hl].
    cbn [foldl fst snd list_to_map]. rewrite IH by done.
    rewrite <- insert_union_r by by apply not_elem_of_list_to_map_1.
    by rewrite insert_union_l.
Qed.

Lemma imap_keys_from (k : nat) (ids : list string) :
  (imap (λ j id_, (k + j, id_)) ids).*1 = seq k (length ids).
Proof.
  rewrite fmap_imap. rewrite (imap_ext _ (λ j _, k + j)) by done.
  rewrite (imap_seq_0 ids (λ j, k + j)).
  change (λ j, k + j) with (Nat.add k).
  by rewrite fmap_add_seq, Nat.add_0_r.
Qed.

Lemma imap_values_from (k : nat) (ids : list string) :
  values (imap (λ j id_, (k + j, id_)) ids) = ids.
Proof.
  unfold values. rewrite fmap_imap. rewrite (imap_ext _ (const id)) by done.
  by rewrite imap_const, list_fmap_id.
Qed.

(** A zip of the batches of two lists of the same length pairs batches of
    the same length, and puts the two lists back together. *)
Lemma zip_batches_fuel {A B} (fuel n : nat) (l : list A) (k : list B) :
  1 ≤ n -> length l = length k -> length l ≤ fuel ->
  let work := zip (Loader.batches_fuel fuel n l) (Loader.batches_fuel fuel n k) in
  Forall (λ w, length w.1 = length w.2) work ∧
  concat work.*1 = l ∧ concat work.*2 = k.
Proof.
  intros Hn. revert l k. induction fuel as [|fuel IH]; intros l k Hlen Hfuel.
  - destruct l; [|cbn in Hfuel; lia]. destruct k; [|done].
    cbn. split; [constructor|done].
  - destruct l as [|x l]; destruct k as [|y k]; try (cbn in Hlen; lia).
    { cbn. split; [constructor|done]. }
    cbn [Loader.batches_fuel].
    destruct (IH (drop n (x :: l)) (drop n (y :: k))) as (Hall & Hl & Hk).
    { by rewrite !length_drop, Hlen. }
    { rewrite length_drop. cbn [length] in *. lia. }
    cbv zeta in Hall, Hl, Hk.
    set (r1 := Loader.batches_fuel fuel n (drop n (x :: l))) in *.
    set (r2 := Loader.batches_fuel fuel n (drop n (y :: k))) in *.
    change (zip (take n (x :: l) :: r1) (take n (y :: k) :: r2))
      with ((take n (x :: l), take n (y :: k)) :: zip r1 r2).
    cbv zeta. rewrite !fmap_cons. cbn [concat fst snd]. split; [|split].
    + constructor; [|done]. cbn [fst snd]. by rewrite !length_take, Hlen.
    + rewrite Hl. apply take_drop.
    + rewrite Hk. apply take_drop.
Qed.

Section WithEnvironment.

Variable Vector : Type.
Variable embed : string -> Vector.
Variable uuid4 : nat -> string.
Variable FAISS_INDEX_PATH : string.
Implicit Type f : Faiss.FAISS Vector.
Implicit Type s : Store.VS Vector.

(** The store [f] with the documents [docs] added under the ids [ids]. *)
Local Abbreviation grown f docs ids :=
  (Faiss.mkFAISS
     (Faiss.index f ++ ((λ d, embed (page_content d)) <$> docs%list))
     (list_to_map (zip ids%list docs%list) ∪ Faiss.docstore f)
     (Faiss.index_to_docstore_id f ++
        imap (λ j id_, (length (Faiss.index_to_docstore_id f) + j, id_)) ids%list)).

Lemma add_documents_grows f (docs : list Document) (ids : list string) :
  Faiss.numbered f ->
  length docs = length ids ->
  NoDup ids ->
  Forall (λ id_, Faiss.docstore f !! id_ = None) ids ->
  Faiss.add_documents embed docs ids f = (Ok ids, grown f docs ids).
Proof.
  intros Hnum Hlen Hnd Hfresh. unfold Faiss.add_documents, Faiss.add_texts.
  rewrite length_fmap. rewrite bool_decide_eq_true_2 by done. cbn [negb].
  unfold Faiss.has_duplicates. rewrite bool_decide_eq_true_2 by done. cbn [negb].
  rewrite <- !list_fmap_compose.
  rewrite (list_fmap_ext
             ((λ t, mkDocument t.1 t.2) ∘ (λ d, (page_content d, metadata d))) id docs)
    by (by intros ? [] ?).
  rewrite list_fmap_id.
  assert ((zip ids docs).*1 = ids) as Hfst by (apply fst_zip; lia).
  rewrite Hfst. rewrite bool_decide_eq_false_2; last first.
  { rewrite Exists_exists. intros (x & Hx & [d Hd]).
    eapply Forall_forall in Hfresh; [|done]. congruence. }
  rewrite foldl_insert_list_to_map by by rewrite Hfst.
  by rewrite (dict_update_from_numbered ids _ Hnum).
Qed.

Lemma grown_numbered f (docs : list Document) (ids : list string) :
  Faiss.numbered f -> Faiss.numbered (grown f docs ids).
Proof.
  unfold Faiss.numbered. cbn [Faiss.index_to_docstore_id]. intros Hnum.
  rewrite fmap_app, imap_keys_from, length_app, length_imap, Hnum.
  by rewrite <- seq_app.
Qed.

Lemma grown_app f (docs1 docs2 : list Document) (ids1 ids2 : list string) :
  length docs1 = length ids1 ->
  (∀ x, x ∈ ids1 -> x ∉ ids2) ->
  grown (grown f docs1 ids1) docs2 ids2 = grown f (docs1 ++ docs2) (ids1 ++ ids2).
Proof.
  intros Hlen Hdisj. cbn [Faiss.index Faiss.docstore Faiss.index_to_docstore_id].
  apply f_equal3.
  - by rewrite fmap_app, (assoc_L (++)).
  - rewrite (zip_with_app pair ids1 ids2 docs1 docs2) by done. rewrite list_to_map_app.
    rewrite (assoc_L (∪)). apply (f_equal (λ m, m ∪ Faiss.docstore f)).
    apply map_union_comm.
    apply map_disjoint_spec. intros i x y Hx Hy.
    apply elem_of_list_to_map_2 in Hx, Hy.
    apply elem_of_zip_l in Hx, Hy. by apply (Hdisj i).
  - rewrite <- (assoc_L (++)). f_equal. rewrite imap_app. f_equal.
    apply imap_ext. intros j x _. cbn. rewrite length_app, length_imap. f_equal. lia.
Qed.

Lemma generate_ids_spec (documents : list Document) s :
  let '(ids, s') := Store.generate_ids uuid4 documents s in
  ids = imap (λ j doc, default "" (metadata doc !! "file_name") +:+ "_" +:+
                       uuid4 (Store.uuids_drawn s + j)) documents ∧
  Store.vector_store s' = Store.vector_store s ∧
  Store.disk s' = Store.disk s ∧
  Store.uuids_drawn s' = Store.uuids_drawn s + length documents.
Proof.
  revert s. induction documents as [|doc documents IH]; intros s.
  - cbn. repeat split; lia.
  - cbn [Store.generate_ids]. unfold Store.draw_uuid.
    set (s1 := Store.mkVS _ _ _ _). specialize (IH s1).
    destruct (Store.generate_ids uuid4 documents s1) as [ids s2].
    destruct IH as (-> & Hv & Hd & Hn). subst s1. cbn in *.
    split; [|split; [done|split; [done|lia]]].
    rewrite Nat.add_0_r. f_equal. apply imap_ext. intros j x _. cbn.
    do 3 f_equal. lia.
Qed.

Lemma log_batches_frame n bs s :
  Store.vector_store (Store.log_batches n bs s) = Store.vector_store s ∧
  Store.disk (Store.log_batches n bs s) = Store.disk s ∧
  Store.uuids_drawn (Store.log_batches n bs s) = Store.uuids_drawn s.
Proof.
  revert n s. induction bs as [|b bs IH]; intros n s; [done|].
  cbn [Store.log_batches]. by destruct (IH (S n) (Store.logger INFO
    ("Created batch " +:+ pretty (S n) +:+ ": " +:+ pretty (length b) +:+ " documents") s))
    as (-> & -> & ->).
Qed.

(** The loop never writes the saved index and draws no UUID. *)
Lemma add_batches_frame total i work s :
  Store.disk (Store.add_batches embed total i work s).2 = Store.disk s ∧
  Store.uuids_drawn (Store.add_batches embed total i work s).2 = Store.uuids_drawn s.
Proof.
  revert i s. induction work as [|[batch batch_ids] work IH]; intros i s; [done|].
  cbn [Store.add_batches].
  destruct (match Store.vector_store s with
            | Some f => Faiss.add_documents embed batch batch_ids f
            | None => Faiss.from_documents embed batch batch_ids
            end) as [[x|e] f'].
  - by destruct (IH (S i) (Store.logger INFO
      ("✅ Processed batch " +:+ pretty (S i) +:+ "/" +:+ pretty total)
      (Store.set_store f' s))) as [-> ->].
  - cbn [snd]. by destruct (Store.vector_store s).
Qed.

Lemma add_batches_grows total i (work : list (list Document * list string)) s f :
  Store.vector_store s = Some f ->
  Faiss.numbered f ->
  Forall (λ w, length w.1 = length w.2) work ->
  NoDup (concat work.*2) ->
  Forall (λ id_, Faiss.docstore f !! id_ = None) (concat work.*2) ->
  ∃ s', Store.add_batches embed total i work s = (Ok (), s') ∧
        Store.vector_store s' = Some (grown f (concat work.*1) (concat work.*2)).
Proof.
  revert i s f. induction work as [|[batch batch_ids] work IH];
    intros i s f Hs Hnum Hlen Hnd Hfresh.
  - exists s. split; [done|]. rewrite Hs. f_equal.
    destruct f as [ix ds mp]. cbn.
    by rewrite !(right_id_L [] (++)), (left_id_L ∅ (∪)).
  - cbn [fmap list_fmap concat fst snd] in *.
    apply Forall_cons in Hlen as [Hlen1 Hlen]. cbn [fst snd] in Hlen1.
    apply NoDup_app in Hnd as (Hnd1 & Hdisj & Hnd2).
    apply Forall_app in Hfresh as [Hfresh1 Hfresh2].
    cbn [Store.add_batches]. rewrite Hs.
    rewrite (add_documents_grows f batch batch_ids Hnum Hlen1 Hnd1 Hfresh1).
    set (f1 := grown f batch batch_ids).
    set (s1 := Store.logger _ _ _).
    destruct (IH (S i) s1 f1) as (s' & Hrun & Hstore); try done.
    { by apply grown_numbered. }
    { apply Forall_forall. intros x Hx. subst f1. cbn [Faiss.docstore].
      apply lookup_union_None. split.
      - apply not_elem_of_list_to_map_1. intros Hin.
        apply (Hdisj x); [|done].
        apply list_elem_of_fmap in Hin as ([a b] & -> & Hin).
        by apply elem_of_zip_l in Hin.
      - by eapply Forall_forall in Hfresh2. }
    exists s'. split; [done|]. rewrite Hstore. f_equal.
    subst f1. by apply grown_app.
Qed.

(** The batches of [add_documents] add up to one library call. *)
Lemma add_documents_appends (documents : list Document) (batch_size : nat)
    (ids : option (list string)) s f :
  Store.vector_store s = Some f ->
  Faiss.numbered f ->
  documents ≠ [] ->
  1 ≤ batch_size ->
  let ids' := Store.ids_used uuid4 documents ids s in
  length documents = length ids' ->
  NoDup ids' ->
  Forall (λ id_, Faiss.docstore f !! id_ = None) ids' ->
  let '(r, s') := Store.add_documents embed uuid4 FAISS_INDEX_PATH
                    documents batch_size ids s in
  r = Ok true ∧
  ∃ f', Store.vector_store s' = Some f' ∧
        Store.disk s' = Store.Saved f' ∧
        f' = (Faiss.add_documents embed documents ids' f).2 ∧
        Faiss.index f' = Faiss.index f ++ ((λ d, embed (page_content d)) <$> documents) ∧
        Faiss.index_to_docstore_id f'
        = Faiss.index_to_docstore_id f ++
            imap (λ j id_, (length (Faiss.index_to_docstore_id f) + j, id_)) ids' ∧
        Faiss.docstore f' = list_to_map (zip ids' documents) ∪ Faiss.docstore f.
Proof.
  intros Hs Hnum Hne Hbs ids' Hlen Hnd Hfresh.
  unfold Store.add_documents. destruct documents as [|doc documents]; [done|].
  set (docs := doc :: documents) in *.
  assert (∃ s1, (match ids with
                 | None => Store.generate_ids uuid4 docs s
                 | Some l => (l, s)
                 end) = (ids', s1) ∧ Store.vector_store s1 = Some f)
    as (s1 & -> & Hs1).
  { subst ids'. unfold Store.ids_used. destruct ids as [l|]; [by exists s|].
    pose proof (generate_ids_spec docs s) as Hgen.
    destruct (Store.generate_ids uuid4 docs s) as [l s1].
    destruct Hgen as (_ & Hv & _). exists s1. split; [done|]. by rewrite Hv. }
  rewrite bool_decide_eq_true_2 by done. cbn [negb].
  rewrite bool_decide_eq_false_2 by lia.
  set (batches := Loader.batch_process_documents batch_size docs).
  set (s3 := Store.logger INFO _ (Store.log_batches 0 batches s1)).
  assert (Store.vector_store s3 = Some f) as Hs3.
  { subst s3. cbn [Store.logger Store.vector_store].
    by rewrite (proj1 (log_batches_frame 0 batches s1)). }
  destruct (zip_batches_fuel (length docs) batch_size docs ids' Hbs Hlen ltac:(done))
    as (Hall & Hcat1 & Hcat2).
  assert (zip (Loader.batches_fuel (length docs) batch_size docs)
              (Loader.batches_fuel (length docs) batch_size ids')
          = zip batches (Store.slices batch_size ids')) as Hwork.
  { unfold Store.slices. by rewrite <- Hlen. }
  rewrite Hwork in Hall, Hcat1, Hcat2.
  destruct (add_batches_grows (length batches) 0 _ s3 f Hs3 Hnum Hall) as (s4 & -> & Hs4).
  { by rewrite Hcat2. }
  { by rewrite Hcat2. }
  rewrite Hcat1, Hcat2 in Hs4. rewrite Hs4.
  split; [done|]. eexists. split; [done|]. split; [done|].
  split; [|done].
  by rewrite (add_documents_grows f docs ids' Hnum Hlen Hnd Hfresh).
Qed.

(** X8.  The ids [add_documents] generates when none are passed: one per
    chunk, in order, each made of the chunk's file_name (nothing when it has
    none), an underscore and the next UUID drawn.  They are pairwise
    distinct as soon as the UUIDs drawn are distinct and of one length.
    Generating them touches neither the store nor the saved index. *)
Theorem generated_ids_are_distinct_and_carry_the_source (documents : list Document)
    (L : nat) s :
  (∀ i, i < length documents -> String.length (uuid4 (Store.uuids_drawn s + i)) = L) ->
  (∀ i j, i < length documents -> j < length documents ->
     uuid4 (Store.uuids_drawn s + i) = uuid4 (Store.uuids_drawn s + j) -> i = j) ->
  let '(ids, s') := Store.generate_ids uuid4 documents s in
  NoDup ids ∧
  length ids = length documents ∧
  (∀ j doc, documents !! j = Some doc ->
     ids !! j = Some (default "" (metadata doc !! "file_name") +:+ "_" +:+
                      uuid4 (Store.uuids_drawn s + j))) ∧
  Store.uuids_drawn s' = Store.uuids_drawn s + length documents ∧
  Store.vector_store s' = Store.vector_store s ∧
  Store.disk s' = Store.disk s.
Proof.
  intros Hlen Hinj.
  pose proof (generate_ids_spec documents s) as Hgen.
  destruct (Store.generate_ids uuid4 documents s) as [ids s'].
  destruct Hgen as (-> & Hv & Hd & Hn).
  split; [|split; [by rewrite length_imap|split; [|done]]].
  - apply NoDup_alt. intros i j x Hi Hj.
    apply list_lookup_imap_Some in Hi as (di & Hdi & ->).
    apply list_lookup_imap_Some in Hj as (dj & Hdj & Heq).
    pose proof (lookup_lt_Some _ _ _ Hdi) as Hi'.
    pose proof (lookup_lt_Some _ _ _ Hdj) as Hj'.
    apply Hinj; [done..|].
    rewrite <- !PyFacts.app_assoc in Heq.
    eapply app_inj_tail_length; [|exact Heq].
    by rewrite !Hlen.
  - intros j doc Hdoc. rewrite list_lookup_imap, Hdoc. done.
Qed.

(** X9.  [add_documents] with a batch size of at least 1, on a numbered
    store, for documents that are not empty and ids (given or generated)
    that are as many, pairwise distinct and not in the docstore: it returns
    True, and the new store is what a single [FAISS.add_documents] call with
    all the documents leaves, whatever the batch size.  The vectors are
    appended to the index in order, the ids to the mapping at the next
    positions, the documents enter the docstore under their ids; and this
    store is the one saved. *)
Theorem add_documents_appends_the_chunks (documents : list Document) (batch_size : nat)
    (ids : option (list string)) s f :
  Store.vector_store s = Some f ->
  Faiss.numbered f ->
  documents ≠ [] ->
  1 ≤ batch_size ->
  let ids' := Store.ids_used uuid4 documents ids s in
  length documents = length ids' ->
  NoDup ids' ->
  Forall (λ id_, Faiss.docstore f !! id_ = None) ids' ->
  let '(r, s') := Store.add_documents embed uuid4 FAISS_INDEX_PATH
                    documents batch_size ids s in
  r = Ok true ∧
  ∃ f', Store.vector_store s' = Some f' ∧
        Store.disk s' = Store.Saved f' ∧
        f' = (Faiss.add_documents embed documents ids' f).2 ∧
        Faiss.index f' = Faiss.index f ++ ((λ d, embed (page_content d)) <$> documents) ∧
        Faiss.index_to_docstore_id f'
        = Faiss.index_to_docstore_id f ++
            imap (λ j id_, (length (Faiss.index_to_docstore_id f) + j, id_)) ids' ∧
        Faiss.docstore f' = list_to_map (zip ids' documents) ∪ Faiss.docstore f.
Proof. apply add_documents_appends. Qed.

(** X10.  [add_documents] saves the index exactly when it returns True, and
    then the saved index is the store in memory.  When it returns False or
    raises (no documents, a length mismatch, a batch the library refuses),
    the saved index is the one from before the call. *)
Theorem add_documents_saves_exactly_on_success (documents : list Document)
    (batch_size : nat) (ids : option (list string)) s :
  let '(r, s') := Store.add_documents embed uuid4 FAISS_INDEX_PATH
                    documents batch_size ids s in
  (r = Ok true ->
   ∃ f', Store.vector_store s' = Some f' ∧ Store.disk s' = Store.Saved f') ∧
  (r ≠ Ok true -> Store.disk s' = Store.disk s).
Proof.
  unfold Store.add_documents. destruct documents as [|doc documents]; [done|].
  set (docs := doc :: documents).
  assert (Store.disk (match ids with
                      | None => Store.generate_ids uuid4 docs s
                      | Some l => (l, s)
                      end).2 = Store.disk s) as Hd1.
  { destruct ids as [l|]; [done|].
    pose proof (generate_ids_spec docs s) as Hgen.
    destruct (Store.generate_ids uuid4 docs s) as [l s1]. by destruct Hgen as (_ & _ & ? & _). }
  destruct (match ids with None => _ | Some l => _ end) as [ids' s1]. cbn [snd] in Hd1.
  destruct (negb _); [done|]. case_bool_decide; [done|].
  set (batches := Loader.batch_process_documents batch_size docs).
  set (s3 := Store.logger INFO _ (Store.log_batches 0 batches s1)).
  assert (Store.disk s3 = Store.disk s) as Hd3.
  { subst s3. cbn [Store.logger Store.disk].
    rewrite (proj1 (proj2 (log_batches_frame 0 batches s1))). done. }
  pose proof (proj1 (add_batches_frame (length batches) 0
                       (zip batches (Store.slices batch_size ids')) s3)) as Hd4.
  destruct (Store.add_batches embed _ 0 _ s3) as [[x|e] s4]; cbn [snd] in Hd4.
  - destruct (Store.vector_store s4) as [f4|] eqn:Hf4.
    + split; [|done]. intros _. by exists f4.
    + split; [done|]. intros _. congruence.
  - split; [done|]. intros _. congruence.
Qed.

(** X11.  [delete] and [delete_by_source] save the index exactly when they
    return True, and then the saved index is the store in memory; when they
    return False the saved index is untouched.  [clear], when it returns,
    leaves the empty store in memory and on disk. *)
Theorem removals_save_exactly_on_success s :
  (∀ ids, let '(ok, s') := Store.delete FAISS_INDEX_PATH ids s in
     (ok = true -> ∃ f', Store.vector_store s' = Some f' ∧ Store.disk s' = Store.Saved f') ∧
     (ok = false -> Store.disk s' = Store.disk s)) ∧
  (∀ doc_id, let '(ok, s') := Store.delete_by_source FAISS_INDEX_PATH doc_id s in
     (ok = true -> ∃ f', Store.vector_store s' = Some f' ∧ Store.disk s' = Store.Saved f') ∧
     (ok = false -> Store.disk s' = Store.disk s)) ∧
  (let '(r, s') := Store.clear s in
     (r = Ok () -> Store.vector_store s' = Some Faiss.empty_store ∧
                   Store.disk s' = Store.Saved Faiss.empty_store) ∧
     (r ≠ Ok () -> Store.disk s' = Store.disk s)).
Proof.
  assert (∀ ids s0, Store.disk s0 = Store.disk s ->
            let '(r, s') := Store.delete_then_save FAISS_INDEX_PATH ids s0 in
            match r with
            | Ok _ => ∃ f', Store.vector_store s' = Some f' ∧ Store.disk s' = Store.Saved f'
            | Raise _ => Store.disk s' = Store.disk s
            end) as Hcore.
  { intros ids s0 Hd0. unfold Store.delete_then_save.
    destruct (Store.vector_store s0) as [f|]; [|done].
    destruct (Faiss.delete ids f) as [[x|e] f']; [|done].
    cbn. by exists f'. }
  split; [|split].
  - intros ids. unfold Store.delete. destruct ids as [|id0 ids]; [done|].
    specialize (Hcore (id0 :: ids) s eq_refl).
    destruct (Store.delete_then_save FAISS_INDEX_PATH (id0 :: ids) s) as [[x|e] s1];
      (split; [done|]); done.
  - intros doc_id. unfold Store.delete_by_source.
    case_decide; [done|].
    destruct (Store.vector_store s) as [f|]; [|done].
    destruct (filter _ _) as [|id0 sel]; [done|].
    set (s1 := Store.logger DEBUG _ s).
    specialize (Hcore (id0 :: sel) s1 eq_refl).
    destruct (Store.delete_then_save FAISS_INDEX_PATH (id0 :: sel) s1) as [[x|e] s2];
      (split; [done|]); done.
  - unfold Store.clear. by destruct (Store.vector_store s).
Qed.

End WithEnvironment.
End GrowthFacts.

(** ** Removing from the index *)
Module RemovalFacts.
Import Py LangChain FaissFacts StoreFacts InvariantFacts GrowthFacts.
Import Faiss (IntDict, values, reversed_index, dict_set, dict_update_from, enumerate,
  sorted_items, insert_item, remove_positions, docstore_delete).

Lemma sorted_items_numbered (a : nat) (d : IntDict) :
  d.*1 = seq a (length d) -> sorted_items d = d.
Proof.
  revert a. induction d as [|[k v] d IH]; intros a Hd; [done|].
  cbn [fmap list_fmap fst length seq] in Hd. injection Hd as -> Hd.
  cbn [sorted_items foldr]. fold (sorted_items d). rewrite (IH (S a) Hd).
  destruct d as [|[k' v'] d]; [done|].
  cbn [fmap list_fmap fst length seq] in Hd. injection Hd as -> _.
  cbn [insert_item fst]. rewrite decide_True by lia. done.
Qed.

Lemma imap_pair_zip_seq {A} (k : nat) (l : list A) :
  imap (λ i x, (k + i, x)) l = zip (seq k (length l)) l.
Proof.
  revert k. induction l as [|x l IH]; intros k; [done|].
  cbn [imap length seq zip zip_with]. rewrite Nat.add_0_r. f_equal.
  rewrite <- IH. apply imap_ext. intros i y _. cbn. f_equal. lia.
Qed.

Lemma enumerate_values_numbered (d : IntDict) :
  d.*1 = seq 0 (length d) -> enumerate (values d) = d.
Proof.
  intros Hd. unfold enumerate, values.
  rewrite (imap_ext _ (λ i x, (0 + i, x))) by done.
  rewrite imap_pair_zip_seq, length_fmap, <- Hd. apply zip_fst_snd.
Qed.

Lemma remove_positions_keep {A} (positions : list nat) (k : nat) (l : list A) :
  (∀ i, i < length l -> k + i ∉ positions) ->
  omap (λ '(i, x), if bool_decide (i ∈ positions) then None else Some x)
       (imap (λ i x, (k + i, x)) l) = l.
Proof.
  revert k. induction l as [|x l IH]; intros k H; [done|].
  cbn [imap omap list_omap]. rewrite bool_decide_eq_false_2 by (apply H; cbn; lia).
  f_equal. rewrite <- (IH (S k)) at 2.
  - f_equal. apply imap_ext. intros i y _. cbn. f_equal. lia.
  - intros i Hi. replace (S k + i) with (k + S i) by lia. apply H. cbn. lia.
Qed.

Lemma remove_positions_drop {A} (positions : list nat) (k : nat) (l : list A) :
  (∀ i, i < length l -> k + i ∈ positions) ->
  omap (λ '(i, x), if bool_decide (i ∈ positions) then None else Some x)
       (imap (λ i x, (k + i, x)) l) = [].
Proof.
  revert k. induction l as [|x l IH]; intros k H; [done|].
  cbn [imap omap list_omap]. rewrite bool_decide_eq_true_2 by (apply H; cbn; lia).
  rewrite <- (IH (S k)).
  - f_equal. apply imap_ext. intros i y _. cbn. f_equal. lia.
  - intros i Hi. replace (S k + i) with (k + S i) by lia. apply H. cbn. lia.
Qed.

Lemma remove_positions_tail {A} (positions : list nat) (a b : list A) :
  (∀ i, i < length a -> i ∉ positions) ->
  (∀ j, j < length b -> length a + j ∈ positions) ->
  remove_positions positions (a ++ b) = a.
Proof.
  intros Ha Hb. unfold remove_positions. rewrite imap_app, omap_app. cbv beta.
  pose proof (remove_positions_keep positions 0 a Ha) as Hkeep.
  cbn [Nat.add] in Hkeep. rewrite Hkeep.
  rewrite (remove_positions_drop positions (length a) b) by done.
  apply (right_id_L [] (++)).
Qed.

Lemma filter_keeps_all {A} (P : A -> Prop) `{!∀ x, Decision (P x)} (l : list A) :
  Forall P l -> filter P l = l.
Proof.
  induction 1 as [|x l Hx _ IH]; [done|]. by rewrite filter_cons_True, IH.
Qed.

Lemma filter_drops_all {A} (P : A -> Prop) `{!∀ x, Decision (P x)} (l : list A) :
  Forall (λ x, ¬ P x) l -> filter P l = [].
Proof.
  induction 1 as [|x l Hx _ IH]; [done|]. by rewrite filter_cons_False.
Qed.

Section WithEnvironment.

Variable Vector : Type.
Variable embed : string -> Vector.
Variable uuid4 : nat -> string.
Variable FAISS_INDEX_PATH : string.
Implicit Type f : Faiss.FAISS Vector.
Implicit Type s : Store.VS Vector.

(** [FAISS.delete] on distinct ids that the mapping holds. *)
Lemma delete_present f (ids : list string) :
  let d := Faiss.index_to_docstore_id f in
  Faiss.well_formed f ->
  ids ≠ [] -> NoDup ids -> ids ⊆ values d ->
  Faiss.delete ids f
  = (Ok true,
     Faiss.mkFAISS
       (remove_positions (omap (λ id_, reversed_index id_ d) ids) (Faiss.index f))
       (foldl (λ m id_, base.delete id_ m) (Faiss.docstore f) ids)
       (enumerate (values (filter (λ p, p.2 ∉ ids) (sorted_items d))))).
Proof.
  intros d (Hkeys & Hvals & Hdocs) Hne Hnd Hsub.
  unfold Faiss.delete. fold d.
  rewrite bool_decide_eq_false_2; last first.
  { rewrite Exists_exists. intros (x & Hx & Hnot). apply Hnot, Hsub, Hx. }
  unfold docstore_delete.
  assert (Forall (λ id_, is_Some (Faiss.docstore f !! id_)) ids) as Hpresent.
  { apply Forall_forall. intros x Hx.
    eapply Forall_forall in Hdocs; [done|]. by apply Hsub. }
  rewrite bool_decide_eq_false_2; last first.
  { destruct ids as [|x ids']; [done|].
    intros Hnone. apply Forall_cons in Hnone as [Hnone _].
    apply Forall_cons in Hpresent as [[doc Hdoc] _]. congruence. }
  rewrite docstore_pop_all_ok by done.
  rewrite (filter_ext_in
             (λ p, p.1 ∉ omap (λ id_, reversed_index id_ d) ids)
             (λ p, p.2 ∉ ids) (sorted_items d)); [done|].
  intros [k v] Hin. cbn [fst snd].
  rewrite sorted_items_perm in Hin.
  by rewrite (position_selected d ids k v Hkeys Hvals Hin).
Qed.

(** X12.  [delete] with ids that are not empty, pairwise distinct and all in
    the mapping of a well-formed, numbered store returns True; the ids left
    are the others in their old order, renumbered from 0; the docstore has
    lost exactly the given ids; the result is saved. *)
Theorem delete_removes_exactly_the_given_ids (ids : list string) s f :
  Store.vector_store s = Some f ->
  Faiss.well_formed f -> Faiss.numbered f ->
  ids ≠ [] -> NoDup ids -> ids ⊆ values (Faiss.index_to_docstore_id f) ->
  let '(ok, s') := Store.delete FAISS_INDEX_PATH ids s in
  ok = true ∧
  ∃ f', Store.vector_store s' = Some f' ∧
        Store.disk s' = Store.Saved f' ∧
        values (Faiss.index_to_docstore_id f')
        = filter (λ id_, id_ ∉ ids) (values (Faiss.index_to_docstore_id f)) ∧
        (Faiss.index_to_docstore_id f').*1
        = seq 0 (length (Faiss.index_to_docstore_id f) - length ids) ∧
        (∀ id_, Faiss.docstore f' !! id_
                = if bool_decide (id_ ∈ ids) then None else Faiss.docstore f !! id_).
Proof.
  intros Hs Hwf Hnum Hne Hnd Hsub.
  unfold Store.delete. destruct ids as [|id0 rest] eqn:Hids; [done|].
  rewrite <- Hids in *. clear Hids.
  unfold Store.delete_then_save. rewrite Hs.
  rewrite (delete_present f ids Hwf Hne Hnd Hsub).
  cbn [Store.save Store.set_store Store.vector_store Store.logger Store.save_local
       Store.disk].
  split; [done|]. eexists. split; [done|]. split; [done|].
  cbn [Faiss.index_to_docstore_id Faiss.docstore].
  rewrite (sorted_items_numbered 0) by done.
  assert (values (filter (λ p : nat * string, p.2 ∉ ids) (Faiss.index_to_docstore_id f))
          = filter (λ id_, id_ ∉ ids) (values (Faiss.index_to_docstore_id f))) as Hkept
    by apply (values_filter (λ id_, id_ ∉ ids)).
  rewrite enumerate_values, enumerate_keys, Hkept.
  split; [done|]. split; [|intros id_; apply lookup_pop_all].
  f_equal.
  destruct Hwf as (_ & Hvals & _).
  pose proof (filter_app_complement (λ id_, id_ ∈ ids)
                (values (Faiss.index_to_docstore_id f))) as Hperm.
  apply Permutation_length in Hperm. rewrite length_app in Hperm.
  assert (filter (λ id_, id_ ∈ ids) (values (Faiss.index_to_docstore_id f)) ≡ₚ ids) as Hsel.
  { apply NoDup_Permutation; [by apply NoDup_filter|done|].
    intros x. rewrite list_elem_of_filter. split; [by intros [? _]|].
    intros Hx. split; [done|]. by apply Hsub. }
  apply Permutation_length in Hsel.
  unfold values in *. rewrite length_fmap in Hperm. lia.
Qed.

(** X13.  [delete] with an empty list, or with a list in which some id is
    not in the mapping, returns False and deletes nothing: the store and
    the saved index are as before, also for the ids of the list that the
    store does hold. *)
Theorem delete_refuses_unknown_ids (ids : list string) s f :
  Store.vector_store s = Some f ->
  ids = [] ∨ (∃ id_, id_ ∈ ids ∧ id_ ∉ values (Faiss.index_to_docstore_id f)) ->
  let '(ok, s') := Store.delete FAISS_INDEX_PATH ids s in
  ok = false ∧ Store.vector_store s' = Some f ∧ Store.disk s' = Store.disk s.
Proof.
  intros Hs [->|(x & Hx & Hnot)]; [done|].
  unfold Store.delete. destruct ids as [|id0 rest] eqn:Hids; [by apply elem_of_nil in Hx|].
  rewrite <- Hids in *. clear Hids.
  unfold Store.delete_then_save. rewrite Hs.
  unfold Faiss.delete. rewrite bool_decide_eq_true_2; [done|].
  apply Exists_exists. by exists x.
Qed.

(** Adding the chunks of a source, then deleting the source. *)
Lemma delete_by_source_undoes_add (documents : list Document)
    (batch_size : nat) (doc_id : string) s f :
  Store.vector_store s = Some f ->
  Faiss.well_formed f -> Faiss.numbered f ->
  length (Faiss.index f) = length (Faiss.index_to_docstore_id f) ->
  documents ≠ [] -> 1 ≤ batch_size -> doc_id ≠ "" ->
  Forall (λ d, metadata d !! "file_name" = Some doc_id) documents ->
  Forall (λ id_, ¬ startswith id_ (doc_id +:+ "_") = true)
         (values (Faiss.index_to_docstore_id f)) ->
  let ids := Store.ids_used uuid4 documents None s in
  NoDup ids ->
  Forall (λ id_, Faiss.docstore f !! id_ = None) ids ->
  let '(r, s1) := Store.add_documents embed uuid4 FAISS_INDEX_PATH
                    documents batch_size None s in
  let '(ok, s2) := Store.delete_by_source FAISS_INDEX_PATH doc_id s1 in
  r = Ok true ∧
  Forall (λ id_, startswith id_ (doc_id +:+ "_") = true) ids ∧
  ok = true ∧
  Store.vector_store s2 = Some f ∧
  Store.disk s2 = Store.Saved f.
Proof.
  intros Hs Hwf Hnum Hidx Hne Hbs Hdoc Hsrc Hold ids Hnd Hfresh.
  assert (ids = imap (λ j doc, default "" (metadata doc !! "file_name") +:+ "_" +:+
                               uuid4 (Store.uuids_drawn s + j)) documents) as Hids.
  { subst ids. unfold Store.ids_used.
    pose proof (generate_ids_spec Vector uuid4 documents s) as Hgen.
    destruct (Store.generate_ids uuid4 documents s) as [l s1]. by destruct Hgen. }
  assert (length documents = length ids) as Hlen by by rewrite Hids, length_imap.
  assert (Forall (λ id_, startswith id_ (doc_id +:+ "_") = true) ids) as Hpre.
  { rewrite Hids. apply Forall_forall. intros x Hx.
    apply elem_of_lookup_imap in Hx as (j & doc & -> & Hj).
    eapply Forall_lookup_1 in Hsrc; [|done]. rewrite Hsrc. cbn [default from_option id].
    apply startswith_spec. eexists. by rewrite PyFacts.app_assoc. }
  pose proof (add_documents_appends Vector embed uuid4 FAISS_INDEX_PATH
                documents batch_size None s f Hs Hnum Hne Hbs Hlen Hnd Hfresh) as Hadd.
  fold ids in Hadd.
  destruct (Store.add_documents embed uuid4 FAISS_INDEX_PATH documents batch_size None s)
    as [r s1].
  destruct Hadd as (-> & f1 & Hs1 & _ & Hf1 & Hindex & Hmap & Hdocs).
  set (d := Faiss.index_to_docstore_id f) in *.
  assert (Faiss.well_formed f1) as Hwf1.
  { rewrite Hf1. unfold Faiss.add_documents. by apply add_texts_well_formed. }
  assert (values (Faiss.index_to_docstore_id f1) = values d ++ ids) as Hvals1.
  { rewrite Hmap. unfold values. rewrite fmap_app. f_equal. apply imap_values_from. }
  assert (Forall (λ id_, id_ ∉ ids) (values d)) as Hapart.
  { apply Forall_forall. intros x Hx Hin.
    eapply Forall_forall in Hold; [|done]. eapply Forall_forall in Hpre; done. }
  assert (filter (λ id_, startswith id_ (doc_id +:+ "_") = true)
                 (values (Faiss.index_to_docstore_id f1)) = ids) as Hsel.
  { rewrite Hvals1, filter_app.
    rewrite (filter_drops_all _ (values d)) by done.
    by rewrite (filter_keeps_all _ ids). }
  assert (ids ≠ []) as Hids_ne.
  { intros E. rewrite E in Hlen. by destruct documents. }
  unfold Store.delete_by_source. rewrite decide_False by done. rewrite Hs1, Hsel.
  destruct ids as [|id0 rest] eqn:Eids; [done|]. rewrite <- Eids in *. clear Eids.
  unfold Store.delete_then_save. cbn [Store.logger Store.vector_store]. rewrite Hs1.
  rewrite (delete_present f1 ids Hwf1 Hids_ne Hnd); last first.
  { rewrite Hvals1. intros x Hx. apply elem_of_app. by right. }
  cbn [Store.save Store.set_store Store.vector_store Store.logger Store.save_local
       Store.disk].
  split; [done|]. split; [done|]. split; [done|].
  assert (Faiss.mkFAISS
            (remove_positions
               (omap (λ id_, reversed_index id_ (Faiss.index_to_docstore_id f1)) ids)
               (Faiss.index f1))
            (foldl (λ m id_, base.delete id_ m) (Faiss.docstore f1) ids)
            (enumerate (values (filter (λ p, p.2 ∉ ids)
                                  (sorted_items (Faiss.index_to_docstore_id f1)))))
          = f) as ->; [|done].
  destruct Hwf as (Hkeys & Hvals & Hdocs0).
  destruct Hwf1 as (Hkeys1 & Hvals1' & _).
  destruct f as [ix ds mp]. cbn [Faiss.index Faiss.docstore Faiss.index_to_docstore_id] in *.
  subst d. apply f_equal3.
  - rewrite Hindex. apply remove_positions_tail.
    + intros i Hi Hin. apply list_elem_of_omap in Hin as (x & Hx & Hrev).
      apply reversed_index_elem in Hrev. rewrite Hmap in Hrev.
      apply elem_of_app in Hrev as [Hin|Hin].
      * apply (list_elem_of_fmap_2 snd) in Hin. cbn [snd] in Hin.
        eapply Forall_forall in Hapart; [|exact Hin]. done.
      * apply elem_of_lookup_imap in Hin as (j & y & [= -> ->] & Hj). lia.
    + intros j Hj. rewrite length_fmap, Hlen in Hj.
      apply lookup_lt_is_Some_2 in Hj as [x Hx].
      apply list_elem_of_omap. exists x. split; [by eapply list_elem_of_lookup_2|].
      apply reversed_index_of_item; [done|]. rewrite Hmap.
      apply elem_of_app. right. apply elem_of_lookup_imap. exists j, x.
      split; [by rewrite Hidx|done].
  - apply map_eq. intros x. rewrite lookup_pop_all, Hdocs.
    case_bool_decide as Hin.
    + symmetry. by eapply Forall_forall in Hfresh.
    + apply lookup_union_r. apply not_elem_of_list_to_map_1. intros Hz.
      apply Hin. apply list_elem_of_fmap in Hz as ([a b] & -> & Hz).
      by apply elem_of_zip_l in Hz.
  - rewrite (sorted_items_numbered 0); last first.
    { unfold Faiss.numbered in Hnum. cbn [Faiss.index_to_docstore_id] in Hnum.
      rewrite Hmap, fmap_app, imap_keys_from, length_app, length_imap, Hnum.
      by rewrite <- seq_app. }
    rewrite Hmap. rewrite (filter_app (λ p : nat * string, p.2 ∉ ids)).
    rewrite (filter_keeps_all _ mp); last first.
    { apply Forall_forall. intros [k v] Hkv. cbn [snd].
      apply (list_elem_of_fmap_2 snd) in Hkv.
      eapply Forall_forall in Hapart; [|exact Hkv]. done. }
    rewrite filter_drops_all; last first.
    { apply Forall_forall. intros [k v] Hkv Hnot. cbn [snd] in Hnot. apply Hnot.
      apply elem_of_lookup_imap in Hkv as (j & y & [= -> ->] & Hj).
      by eapply list_elem_of_lookup_2. }
    rewrite (right_id_L [] (++)). by apply enumerate_values_numbered.
Qed.

(** X14.  Adding the chunks of one source to a store that is well formed,
    numbered, holds one vector per id and no id of that source, and then
    calling [delete_by_source] for that source, gives back the store from
    before, in memory and on disk: every generated id starts with the source
    name and an underscore, so [delete_by_source] selects exactly the ids
    just added. *)
Theorem delete_by_source_undoes_add_documents (documents : list Document)
    (batch_size : nat) (doc_id : string) s f :
  Store.vector_store s = Some f ->
  Faiss.well_formed f -> Faiss.numbered f ->
  length (Faiss.index f) = length (Faiss.index_to_docstore_id f) ->
  documents ≠ [] -> 1 ≤ batch_size -> doc_id ≠ "" ->
  Forall (λ d, metadata d !! "file_name" = Some doc_id) documents ->
  Forall (λ id_, ¬ startswith id_ (doc_id +:+ "_") = true)
         (values (Faiss.index_to_docstore_id f)) ->
  let ids := Store.ids_used uuid4 documents None s in
  NoDup ids ->
  Forall (λ id_, Faiss.docstore f !! id_ = None) ids ->
  let '(r, s1) := Store.add_documents embed uuid4 FAISS_INDEX_PATH
                    documents batch_size None s in
  let '(ok, s2) := Store.delete_by_source FAISS_INDEX_PATH doc_id s1 in
  r = Ok true ∧
  Forall (λ id_, startswith id_ (doc_id +:+ "_") = true) ids ∧
  ok = true ∧
  Store.vector_store s2 = Some f ∧
  Store.disk s2 = Store.Saved f.
Proof. apply delete_by_source_undoes_add. Qed.

(** X15.  [add_documents], [delete_by_source] and [clear] keep the store of
    the manager well formed (keys distinct, ids distinct, each id with its
    document) and numbered 0, 1, ..., whatever their arguments and whether
    they succeed or not. *)
Theorem manager_keeps_its_store_well_formed s :
  Store.kept_well s ->
  (∀ documents batch_size ids,
     Store.kept_well
       (Store.add_documents embed uuid4 FAISS_INDEX_PATH documents batch_size ids s).2) ∧
  (∀ doc_id, Store.kept_well (Store.delete_by_source FAISS_INDEX_PATH doc_id s).2) ∧
  Store.kept_well (Store.clear s).2.
Proof.
  intros H. split; [|split].
  - intros. by apply add_documents_kept_well.
  - intros. by apply delete_by_source_kept_well.
  - by apply clear_kept_well.
Qed.

(** X16.  [__init__]: a saved index is loaded as it is, and nothing is drawn
    or written; a missing or unreadable one is replaced by a store of one
    entry, the placeholder text under a newly drawn UUID at position 0,
    which is saved at once. *)
Theorem init_loads_the_saved_index_or_creates_one (d : Store.Disk Vector) (n : nat)
    (log : Log) :
  let s := Store.init embed uuid4 FAISS_INDEX_PATH d n log in
  match d with
  | Store.Saved f =>
      Store.vector_store s = Some f ∧ Store.disk s = Store.Saved f ∧
      Store.uuids_drawn s = n
  | _ =>
      let f := Faiss.mkFAISS [embed Store.SENTINEL_TEXT]
                 {[uuid4 n := mkDocument Store.SENTINEL_TEXT ∅]} [(0, uuid4 n)] in
      Store.vector_store s = Some f ∧ Store.disk s = Store.Saved f ∧
      Store.uuids_drawn s = S n
  end.
Proof.
  assert (Faiss.from_text embed Store.SENTINEL_TEXT (uuid4 n)
          = Faiss.mkFAISS [embed Store.SENTINEL_TEXT]
              {[uuid4 n := mkDocument Store.SENTINEL_TEXT ∅]} [(0, uuid4 n)]) as E.
  { unfold Faiss.from_text, Faiss.add_texts, Faiss.has_duplicates.
    rewrite (bool_decide_eq_true_2 (NoDup [uuid4 n])) by apply NoDup_singleton.
    cbn [length fmap list_fmap zip zip_with fst snd negb].
    rewrite bool_decide_eq_true_2 by done. cbn [negb].
    rewrite bool_decide_eq_false_2; last first.
    { intros [x [Hx [doc Hdoc]]]%Exists_exists.
      unfold Faiss.empty_store in Hdoc. cbn [Faiss.docstore] in Hdoc.
      by rewrite lookup_empty in Hdoc. }
    cbn. by rewrite insert_empty. }
  destruct d as [|why|f]; cbn -[Faiss.from_text]; by rewrite ?E.
Qed.

End WithEnvironment.
End RemovalFacts.

(** ** The index manager on the sample store *)
Module StoreRuns.
Import Py LangChain FaissFacts StoreFacts InvariantFacts GrowthFacts RemovalFacts.
Import Faiss (values).
Import Sample.

Lemma add_documents_appends_the_chunks_witness :
  let docs := [chunk "manual.pdf" "one"; chunk "manual.pdf" "two";
               chunk "notes.txt" "three"] in
  let '(r, s') := Store.add_documents embed uuid4 FAISS_INDEX_PATH docs 2 None vs0 in
  r = Ok true ∧
  ∃ f', Store.vector_store s' = Some f' ∧
        Faiss.index f' = [embed Store.SENTINEL_TEXT; 3; 3; 5].
Proof.
  intros docs.
  set (f := default Faiss.empty_store (Store.vector_store vs0)).
  assert (Store.vector_store vs0 = Some f) as Hs by by vm_compute.
  assert (Faiss.numbered f) as Hnum by by vm_compute.
  assert (docs ≠ []) as Hne by done.
  assert (1 ≤ 2) as Hbs by lia.
  assert (length docs = length (Store.ids_used uuid4 docs None vs0)) as Hlen
    by by vm_compute.
  assert (NoDup (Store.ids_used uuid4 docs None vs0)) as Hnd.
  { apply (bool_decide_unpack _). by vm_compute. }
  assert (Forall (λ id_, Faiss.docstore f !! id_ = None)
                 (Store.ids_used uuid4 docs None vs0)) as Hfresh.
  { apply (bool_decide_unpack _). by vm_compute. }
  pose proof (add_documents_appends_the_chunks Vector embed uuid4 FAISS_INDEX_PATH
                docs 2 None vs0 f Hs Hnum Hne Hbs Hlen Hnd Hfresh) as H.
  destruct (Store.add_documents embed uuid4 FAISS_INDEX_PATH docs 2 None vs0) as [r s'].
  destruct H as (Hr & f' & Hs' & _ & _ & Hindex & _).
  split; [exact Hr|]. exists f'. split; [exact Hs'|]. exact Hindex.
Defined.

Lemma delete_removes_exactly_the_given_ids_witness :
  let ids := ["manual.pdf_00000000-0000-4000-8000-2"; "notes.txt_00000000-0000-4000-8000-3"] in
  let '(ok, s') := Store.delete FAISS_INDEX_PATH ids vs_docs in
  ok = true ∧
  ∃ f', Store.vector_store s' = Some f' ∧
        values (Faiss.index_to_docstore_id f')
        = ["00000000-0000-4000-8000-0"; "manual.pdf_00000000-0000-4000-8000-1"].
Proof.
  intros ids.
  set (f := default Faiss.empty_store (Store.vector_store vs_docs)).
  assert (Store.vector_store vs_docs = Some f) as Hs by by vm_compute.
  assert (Faiss.well_formed f) as Hwf.
  { apply (bool_decide_unpack _). by vm_compute. }
  assert (Faiss.numbered f) as Hnum by by vm_compute.
  assert (ids ≠ []) as Hne by done.
  assert (NoDup ids) as Hnd.
  { apply (bool_decide_unpack _). by vm_compute. }
  assert (ids ⊆ values (Faiss.index_to_docstore_id f)) as Hsub.
  { apply (bool_decide_unpack _). by vm_compute. }
  pose proof (delete_removes_exactly_the_given_ids Vector FAISS_INDEX_PATH
                ids vs_docs f Hs Hwf Hnum Hne Hnd Hsub) as H.
  destruct (Store.delete FAISS_INDEX_PATH ids vs_docs) as [ok s'].
  destruct H as (Hok & f' & Hs' & _ & Hvals & _).
  split; [exact Hok|]. exists f'. split; [exact Hs'|]. exact Hvals.
Defined.

Lemma delete_refuses_unknown_ids_witness :
  let ids := ["manual.pdf_00000000-0000-4000-8000-1"; "manual.pdf_lost"] in
  let '(ok, s') := Store.delete FAISS_INDEX_PATH ids vs_docs in
  ok = false ∧ Store.vector_store s' = Store.vector_store vs_docs.
Proof.
  intros ids.
  set (f := default Faiss.empty_store (Store.vector_store vs_docs)).
  assert (Store.vector_store vs_docs = Some f) as Hs by by vm_compute.
  assert (ids = [] ∨ ∃ id_, id_ ∈ ids ∧ id_ ∉ values (Faiss.index_to_docstore_id f))
    as Hun.
  { right. exists "manual.pdf_lost". split.
    - apply (bool_decide_unpack _). by vm_compute.
    - apply (bool_decide_unpack _). by vm_compute. }
  pose proof (delete_refuses_unknown_ids Vector FAISS_INDEX_PATH ids vs_docs f Hs Hun) as H.
  destruct (Store.delete FAISS_INDEX_PATH ids vs_docs) as [ok s'].
  destruct H as (Hok & Hs' & _). split; [exact Hok|]. by rewrite Hs', Hs.
Defined.

Lemma delete_by_source_undoes_add_documents_witness :
  let docs := [chunk "manual.pdf" "one"; chunk "manual.pdf" "two"] in
  let '(r, s1) := Store.add_documents embed uuid4 FAISS_INDEX_PATH docs 1 None vs0 in
  let '(ok, s2) := Store.delete_by_source FAISS_INDEX_PATH "manual.pdf" s1 in
  r = Ok true ∧ ok = true ∧ Store.vector_store s2 = Store.vector_store vs0.
Proof.
  intros docs.
  set (f := default Faiss.empty_store (Store.vector_store vs0)).
  assert (Store.vector_store vs0 = Some f) as Hs by by vm_compute.
  assert (Faiss.well_formed f) as Hwf.
  { apply (bool_decide_unpack _). by vm_compute. }
  assert (Faiss.numbered f) as Hnum by by vm_compute.
  assert (length (Faiss.index f) = length (Faiss.index_to_docstore_id f)) as Hidx
    by by vm_compute.
  assert (docs ≠ []) as Hne by done.
  assert (1 ≤ 1) as Hbs by lia.
  assert ("manual.pdf" ≠ "") as Hdoc by done.
  assert (Forall (λ d, metadata d !! "file_name" = Some "manual.pdf") docs) as Hsrc
    by by repeat constructor.
  assert (Forall (λ id_, ¬ startswith id_ ("manual.pdf" +:+ "_") = true)
                 (values (Faiss.index_to_docstore_id f))) as Hold.
  { apply (bool_decide_unpack _). by vm_compute. }
  assert (NoDup (Store.ids_used uuid4 docs None vs0)) as Hnd.
  { apply (bool_decide_unpack _). by vm_compute. }
  assert (Forall (λ id_, Faiss.docstore f !! id_ = None)
                 (Store.ids_used uuid4 docs None vs0)) as Hfresh.
  { apply (bool_decide_unpack _). by vm_compute. }
  pose proof (delete_by_source_undoes_add_documents Vector embed uuid4 FAISS_INDEX_PATH
                docs 1 "manual.pdf" vs0 f Hs Hwf Hnum Hidx Hne Hbs Hdoc Hsrc Hold
                Hnd Hfresh) as H.
  destruct (Store.add_documents embed uuid4 FAISS_INDEX_PATH docs 1 None vs0) as [r s1].
  destruct (Store.delete_by_source FAISS_INDEX_PATH "manual.pdf" s1) as [ok s2].
  destruct H as (Hr & _ & Hok & Hs2 & _).
  split; [exact Hr|]. split; [exact Hok|]. by rewrite Hs2, Hs.
Defined.

Lemma manager_keeps_its_store_well_formed_witness :
  Store.kept_well vs_docs ∧
  Store.kept_well (Store.delete_by_source FAISS_INDEX_PATH "manual.pdf" vs_docs).2.
Proof.
  assert (Store.kept_well vs_docs) as H.
  { intros f Hf. assert (Faiss.well_formed f ∧ Faiss.numbered f); [|done].
    assert (f = default Faiss.empty_store (Store.vector_store vs_docs)) as ->
      by by rewrite Hf.
    split; [apply (bool_decide_unpack _); by vm_compute|by vm_compute]. }
  split; [exact H|].
  exact (proj1 (proj2 (manager_keeps_its_store_well_formed Vector embed uuid4
                         FAISS_INDEX_PATH vs_docs H)) "manual.pdf").
Defined.

Lemma generated_ids_are_distinct_and_carry_the_source_witness :
  let docs := [chunk "manual.pdf" "one"; chunk "manual.pdf" "two";
               chunk "notes.txt" "three"] in
  NoDup (Store.generate_ids uuid4 docs vs0).1 ∧
  (Store.generate_ids uuid4 docs vs0).1 !! 2
  = Some "notes.txt_00000000-0000-4000-8000-3".
Proof.
  intros docs.
  assert (∀ i, i < length docs ->
            String.length (uuid4 (Store.uuids_drawn vs0 + i)) = 25) as Hlen.
  { intros [|[|[|i]]] Hi; [reflexivity..|cbn in Hi; lia]. }
  assert (∀ i j, i < length docs -> j < length docs ->
            uuid4 (Store.uuids_drawn vs0 + i) = uuid4 (Store.uuids_drawn vs0 + j) -> i = j)
    as Hinj.
  { intros [|[|[|i]]] [|[|[|j]]] Hi Hj H;
      try reflexivity; try (cbn in Hi, Hj; lia); vm_compute in H; discriminate H. }
  pose proof (generated_ids_are_distinct_and_carry_the_source Vector uuid4
                docs 25 vs0 Hlen Hinj) as H.
  destruct (Store.generate_ids uuid4 docs vs0) as [ids s'].
  destruct H as (Hnd & _ & Hids & _).
  split; [exact Hnd|]. exact (Hids 2 (chunk "notes.txt" "three") eq_refl).
Defined.

End StoreRuns.

(** ** What the memory hooks leave alone *)
Module HookFacts.
Import Py LangChain Memory MemoryFacts.

(** What the retrieval hook can change. *)
Lemma retrieval_changes_only_the_system_prompt_core (env : Env) (c : Ctx) :
  let '(r, c') := retrieve_similar_history_middleware env c in
  state c' = state c ∧
  chroma_store c' = chroma_store c ∧
  log c' = log c ∧
  (∀ k, k ≠ "system" -> kwargs (runtime c') !! k = kwargs (runtime c) !! k) ∧
  (match last_message (getattr_messages (state c)) with
   | None | Some (AIMessage _ _ _) => True
   | Some m => content_truthy (msg_content m) = false
   end -> r = Ok () ∧ c' = c).
Proof.
  unfold retrieve_similar_history_middleware.
  destruct (last_message _) as [m|]; [|done].
  set (query := if bool_decide (msg_type m = "human") then _ else _).
  assert (match m with
          | AIMessage _ _ _ => True
          | _ => content_truthy (msg_content m) = false
          end -> content_truthy query = false) as Hskip.
  { subst query. by destruct m. }
  destruct (content_truthy query) eqn:Hq; cbn [negb]; [|done].
  assert (∀ P : Prop, match m with
                      | AIMessage _ _ _ => True
                      | _ => content_truthy (msg_content m) = false
                      end -> P) as Hno.
  { intros P Hm. specialize (Hskip Hm). congruence. }
  destruct (similarity_search env (chroma_store c) query 3) as [[|d results]|e].
  - done.
  - split; [done|]. split; [done|]. split; [done|]. split; [|apply Hno].
    intros k Hk. cbn. by rewrite lookup_insert_ne.
  - split; [done|]. split; [done|]. split; [done|]. split; [done|apply Hno].
Qed.

(** X17.  [retrieve_similar_history_middleware] never changes the state,
    the long-term store or the log, and of [runtime.kwargs] only the entry
    system.  When the history is empty, ends in an Assistant message, or
    ends in a message with empty content, it returns normally and changes
    nothing at all: the store is not searched, whatever the search would
    do. *)
Theorem retrieval_changes_only_the_system_prompt (env : Env) (c : Ctx) :
  let '(r, c') := retrieve_similar_history_middleware env c in
  state c' = state c ∧
  chroma_store c' = chroma_store c ∧
  log c' = log c ∧
  (∀ k, k ≠ "system" -> kwargs (runtime c') !! k = kwargs (runtime c) !! k) ∧
  (match last_message (getattr_messages (state c)) with
   | None | Some (AIMessage _ _ _) => True
   | Some m => content_truthy (msg_content m) = false
   end -> r = Ok () ∧ c' = c).
Proof. apply retrieval_changes_only_the_system_prompt_core. Qed.

Section WithHash.
Variable md5_hexdigest : string -> string.

Lemma try_save_frame (env : Env) (content role saved failed : string) (c : Ctx) :
  let c' := try_save md5_hexdigest env content role saved failed c in
  state c' = state c ∧ runtime c' = runtime c ∧
  dom (chroma_store c) ⊆ dom (chroma_store c') ∧
  (add_texts_raises env ≠ None -> chroma_store c' = chroma_store c).
Proof.
  unfold try_save, add_texts. destruct (add_texts_raises env) as [e|]; cbn.
  - done.
  - split; [done|]. split; [done|]. split; [|done].
    rewrite dom_insert. apply union_subseteq_r.
Qed.

(** X18.  The two saving hooks always return normally and leave state and
    runtime as they are; they never remove an entry of the long-term store;
    and when the store refuses the write they leave it unchanged. *)
Theorem save_hooks_never_raise_nor_forget (env : Env) (c : Ctx) :
  (let '(r, c') := save_user_messages_middleware md5_hexdigest env c in
   r = Ok () ∧ state c' = state c ∧ runtime c' = runtime c ∧
   dom (chroma_store c) ⊆ dom (chroma_store c') ∧
   (add_texts_raises env ≠ None -> chroma_store c' = chroma_store c)) ∧
  (let '(r, c') := save_assistant_response_middleware md5_hexdigest env c in
   r = Ok () ∧ state c' = state c ∧ runtime c' = runtime c ∧
   dom (chroma_store c) ⊆ dom (chroma_store c') ∧
   (add_texts_raises env ≠ None -> chroma_store c' = chroma_store c)).
Proof.
  split.
  - unfold save_user_messages_middleware.
    destruct (last_message _) as [m|]; [|done].
    destruct (_ || _); [|done]. destruct (_ && _); [|done].
    split; [done|]. apply try_save_frame.
  - unfold save_assistant_response_middleware.
    destruct (state c) as [ms sys [resp|]|items] eqn:Hst; try done.
    destruct (resp_tool_calls resp) as [[|tc tcs]|]; try done.
    + destruct (_ && _); [|done]. split; [done|].
      rewrite <- Hst. apply try_save_frame.
    + destruct (_ && _); [|done]. split; [done|].
      rewrite <- Hst. apply try_save_frame.
Qed.

End WithHash.
End HookFacts.

(** ** What a turn writes to the long-term store *)
Module TurnFacts.
Import Py LangChain Chain MemoryFacts AgentFacts.

Section WithHash.
Variable md5_hexdigest : string -> string.

(** X19.  One model turn of the agent, on the dict it keeps, when the
    model answers: the turn completes after the six stages; the messages
    are then what the summarizer made of the old ones, followed by the
    answer, and the other items of the dict are as before; the runtime is
    unchanged (no history is injected), the long-term store is unchanged
    (neither the question nor the answer is stored) and nothing is
    logged. *)
Theorem turn_leaves_the_long_term_memory_untouched (env : AgentEnv)
    (items : gmap string (list Memory.Message)) (rt : Memory.Runtime)
    (store : gmap string Memory.Entry) (log : Log) (tr : list Stage)
    (answer : Memory.Message) :
  model env
    (Memory.StateDict
       (<["messages" := summarization env 4000 20 (default [] (items !! "messages"))]>
          items)) rt
  = Ok answer ->
  agent_turn md5_hexdigest env
    (mkTurn (Memory.mkCtx (Memory.StateDict items) rt store log) tr)
  = (Ok (),
     mkTurn
       (Memory.mkCtx
          (Memory.StateDict
             (<["messages" := summarization env 4000 20 (default [] (items !! "messages"))
                              ++ [answer]]> items))
          rt store log)
       (tr ++ [Sanitizer; Summarization; HistoryRetrieval; UserPersistence;
               ModelCall; AssistantPersistence])).
Proof.
  intros Hmodel. rewrite agent_turn_on_dict.
  cbn [state_messages set_state_messages]. rewrite Hmodel.
  by rewrite lookup_insert_eq, insert_insert_eq.
Qed.

End WithHash.

Import Sample.

Lemma turn_leaves_the_long_term_memory_untouched_witness :
  let '(r, t') := agent_turn md5_hexdigest (agent_env env_up) (mkTurn ctx_question []) in
  r = Ok () ∧
  Memory.chroma_store (ctx t') = ∅ ∧
  Memory.runtime (ctx t') = Memory.mkRuntime ∅ ∧
  state_messages (Memory.state (ctx t'))
  = [ Memory.HumanMessage (Memory.Text "what is in manual.pdf?") None;
      Memory.AIMessage (Memory.Text "It is the manual.") [] None ].
Proof.
  unfold ctx_question.
  rewrite (turn_leaves_the_long_term_memory_untouched md5_hexdigest (agent_env env_up)
             {["messages" := [Memory.HumanMessage (Memory.Text "what is in manual.pdf?")
                                None]]}
             (Memory.mkRuntime ∅) ∅ [] []
             (Memory.AIMessage (Memory.Text "It is the manual.") [] None) eq_refl).
  cbn [ctx Memory.state Memory.chroma_store Memory.runtime state_messages].
  rewrite lookup_insert_eq. cbn [default from_option id agent_env summarization].
  rewrite lookup_singleton_eq. by repeat split.
Defined.

End TurnFacts.

(** ** The retrieval tool and the session cache *)
Module ToolFacts.
Import Py LangChain Chain Tool PyFacts.

Lemma join_formatted_starts (docs : list Document) (d : Document) :
  ∃ rest, join (String LF (String LF "")) (map format_doc (d :: docs))
          = String "<" rest.
Proof.
  cbn [map]. destruct (map format_doc docs) as [|x l]; cbn [join]; by eexists.
Qed.

(** X20.  [RetrievalTool._run]: when the retriever returns documents,
    [get_last_docs] returns exactly them afterwards and the result is a
    text, the sentence No relevant documents found. exactly when there are
    none; when the retriever raises, [_run] raises the same and
    [get_last_docs] still returns the documents of the retrieval before. *)
Theorem retrieval_tool_reports_and_remembers (invoke : string -> Result (list Document))
    (query : string) (tool : RetrievalTool) :
  let '(r, tool') := _run invoke query tool in
  match invoke query with
  | Ok docs =>
      get_last_docs tool' = docs ∧
      (r = Ok "No relevant documents found." <-> docs = []) ∧
      (∃ text, r = Ok text)
  | Raise e => r = Raise e ∧ get_last_docs tool' = get_last_docs tool
  end.
Proof.
  unfold _run. destruct (invoke query) as [[|d docs]|e]; [|  |done].
  { split; [done|]. split; [done|by eexists]. }
  split; [done|]. split; [|by eexists].
  destruct (join_formatted_starts docs d) as [rest ->]. split; [|done].
  intros [=].
Qed.

(** X21.  [get_conversational_chain] caches the chain of the session and
    keeps every session cached before.  [clear_session] on a cached session
    raises AttributeError (the chain has no [clear_memory]) before the entry
    is deleted: the session stays cached, and a later
    [get_conversational_chain] constructs nothing.  On a session that is
    not cached [clear_session] does nothing. *)
Theorem cached_sessions_are_never_released (session_id : string) (p : Process) :
  let p1 := get_conversational_chain session_id p in
  session_id ∈ _sessions p1 ∧
  (∀ other, other ∈ _sessions p -> other ∈ _sessions p1) ∧
  (∃ e, clear_session session_id p1 = (Raise (AttributeError e), p1)) ∧
  get_conversational_chain session_id (clear_session session_id p1).2 = p1 ∧
  (session_id ∉ _sessions p -> clear_session session_id p = (Ok (), p)).
Proof.
  cbv zeta.
  assert (session_id ∈ _sessions (get_conversational_chain session_id p)) as Hin.
  { unfold get_conversational_chain. case_bool_decide; [done|]. left. }
  split; [done|]. split; [|split; [|split]].
  - intros other Ho. unfold get_conversational_chain. case_bool_decide; [done|]. by right.
  - unfold clear_session. rewrite bool_decide_eq_true_2 by done. by eexists.
  - unfold clear_session. rewrite bool_decide_eq_true_2 by done. cbn [snd].
    unfold get_conversational_chain at 1. by rewrite bool_decide_eq_true_2.
  - intros Hout. unfold clear_session. by rewrite bool_decide_eq_false_2.
Qed.

End ToolFacts.

(** ** The reference files of an answer *)
Module WebFacts.
Import Py LangChain Web.

Local Abbreviation file_name_of :=
  (λ doc : Document, default "Unknown document" (metadata doc !! "file_name")).

Lemma reference_fold (docs : list Document) (seen : gset string) (l : list string) :
  seen = list_to_set l -> NoDup l ->
  let '(seen', l') := foldl reference_step (seen, l) docs in
  seen' = list_to_set l' ∧ NoDup l' ∧
  l `prefix_of` l' ∧
  (∀ f, f ∈ l' <-> f ∈ l ∨ f ∈ file_name_of <$> docs) ∧
  (drop (length l) l') `sublist_of` (file_name_of <$> docs).
Proof.
  revert seen l. induction docs as [|doc docs IH]; intros seen l Hseen Hnd.
  - cbn [foldl]. split; [done|]. split; [done|]. split; [done|]. split.
    + intros f. rewrite fmap_nil, elem_of_nil. tauto.
    + by rewrite drop_all.
  - cbn [foldl]. unfold reference_step at 2.
    destruct (decide (file_name_of doc ∈ seen)) as [Hin|Hout].
    + rewrite bool_decide_eq_true_2 by done.
      specialize (IH seen l Hseen Hnd).
      destruct (foldl reference_step (seen, l) docs) as [seen' l'].
      destruct IH as (H1 & H2 & H3 & H4 & H5).
      split; [done|]. split; [done|]. split; [done|]. split.
      * intros f. rewrite H4, fmap_cons, elem_of_cons.
        split; [tauto|]. intros [?|[->|?]]; [tauto| |tauto].
        left. rewrite Hseen in Hin. by apply elem_of_list_to_set in Hin.
      * rewrite fmap_cons. by apply sublist_cons.
    + rewrite bool_decide_eq_false_2 by done.
      assert (file_name_of doc ∉ l) as Hout'.
      { intros Hl. apply Hout. rewrite Hseen. by apply elem_of_list_to_set. }
      specialize (IH ({[file_name_of doc]} ∪ seen) (l ++ [file_name_of doc])).
      destruct (foldl reference_step _ docs) as [seen' l'].
      destruct IH as (H1 & H2 & H3 & H4 & H5).
      { rewrite Hseen, list_to_set_app_L. cbn [list_to_set].
        rewrite (right_id_L ∅ (∪)). apply (comm_L (∪)). }
      { apply NoDup_app. split; [done|]. split; [|apply NoDup_singleton].
        intros x Hx ->%list_elem_of_singleton. done. }
      split; [done|]. split; [done|]. split.
      { etrans; [|exact H3]. by apply prefix_app_r. }
      split.
      * intros f. rewrite H4, elem_of_app, list_elem_of_singleton, fmap_cons, elem_of_cons.
        tauto.
      * rewrite fmap_cons. destruct H3 as [k ->].
        rewrite drop_app_length in H5.
        rewrite <- (assoc_L (++)), drop_app_length. cbn [app].
        by apply sublist_skip.
Qed.

(** X22.  The reference files shown under an answer are the file names of
    the retrieved documents (Unknown document for a document without one),
    each once, in the order of first appearance: the list has no
    duplicates, holds exactly the names of the documents, is a sublist of
    the names in document order, and starts with the name of the first
    document. *)
Theorem reference_files_lists_each_file_once (docs : list Document) :
  NoDup (reference_files docs) ∧
  (∀ f, f ∈ reference_files docs <-> f ∈ file_name_of <$> docs) ∧
  reference_files docs `sublist_of` (file_name_of <$> docs) ∧
  head (reference_files docs) = head (file_name_of <$> docs).
Proof.
  assert (reference_files docs = (foldl reference_step (∅, []) docs).2) as ->
    by by destruct docs.
  pose proof (reference_fold docs ∅ [] eq_refl (NoDup_nil_2)) as H.
  assert (head (foldl reference_step (∅, []) docs).2 = head (file_name_of <$> docs)) as Hh.
  { destruct docs as [|doc docs]; [done|].
    cbn [foldl]. unfold reference_step at 2.
    rewrite bool_decide_eq_false_2 by apply not_elem_of_empty.
    pose proof (reference_fold docs ({[file_name_of doc]} ∪ ∅) ([] ++ [file_name_of doc]))
      as H'.
    destruct (foldl reference_step _ docs) as [seen' l'].
    destruct H' as (_ & _ & [k ->] & _).
    { cbn. by rewrite !(right_id_L ∅ (∪)). }
    { apply NoDup_singleton. }
    done. }
  destruct (foldl reference_step (∅, []) docs) as [seen' l'].
  destruct H as (_ & Hnd & _ & Hin & Hsub). cbn [snd] in *.
  split; [done|]. split; [|split; [|done]].
  - intros f. rewrite Hin, elem_of_nil. tauto.
  - done.
Qed.

End WebFacts.

(** ** Uploading, deleting and clearing through the chain *)
Module UploadFacts.
Import Py LangChain PyFacts LoaderFacts FaissFacts StoreFacts InvariantFacts.
Import RegistryFacts GrowthFacts RemovalFacts.
Import Faiss (values).

Section WithServices.

Variable DOCUMENTS_DIR PROCESSED_DOCS_RECORD FAISS_INDEX_PATH : string.
Variable loader_load : Loader.LoaderClass -> string -> Loader.Bytes -> Result (list Document).
Variable split_documents : list Document -> list Document.
Variable Vector : Type.
Variable embed : string -> Vector.
Variable uuid4 : nat -> string.

Local Abbreviation add_documents :=
  (Chain.add_documents DOCUMENTS_DIR FAISS_INDEX_PATH loader_load split_documents
     embed uuid4).
Local Abbreviation delete_documents := (Chain.delete_documents FAISS_INDEX_PATH).
Local Abbreviation clear_documents :=
  (Chain.clear_documents DOCUMENTS_DIR PROCESSED_DOCS_RECORD).

(** The chunks [load_document] makes of an upload whose parser returns
    [docs]. *)
Local Abbreviation chunks_of file docs :=
  (split_documents
     (map (Loader.add_metadata (DOCUMENTS_DIR +:+ "/" +:+ Loader.name file)
             (Loader.name file) (lower (suffix (Loader.name file)))) docs)).

(** An upload that is accepted and not on record. *)
Lemma upload_spec (file : Loader.UploadedFile) (s : Chain.Services Vector)
    (cls : Loader.LoaderClass) (docs : list Document) (f : Faiss.FAISS Vector) :
  Names.component (Loader.name file) = true ->
  Loader._is_document_processed (Loader.name file) (Chain.document_loader s) = false ->
  Loader.dict_get (lower (suffix (Loader.name file))) Loader.SUPPORTED_LOADERS = Some cls ->
  loader_load cls (DOCUMENTS_DIR +:+ "/" +:+ Loader.name file) (Loader.getbuffer file)
    = Ok docs ->
  chunks_of file docs ≠ [] ->
  Store.vector_store (Chain.faiss_store s) = Some f ->
  Faiss.numbered f ->
  let ids := Store.ids_used uuid4 (chunks_of file docs) None (Chain.faiss_store s) in
  NoDup ids ->
  Forall (λ id_, Faiss.docstore f !! id_ = None) ids ->
  let '(r, s') := add_documents file s in
  r = Ok None ∧
  Loader.record_file (Chain.document_loader s')
  = Some (default "" (Loader.record_file (Chain.document_loader s)) +:+
          Loader.name file +:+ String LF "") ∧
  (single_line (Loader.name file) = true ->
   Loader.record_in_lines (Chain.document_loader s) ->
   Loader.list_all_processed_documents (Chain.document_loader s')
   = Loader.list_all_processed_documents (Chain.document_loader s) ++ [Loader.name file]) ∧
  Loader.documents_dir (Chain.document_loader s')
  = <[Loader.name file := Loader.getbuffer file]>
      (Loader.documents_dir (Chain.document_loader s)) ∧
  Store.add_documents embed uuid4 FAISS_INDEX_PATH (chunks_of file docs) 10 None
    (Chain.faiss_store s) = (Ok true, Chain.faiss_store s') ∧
  ∃ f', Store.vector_store (Chain.faiss_store s') = Some f' ∧
        Store.disk (Chain.faiss_store s') = Store.Saved f' ∧
        Faiss.index f'
        = Faiss.index f ++ ((λ d, embed (page_content d)) <$> chunks_of file docs) ∧
        values (Faiss.index_to_docstore_id f')
        = values (Faiss.index_to_docstore_id f) ++ ids.
Proof.
  intros Hc Hnew Hcls Hload Hchunks Hs Hnum ids Hnd Hfresh.
  unfold Chain.add_documents.
  pose proof (process_file_spec DOCUMENTS_DIR loader_load split_documents file true
                (Chain.document_loader s) cls docs Hc) as Hproc.
  rewrite Hnew in Hproc. specialize (Hproc eq_refl Hcls Hload).
  destruct (Loader._process_file DOCUMENTS_DIR loader_load split_documents file true
              (Chain.document_loader s)) as [chunks w].
  destruct Hproc as (-> & Hdir & Hrec & Hlist).
  set (chunks := chunks_of file docs) in *.
  assert (∀ (A : Type) (x y : A), match chunks with [] => x | _ :: _ => y end = y)
    as Hmatch by (intros; by destruct chunks).
  rewrite Hmatch.
  assert (length chunks = length ids) as Hlen.
  { subst ids. unfold Store.ids_used.
    pose proof (generate_ids_spec Vector uuid4 chunks (Chain.faiss_store s)) as Hgen.
    destruct (Store.generate_ids uuid4 chunks (Chain.faiss_store s)) as [l s1].
    destruct Hgen as (-> & _). cbn [fst]. by rewrite length_imap. }
  pose proof (add_documents_appends Vector embed uuid4 FAISS_INDEX_PATH chunks 10 None
                (Chain.faiss_store s) f Hs Hnum Hchunks ltac:(lia)
                Hlen Hnd Hfresh) as Hadd.
  destruct (Store.add_documents embed uuid4 FAISS_INDEX_PATH chunks 10 None
              (Chain.faiss_store s)) as [r vs].
  destruct Hadd as (-> & f' & Hvs & Hdisk & _ & Hindex & Hmap & _).
  cbn [Chain.document_loader Chain.faiss_store].
  split; [done|]. split; [done|]. split; [done|]. split; [done|]. split; [done|].
  exists f'. split; [done|]. split; [done|]. split; [done|].
  rewrite Hmap. unfold values. rewrite fmap_app. f_equal. apply imap_values_from.
Qed.

(** X23.  [add_documents] of the chain on an upload with a file name that is
    not on record, whose parser returns documents and whose chunks are not
    empty, with a numbered store and generated ids that are distinct and
    new: it returns no message; the name, followed by a newline, is written
    at the end of the record file, whatever the file held (a new entry of
    the list when the record held complete lines and the name has no line
    boundary; the continuation of the last line when a delete has left the
    record without final newline); the bytes are saved under the name; the
    store is the one [FAISSVectorStore.add_documents] leaves for the chunks
    with batches of 10, the chunks' vectors and ids after those already
    there; and it is saved. *)
Theorem upload_records_the_file_and_indexes_its_chunks (file : Loader.UploadedFile)
    (s : Chain.Services Vector) (cls : Loader.LoaderClass) (docs : list Document)
    (f : Faiss.FAISS Vector) :
  Names.component (Loader.name file) = true ->
  Loader._is_document_processed (Loader.name file) (Chain.document_loader s) = false ->
  Loader.dict_get (lower (suffix (Loader.name file))) Loader.SUPPORTED_LOADERS = Some cls ->
  loader_load cls (DOCUMENTS_DIR +:+ "/" +:+ Loader.name file) (Loader.getbuffer file)
    = Ok docs ->
  chunks_of file docs ≠ [] ->
  Store.vector_store (Chain.faiss_store s) = Some f ->
  Faiss.numbered f ->
  let ids := Store.ids_used uuid4 (chunks_of file docs) None (Chain.faiss_store s) in
  NoDup ids ->
  Forall (λ id_, Faiss.docstore f !! id_ = None) ids ->
  let '(r, s') := add_documents file s in
  r = Ok None ∧
  Loader.record_file (Chain.document_loader s')
  = Some (default "" (Loader.record_file (Chain.document_loader s)) +:+
          Loader.name file +:+ String LF "") ∧
  (single_line (Loader.name file) = true ->
   Loader.record_in_lines (Chain.document_loader s) ->
   Loader.list_all_processed_documents (Chain.document_loader s')
   = Loader.list_all_processed_documents (Chain.document_loader s) ++ [Loader.name file]) ∧
  Loader.documents_dir (Chain.document_loader s')
  = <[Loader.name file := Loader.getbuffer file]>
      (Loader.documents_dir (Chain.document_loader s)) ∧
  Store.add_documents embed uuid4 FAISS_INDEX_PATH (chunks_of file docs) 10 None
    (Chain.faiss_store s) = (Ok true, Chain.faiss_store s') ∧
  ∃ f', Store.vector_store (Chain.faiss_store s') = Some f' ∧
        Store.disk (Chain.faiss_store s') = Store.Saved f' ∧
        Faiss.index f'
        = Faiss.index f ++ ((λ d, embed (page_content d)) <$> chunks_of file docs) ∧
        values (Faiss.index_to_docstore_id f')
        = values (Faiss.index_to_docstore_id f) ++ ids.
Proof. apply upload_spec. Qed.

(** X24.  Upload, then [delete_documents] of the same name.  Assume a
    record of complete, non-blank lines that does not list the name; an
    upload with a file name without line boundary, whose parser returns
    documents and whose chunks are not empty and carry the name; a store
    that is well formed and numbered, with as many vectors as ids, none of
    its ids beginning with the name and an underscore; generated ids that
    are distinct and new.  Then the index and the saved index are again
    those before the upload, no copy is saved under the name, and the list
    of processed documents reads as before.  The record file is not the
    old one: it is the old names joined by newlines, without the final
    newline, so when names are left the next recorded name continues the
    last of them. *)
Theorem delete_documents_after_an_upload (file : Loader.UploadedFile)
    (s : Chain.Services Vector) (cls : Loader.LoaderClass) (docs : list Document)
    (f : Faiss.FAISS Vector) :
  Names.component (Loader.name file) = true ->
  single_line (Loader.name file) = true ->
  Loader.record_in_lines (Chain.document_loader s) ->
  Forall (λ l, l ≠ "") (Loader.list_all_processed_documents (Chain.document_loader s)) ->
  Loader.name file ∉ Loader.list_all_processed_documents (Chain.document_loader s) ->
  Loader.dict_get (lower (suffix (Loader.name file))) Loader.SUPPORTED_LOADERS = Some cls ->
  loader_load cls (DOCUMENTS_DIR +:+ "/" +:+ Loader.name file) (Loader.getbuffer file)
    = Ok docs ->
  chunks_of file docs ≠ [] ->
  Forall (λ d, metadata d !! "file_name" = Some (Loader.name file)) (chunks_of file docs) ->
  Store.vector_store (Chain.faiss_store s) = Some f ->
  Faiss.well_formed f -> Faiss.numbered f ->
  length (Faiss.index f) = length (Faiss.index_to_docstore_id f) ->
  Forall (λ id_, ¬ startswith id_ (Loader.name file +:+ "_") = true)
         (values (Faiss.index_to_docstore_id f)) ->
  let ids := Store.ids_used uuid4 (chunks_of file docs) None (Chain.faiss_store s) in
  NoDup ids ->
  Forall (λ id_, Faiss.docstore f !! id_ = None) ids ->
  let '(r, s1) := add_documents file s in
  let s2 := delete_documents (Loader.name file) s1 in
  let names := Loader.list_all_processed_documents (Chain.document_loader s) in
  r = Ok None ∧
  Loader.list_all_processed_documents (Chain.document_loader s2) = names ∧
  Loader.record_file (Chain.document_loader s2) = Some (join (String LF "") names) ∧
  (names ≠ [] ->
   Loader.record_file (Chain.document_loader s)
   = Some (join (String LF "") names +:+ String LF "")) ∧
  Loader.documents_dir (Chain.document_loader s2)
  = delete (Loader.name file) (Loader.documents_dir (Chain.document_loader s)) ∧
  Store.vector_store (Chain.faiss_store s2) = Some f ∧
  Store.disk (Chain.faiss_store s2) = Store.Saved f.
Proof.
  intros Hc Hn Hw Hnonempty Hnew Hcls Hload Hchunks Hsrc Hs Hwf Hnum Hidx Hold ids
    Hnd Hfresh.
  assert (Loader.name file ≠ "") as Hne by (intros E; by rewrite E in Hc).
  assert (∀ v x, Loader._is_document_processed x v
                 = bool_decide (x ∈ Loader.list_all_processed_documents v)) as Hdef.
  { intros v x.
    unfold Loader._is_document_processed, Loader.list_all_processed_documents, str_in.
    destruct (Loader.record_file v); [done|].
    symmetry. apply bool_decide_eq_false_2, not_elem_of_nil. }
  assert (Forall (λ l, single_line l = true)
                 (Loader.list_all_processed_documents (Chain.document_loader s))) as Hsingle.
  { unfold Loader.record_in_lines in Hw. unfold Loader.list_all_processed_documents.
    destruct (Loader.record_file (Chain.document_loader s)) as [content|]; [|constructor].
    destruct Hw as (lines & Hl & ->). by rewrite read_record_complete_lines. }
  pose proof (upload_spec file s cls docs f Hc
                ltac:(by rewrite Hdef, bool_decide_eq_false_2)
                Hcls Hload Hchunks Hs Hnum Hnd Hfresh) as Hup.
  pose proof (delete_by_source_undoes_add Vector embed uuid4 FAISS_INDEX_PATH
                (chunks_of file docs) 10 (Loader.name file) (Chain.faiss_store s) f
                Hs Hwf Hnum Hidx Hchunks ltac:(lia) Hne Hsrc Hold Hnd Hfresh) as Hround.
  destruct (Chain.add_documents _ _ _ _ _ _ file s) as [r s1].
  destruct Hup as (-> & _ & Hlist & Hdir & Hadd & _).
  specialize (Hlist Hn Hw).
  rewrite Hadd in Hround.
  unfold Chain.delete_documents.
  destruct (Store.delete_by_source FAISS_INDEX_PATH (Loader.name file) (Chain.faiss_store s1))
    as [ok vs2].
  destruct Hround as (_ & _ & _ & Hvs2 & Hdisk2).
  cbn [Chain.document_loader Chain.faiss_store].
  pose proof (delete_processed_document_spec (Loader.name file) (Chain.document_loader s1)
                Hc) as Hdel.
  rewrite Hlist in Hdel.
  destruct Hdel as (Hlist2 & Hdir2 & _).
  { apply Forall_app. split.
    - apply Forall_forall. intros x Hx. split.
      + by eapply Forall_forall in Hsingle.
      + by eapply Forall_forall in Hnonempty.
    - by repeat constructor. }
  pose proof (delete_processed_document_record (Loader.name file) (Chain.document_loader s1))
    as Hrec2.
  rewrite Hlist in Hrec2.
  assert (list_remove (Loader.name file)
            (Loader.list_all_processed_documents (Chain.document_loader s)
               ++ [Loader.name file])
          = Loader.list_all_processed_documents (Chain.document_loader s)) as Hback.
  { clear -Hnew.
    induction (Loader.list_all_processed_documents (Chain.document_loader s)) as [|y l IH].
    - cbn. by rewrite decide_True.
    - apply not_elem_of_cons in Hnew as [Hy Hl]. cbn [app list_remove].
      rewrite decide_False by done. by rewrite IH. }
  rewrite Hback in Hlist2, Hrec2.
  split; [done|]. split; [done|]. split; [done|]. split; [|split; [|done]].
  - intros Hnames. unfold Loader.record_in_lines in Hw.
    unfold Loader.list_all_processed_documents in *.
    destruct (Loader.record_file (Chain.document_loader s)) as [content|]; [|done].
    destruct Hw as (lines & Hl & ->).
    rewrite read_record_complete_lines in * by done.
    by rewrite complete_lines_join.
  - rewrite Hdir2, Hdir. apply delete_insert_eq.
Qed.


End WithServices.

Import Sample.

Local Abbreviation sample_add :=
  (Chain.add_documents DOCUMENTS_DIR FAISS_INDEX_PATH loader_load split_documents
     embed uuid4).

(** The services after b.txt was uploaded and another name deleted: the
    record holds b.txt without a final newline. *)
Local Abbreviation services_after_delete :=
  (Chain.mkServices (Loader.mkWorld (Some "b.txt") {["b.txt" := [Byte.x62]]} []) vs0 []).

Lemma upload_records_the_file_and_indexes_its_chunks_witness :
  let file := Loader.mkUpload "notes.txt" [Byte.x68; Byte.x69] in
  let '(r, s') := sample_add file services_after_delete in
  r = Ok None ∧
  Loader.record_file (Chain.document_loader s') = Some ("b.txtnotes.txt" +:+ String LF "") ∧
  ∃ f', Store.vector_store (Chain.faiss_store s') = Some f' ∧
        values (Faiss.index_to_docstore_id f')
        = ["00000000-0000-4000-8000-0"; "notes.txt_00000000-0000-4000-8000-1"].
Proof.
  intros file.
  set (docs := [mkDocument "hi" {["source" := "data/documents/notes.txt"]}]).
  set (f := default Faiss.empty_store (Store.vector_store vs0)).
  assert (Loader._is_document_processed (Loader.name file)
            (Chain.document_loader services_after_delete) = false) as Hnew by by vm_compute.
  assert (Loader.dict_get (lower (suffix (Loader.name file))) Loader.SUPPORTED_LOADERS
          = Some Loader.TextLoader) as Hcls by by vm_compute.
  assert (loader_load Loader.TextLoader (DOCUMENTS_DIR +:+ "/" +:+ Loader.name file)
            (Loader.getbuffer file) = Ok docs) as Hload by by vm_compute.
  assert (split_documents
            (map (Loader.add_metadata (DOCUMENTS_DIR +:+ "/" +:+ Loader.name file)
                    (Loader.name file) (lower (suffix (Loader.name file)))) docs) ≠ [])
    as Hchunks by done.
  assert (Store.vector_store (Chain.faiss_store services_after_delete) = Some f)
    as Hs by by vm_compute.
  assert (Faiss.numbered f) as Hnum by by vm_compute.
  pose proof (upload_records_the_file_and_indexes_its_chunks
                DOCUMENTS_DIR FAISS_INDEX_PATH loader_load split_documents Vector embed uuid4
                file services_after_delete Loader.TextLoader docs f eq_refl Hnew Hcls Hload
                Hchunks Hs Hnum)
    as H.
  cbv zeta in H.
  assert (NoDup (Store.ids_used uuid4
            (split_documents
               (map (Loader.add_metadata (DOCUMENTS_DIR +:+ "/" +:+ Loader.name file)
                       (Loader.name file) (lower (suffix (Loader.name file)))) docs))
            None (Chain.faiss_store services_after_delete))) as Hnd.
  { apply (bool_decide_unpack _). by vm_compute. }
  specialize (H Hnd).
  assert (Forall (λ id_, Faiss.docstore f !! id_ = None)
            (Store.ids_used uuid4
               (split_documents
                  (map (Loader.add_metadata (DOCUMENTS_DIR +:+ "/" +:+ Loader.name file)
                          (Loader.name file) (lower (suffix (Loader.name file)))) docs))
               None (Chain.faiss_store services_after_delete))) as Hfresh.
  { apply (bool_decide_unpack _). by vm_compute. }
  specialize (H Hfresh).
  destruct (sample_add file services_after_delete) as [r s'].
  destruct H as (Hr & Hrec & _ & _ & _ & f' & Hf' & _ & _ & Hvals).
  split; [exact Hr|]. split; [exact Hrec|].
  exists f'. split; [exact Hf'|exact Hvals].
Defined.

(** The services after b.txt was recorded on a new registry. *)
Local Abbreviation services_one_name :=
  (Chain.mkServices
     (Loader.mkWorld (Some (complete_lines ["b.txt"])) {["b.txt" := [Byte.x62]]} [])
     vs0 []).

Lemma delete_documents_after_an_upload_witness :
  let file := Loader.mkUpload "notes.txt" [Byte.x68; Byte.x69] in
  let '(r, s1) := sample_add file services_one_name in
  let s2 := Chain.delete_documents FAISS_INDEX_PATH "notes.txt" s1 in
  r = Ok None ∧
  Loader.list_all_processed_documents (Chain.document_loader s2) = ["b.txt"] ∧
  Loader.record_file (Chain.document_loader services_one_name)
  = Some ("b.txt" +:+ String LF "") ∧
  Loader.record_file (Chain.document_loader s2) = Some "b.txt" ∧
  Store.vector_store (Chain.faiss_store s2) = Store.vector_store vs0.
Proof.
  intros file.
  set (docs := [mkDocument "hi" {["source" := "data/documents/notes.txt"]}]).
  set (f := default Faiss.empty_store (Store.vector_store vs0)).
  set (chunks := split_documents
            (map (Loader.add_metadata (DOCUMENTS_DIR +:+ "/" +:+ Loader.name file)
                    (Loader.name file) (lower (suffix (Loader.name file)))) docs)).
  assert (single_line (Loader.name file) = true) as Hn by by vm_compute.
  assert (Loader.record_in_lines (Chain.document_loader services_one_name)) as Hw.
  { exists ["b.txt"]. split; [by repeat constructor|done]. }
  assert (Loader.list_all_processed_documents (Chain.document_loader services_one_name)
          = ["b.txt"]) as Hnames by by vm_compute.
  assert (Forall (λ l, l ≠ "")
            (Loader.list_all_processed_documents (Chain.document_loader services_one_name)))
    as Hnonempty by (rewrite Hnames; by repeat constructor).
  assert (Loader.name file
            ∉ Loader.list_all_processed_documents (Chain.document_loader services_one_name))
    as Hnew.
  { rewrite Hnames. intros H%list_elem_of_singleton. discriminate H. }
  assert (Loader.dict_get (lower (suffix (Loader.name file))) Loader.SUPPORTED_LOADERS
          = Some Loader.TextLoader) as Hcls by by vm_compute.
  assert (loader_load Loader.TextLoader (DOCUMENTS_DIR +:+ "/" +:+ Loader.name file)
            (Loader.getbuffer file) = Ok docs) as Hload by by vm_compute.
  assert (chunks ≠ []) as Hchunks by done.
  assert (Forall (λ d, metadata d !! "file_name" = Some (Loader.name file)) chunks) as Hsrc.
  { apply (bool_decide_unpack _). by vm_compute. }
  assert (Store.vector_store (Chain.faiss_store services_one_name) = Some f)
    as Hs by by vm_compute.
  assert (Faiss.well_formed f) as Hwf.
  { apply (bool_decide_unpack _). by vm_compute. }
  assert (Faiss.numbered f) as Hnum by by vm_compute.
  assert (length (Faiss.index f) = length (Faiss.index_to_docstore_id f)) as Hidx
    by by vm_compute.
  assert (Forall (λ id_, ¬ startswith id_ (Loader.name file +:+ "_") = true)
                 (values (Faiss.index_to_docstore_id f))) as Hold.
  { apply (bool_decide_unpack _). by vm_compute. }
  assert (NoDup (Store.ids_used uuid4 chunks None (Chain.faiss_store services_one_name)))
    as Hnd.
  { apply (bool_decide_unpack _). by vm_compute. }
  assert (Forall (λ id_, Faiss.docstore f !! id_ = None)
            (Store.ids_used uuid4 chunks None (Chain.faiss_store services_one_name)))
    as Hfresh.
  { apply (bool_decide_unpack _). by vm_compute. }
  pose proof (delete_documents_after_an_upload
                DOCUMENTS_DIR FAISS_INDEX_PATH loader_load split_documents Vector embed uuid4
                file services_one_name Loader.TextLoader docs f eq_refl Hn Hw Hnonempty Hnew
                Hcls Hload Hchunks Hsrc Hs Hwf Hnum Hidx Hold Hnd Hfresh) as H.
  destruct (sample_add file services_one_name) as [r s1].
  cbv zeta in H. rewrite Hnames in H.
  destruct H as (Hr & Hlist & Hrec & Hbefore & _ & Hstore & _).
  split; [exact Hr|]. split; [exact Hlist|].
  split; [exact (Hbefore ltac:(discriminate))|].
  split; [exact Hrec|]. exact (eq_trans Hstore (eq_sym Hs)).
Defined.


End UploadFacts.
